(** * Flight streaming pipeline: generator, record schema and NDJSON codec

    A shallow embedding of [src/generators/models.py],
    [src/generators/flight_generator.py] and [src/streaming/json_stream.py],
    together with the parts of the Python runtime they call
    ([random.Random], [datetime], [str], pydantic's field validation and JSON
    dump, [json.loads], text-mode files).

    Conventions
    - a Python [int] is a [Z]; a list index is a [nat];
    - a Python [str] is the list of its code points ([list N]);
    - a Python [float] is a binary64 [float];
    - a raised exception is the [Err] branch of [result]; the generator's
      random stream is threaded explicitly through every draw. *)

From Stdlib Require Import Ascii String ZArith NArith List Bool Lia Floats.
Import ListNotations.

Local Open Scope Z_scope.

(* ------------------------------------------------------------------ *)
(** ** Exceptions and results

    [Unmodelled] is not a Python exception: it marks the selection-set
    branch of [random.sample], which this embedding does not cover, and a
    scanner of [json.loads] out of fuel, which does not happen
    ([loads_total]). *)

Inductive exn : Type :=
| IndexError
| ValueError
| OverflowError
| ValidationError
| FileNotFoundError
| JSONDecodeError
| Unmodelled.

Inductive result (A : Type) : Type :=
| Ok (a : A)
| Err (e : exn).

Arguments Ok {A} a.
Arguments Err {A} e.

Definition bind {A B : Type} (m : result A) (k : A -> result B) : result B :=
  match m with
  | Ok a => k a
  | Err e => Err e
  end.

Declare Scope py_scope.
Delimit Scope py_scope with py.
Notation "x <- m ;; k" := (bind m (fun x => k))
  (at level 61, m at next level, right associativity) : py_scope.
Notation "' p <- m ;; k" := (bind m (fun x => match x with p => k end))
  (at level 61, p pattern, m at next level, right associativity) : py_scope.
Local Open Scope py_scope.

(* ------------------------------------------------------------------ *)
(** ** Text *)

Module Str.

Definition char : Type := N.
Definition str : Type := list char.

  (** An ASCII literal as a [str]. *)
Definition lit (s : string) : str := map N_of_ascii (list_ascii_of_string s).

Definition eqb (a b : str) : bool :=
    if list_eq_dec N.eq_dec a b then true else false.

  (** [len(s)]. *)
Definition len (s : str) : Z := Z.of_nat (length s).

Section Upper.
    (** Upper-case mapping of the code points outside ASCII (the Unicode
        character database, where one code point may map to several). *)
Variable unicode_upper : char -> str.

Definition upper_char (c : char) : str :=
      if (c <? 128)%N then
        if ((97 <=? c) && (c <=? 122))%N then [(c - 32)%N] else [c]
      else unicode_upper c.

    (** [s.upper()]. *)
Definition upper (s : str) : str := flat_map upper_char s.
End Upper.

  (** [c.isspace()]: the code points Python treats as whitespace. *)
Definition isspace (c : char) : bool :=
    (((9 <=? c) && (c <=? 13)) || ((28 <=? c) && (c <=? 32))
     || (c =? 133) || (c =? 160) || (c =? 5760)
     || ((8192 <=? c) && (c <=? 8202))
     || (c =? 8232) || (c =? 8233) || (c =? 8239) || (c =? 8287)
     || (c =? 12288))%N.

Fixpoint lstrip (s : str) : str :=
    match s with
    | c :: r => if isspace c then lstrip r else s
    | [] => []
    end.

Definition rstrip (s : str) : str := rev (lstrip (rev s)).

  (** [s.strip()]. *)
Definition strip (s : str) : str := rstrip (lstrip s).

  (** [sep.join(parts)]. *)
Fixpoint join (sep : str) (parts : list str) : str :=
    match parts with
    | [] => []
    | [p] => p
    | p :: rest => p ++ sep ++ join sep rest
    end.

  (** Decimal digits of a natural number, least significant first. *)
Fixpoint digits_lu (fuel : nat) (n : N) : str :=
    match fuel with
    | O => []
    | S f =>
        let d := (48 + n mod 10)%N in
        if (n / 10 =? 0)%N then [d] else d :: digits_lu f (n / 10)
    end.

Definition str_of_N (n : N) : str :=
    rev (digits_lu (S (N.to_nat (N.log2 n))) n).

  (** [str(i)] for an [int]. *)
Definition str_of_int (i : Z) : str :=
    match i with
    | Zneg p => 45%N :: str_of_N (Npos p)
    | _ => str_of_N (Z.to_N i)
    end.

End Str.

Import Str.

Definition NL : char := 10%N.
Definition CR : char := 13%N.

(* ------------------------------------------------------------------ *)
(** ** [datetime]

    A [datetime] is kept as the number of microseconds since
    0001-01-01T00:00:00 of its own wall clock, with its [tzinfo] (a UTC
    offset in minutes, [None] for a naive value).  Adding a [timedelta]
    works on the wall-clock fields and never consults [tzinfo]; it raises
    [OverflowError] when the result leaves years 1..9999. *)

Module Datetime.

Record datetime : Type := mk_datetime {
    ticks : Z;
    tzinfo : option Z
  }.

  (** [date.max.toordinal()]. *)
Definition MAXORDINAL : Z := 3652059.
Definition US_PER_MINUTE : Z := 60000000.
Definition US_PER_DAY : Z := 1440 * US_PER_MINUTE.
Definition MAX_TICKS : Z := MAXORDINAL * US_PER_DAY.

  (** [d + timedelta(minutes=m)]. *)
Definition add_minutes (d : datetime) (m : Z) : result datetime :=
    let t := ticks d + m * US_PER_MINUTE in
    if (0 <=? t) && (t <? MAX_TICKS)
    then Ok (mk_datetime t (tzinfo d))
    else Err OverflowError.

  (** [datetime.min] and [datetime.max] (naive). *)
Definition datetime_min : datetime := mk_datetime 0 None.

End Datetime.

Import Datetime.

(* ------------------------------------------------------------------ *)
(** ** What the embedding takes from the Python runtime *)

(** [random.Random]: an owned pseudo-random stream.  [randbelow n] is
    [Random._randbelow(n)], an integer in [range(n)]; [random] is
    [Random.random()]. *)
Class Random : Type := {
  rng_state : Type;
  rng_seed : Z -> rng_state;
  randbelow : Z -> rng_state -> Z * rng_state;
  random : rng_state -> float * rng_state;
  randbelow_range :
    forall n s, 0 < n -> 0 <= fst (randbelow n s) < n
}.

(** The upper-case table of the Unicode database for non-ASCII code points. *)
Class UnicodeData : Type := {
  unicode_upper : char -> str
}.

(** The ISO-8601 text pydantic renders a [datetime] as. *)
Class DatetimeFormat : Type := {
  isoformat : datetime -> str
}.

(* ------------------------------------------------------------------ *)
(** ** Sequences *)

(** [seq[i]] for [0 <= i]; [IndexError] past the end. *)
Definition getitem {A : Type} (seq : list A) (i : Z) : result A :=
  if i <? 0 then Err IndexError
  else match nth_error seq (Z.to_nat i) with
       | Some x => Ok x
       | None => Err IndexError
       end.

(** [seq[i] = x] on a list, for an index in range. *)
Fixpoint setitem {A : Type} (seq : list A) (i : nat) (x : A) : list A :=
  match seq, i with
  | [], _ => []
  | _ :: r, O => x :: r
  | y :: r, S i' => y :: setitem r i' x
  end.

Definition zlen {A : Type} (seq : list A) : Z := Z.of_nat (length seq).

(* ------------------------------------------------------------------ *)
(** ** The methods of [random.Random] the generator calls

    Each draw is a computation over the stream that may raise. *)

Module PyRandom.
Section Methods.
Context {R : Random}.

Definition Rand (A : Type) : Type := rng_state -> result (A * rng_state).

Definition ret {A : Type} (a : A) : Rand A := fun s => Ok (a, s).

Definition raise {A : Type} (e : exn) : Rand A := fun _ => Err e.

Definition bindR {A B : Type} (m : Rand A) (k : A -> Rand B) : Rand B :=
    fun s => match m s with
             | Ok (a, s') => k a s'
             | Err e => Err e
             end.

Definition lift {A : Type} (m : result A) : Rand A :=
    fun s => match m with Ok a => Ok (a, s) | Err e => Err e end.

Definition draw_below (n : Z) : Rand Z := fun s => Ok (randbelow n s).

Definition draw_random : Rand float := fun s => Ok (random s).

  (** [choice(seq)]. *)
Definition choice {A : Type} (seq : list A) : Rand A :=
    match seq with
    | [] => raise IndexError
    | _ => bindR (draw_below (zlen seq)) (fun i => lift (getitem seq i))
    end.

  (** [randrange(start, stop)] with the default step. *)
Definition randrange (start stop : Z) : Rand Z :=
    let width := stop - start in
    if 0 <? width
    then bindR (draw_below width) (fun r => ret (start + r))
    else raise ValueError.

  (** [randint(a, b)]. *)
Definition randint (a b : Z) : Rand Z := randrange a (b + 1).

  (** The pool loop of [sample]: the [i]-th pick is [pool[j]] for
      [j = _randbelow(n - i)], and the vacancy is filled with the last
      non-selected item. *)
Fixpoint sample_pool {A : Type} (k : nat) (n i : Z) (pool : list A)
    : Rand (list A) :=
    match k with
    | O => ret []
    | S k' =>
        bindR (draw_below (n - i)) (fun j =>
        bindR (lift (getitem pool j)) (fun x =>
        bindR (lift (getitem pool (n - i - 1))) (fun last =>
        bindR (sample_pool k' n (i + 1) (setitem pool (Z.to_nat j) last))
              (fun rest => ret (x :: rest)))))
    end.

  (** [sample(population, k)].  For [k <= 5] the set size is 21, and a
      population of at most 21 items is sampled through the pool loop; the
      selection-set branch for larger inputs is outside this embedding. *)
Definition sample {A : Type} (population : list A) (k : Z)
    : Rand (list A) :=
    let n := zlen population in
    if negb ((0 <=? k) && (k <=? n)) then raise ValueError
    else if (k <=? 5) && (n <=? 21)
         then sample_pool (Z.to_nat k) n 0 population
         else raise Unmodelled.

  (** [itertools.accumulate(weights)]. *)
Fixpoint accumulate_from (acc : float) (ws : list float) : list float :=
    match ws with
    | [] => []
    | w :: r => let acc' := PrimFloat.add acc w in acc' :: accumulate_from acc' r
    end.

Definition accumulate (ws : list float) : list float :=
    match ws with
    | [] => []
    | w :: r => w :: accumulate_from w r
    end.

  (** The loop of [bisect.bisect_right(a, x, lo, hi)]; every iteration
      shrinks [hi - lo], so [hi - lo] rounds are enough. *)
Fixpoint bisect_loop (fuel : nat) (a : list float) (x : float) (lo hi : Z)
    : Z :=
    match fuel with
    | O => lo
    | S f =>
        if lo <? hi then
          let mid := (lo + hi) / 2 in
          if PrimFloat.ltb x (nth (Z.to_nat mid) a PrimFloat.zero)
          then bisect_loop f a x lo mid
          else bisect_loop f a x (mid + 1) hi
        else lo
    end.

Definition bisect (a : list float) (x : float) (lo hi : Z) : Z :=
    bisect_loop (Z.to_nat (hi - lo)) a x lo hi.

Definition isfinite (x : float) : bool :=
    negb (PrimFloat.is_nan x) && negb (PrimFloat.is_infinity x).

  (** [choices(population, weights=weights, k=1)]. *)
Definition choices {A : Type} (population : list A) (weights : list float)
    : Rand (list A) :=
    let n := zlen population in
    let cum_weights := accumulate weights in
    if negb (zlen cum_weights =? n) then raise ValueError
    else
      bindR (lift (getitem cum_weights (zlen cum_weights - 1))) (fun last =>
      let total := PrimFloat.add last PrimFloat.zero in
      if PrimFloat.leb total PrimFloat.zero then raise ValueError
      else if negb (isfinite total) then raise ValueError
      else
        let hi := n - 1 in
        bindR draw_random (fun u =>
        bindR (lift (getitem population
                       (bisect cum_weights (PrimFloat.mul u total) 0 hi)))
              (fun x => ret [x]))).

End Methods.
End PyRandom.

Import PyRandom.

Notation "x <~ m ;; k" := (bindR m (fun x => k))
  (at level 61, m at next level, right associativity) : py_scope.

(* ------------------------------------------------------------------ *)
(** ** models.py *)

Inductive FlightStatus : Type :=
| SCHEDULED | BOARDING | DEPARTED | IN_AIR | LANDED
| ARRIVED | DELAYED | CANCELLED | DIVERTED.

Inductive FlightType : Type :=
| ARRIVAL | DEPARTURE.

Definition FlightStatus_value (s : FlightStatus) : str :=
  match s with
  | SCHEDULED => lit "scheduled"
  | BOARDING => lit "boarding"
  | DEPARTED => lit "departed"
  | IN_AIR => lit "in_air"
  | LANDED => lit "landed"
  | ARRIVED => lit "arrived"
  | DELAYED => lit "delayed"
  | CANCELLED => lit "cancelled"
  | DIVERTED => lit "diverted"
  end.

Definition FlightType_value (t : FlightType) : str :=
  match t with
  | ARRIVAL => lit "arrival"
  | DEPARTURE => lit "departure"
  end.

Definition FlightStatus_eqb (a b : FlightStatus) : bool :=
  match a, b with
  | SCHEDULED, SCHEDULED | BOARDING, BOARDING | DEPARTED, DEPARTED
  | IN_AIR, IN_AIR | LANDED, LANDED | ARRIVED, ARRIVED
  | DELAYED, DELAYED | CANCELLED, CANCELLED | DIVERTED, DIVERTED => true
  | _, _ => false
  end.

(** [status in (a, b, ...)]. *)
Definition status_in (s : FlightStatus) (l : list FlightStatus) : bool :=
  existsb (FlightStatus_eqb s) l.

(** Single flight arrival or departure record. *)
Record FlightRecord : Type := mk_FlightRecord {
  flight_id : str;
  flight_type : FlightType;
  airline : str;
  airline_code : str;
  flight_number : Z;
  origin_airport : str;
  destination_airport : str;
  scheduled_time : datetime;
  estimated_time : option datetime;
  actual_time : option datetime;
  status : FlightStatus;
  gate : option str;
  terminal : option str;
  aircraft_type : option str;
  delay_minutes : Z
}.

Section Schema.
Context {U : UnicodeData}.

  (** [@field_validator("origin_airport", "destination_airport")]. *)
Definition uppercase_airport (v : str) : str := upper unicode_upper v.

  (** [@field_validator("airline_code")]. *)
Definition uppercase_airline_code (v : str) : str := upper unicode_upper v.

  (** [Field(min_length=lo, max_length=hi)] on a [str]. *)
Definition check_length (lo hi : Z) (v : str) : bool :=
    (lo <=? len v) && (len v <=? hi).

  (** [Field(ge=lo, le=hi)] on an [int]. *)
Definition check_range (lo hi : Z) (v : Z) : bool :=
    (lo <=? v) && (v <=? hi).

  (** [Field(ge=lo)] on an [int]. *)
Definition check_ge (lo : Z) (v : Z) : bool := lo <=? v.

  (** The constraints declared on the fields of [FlightRecord], on the
      keyword arguments of the constructor (here already of their declared
      types, carried in a [FlightRecord] of raw values). *)
Definition field_constraints (kw : FlightRecord) : bool :=
    check_length 2 3 (airline_code kw)
    && check_range 1 9999 (flight_number kw)
    && check_length 3 4 (origin_airport kw)
    && check_length 3 4 (destination_airport kw)
    && check_ge 0 (delay_minutes kw).

  (** The record a successful validation builds: every field as given,
      the three code fields through their validators. *)
Definition normalized (kw : FlightRecord) : FlightRecord :=
    {| flight_id := flight_id kw;
       flight_type := flight_type kw;
       airline := airline kw;
       airline_code := uppercase_airline_code (airline_code kw);
       flight_number := flight_number kw;
       origin_airport := uppercase_airport (origin_airport kw);
       destination_airport := uppercase_airport (destination_airport kw);
       scheduled_time := scheduled_time kw;
       estimated_time := estimated_time kw;
       actual_time := actual_time kw;
       status := status kw;
       gate := gate kw;
       terminal := terminal kw;
       aircraft_type := aircraft_type kw;
       delay_minutes := delay_minutes kw |}.

  (** Constructing [FlightRecord] from keyword arguments: pydantic checks each field's constraints, then
      runs its validator; any failure raises [ValidationError] and no
      record is built. *)
Definition FlightRecord_new (kw : FlightRecord) : result FlightRecord :=
    if negb (check_length 2 3 (airline_code kw)) then Err ValidationError
    else if negb (check_range 1 9999 (flight_number kw)) then Err ValidationError
    else if negb (check_length 3 4 (origin_airport kw)) then Err ValidationError
    else if negb (check_length 3 4 (destination_airport kw)) then Err ValidationError
    else if negb (check_ge 0 (delay_minutes kw)) then Err ValidationError
    else Ok (normalized kw).

End Schema.

(* ------------------------------------------------------------------ *)
(** ** flight_generator.py *)

Notation "' p <~ m ;; k" := (bindR m (fun x => match x with p => k end))
  (at level 61, p pattern, m at next level, right associativity) : py_scope.

(** Reference data pools. *)

Definition AIRLINES : list (str * str) :=
  [ (lit "United Airlines", lit "UA");
    (lit "Delta Air Lines", lit "DL");
    (lit "American Airlines", lit "AA");
    (lit "Southwest Airlines", lit "WN");
    (lit "JetBlue Airways", lit "B6");
    (lit "Alaska Airlines", lit "AS");
    (lit "Spirit Airlines", lit "NK");
    (lit "Frontier Airlines", lit "F9");
    (lit "British Airways", lit "BA");
    (lit "Lufthansa", lit "LH");
    (lit "Air France", lit "AF");
    (lit "KLM Royal Dutch", lit "KL");
    (lit "Emirates", lit "EK");
    (lit "Qatar Airways", lit "QR");
    (lit "Singapore Airlines", lit "SQ") ].

Definition AIRPORTS : list str :=
  map lit
    [ "JFK"; "LAX"; "ORD"; "ATL"; "DFW"; "DEN"; "SFO"; "SEA";
      "MIA"; "BOS"; "LHR"; "CDG"; "FRA"; "AMS"; "DXB"; "SIN";
      "HND"; "ICN"; "SYD"; "YYZ" ]%string.

Definition AIRCRAFT_TYPES : list str :=
  map lit
    [ "B738"; "B739"; "B77W"; "B789"; "A320"; "A321"; "A333";
      "A359"; "A388"; "E190"; "CRJ9"; "B737" ]%string.

Definition TERMINALS : list str :=
  map lit [ "T1"; "T2"; "T3"; "T4"; "T5" ]%string.

#[local] Set Warnings "-inexact-float".
Definition STATUS_WEIGHTS : list (FlightStatus * float) :=
  [ (SCHEDULED, 0.25%float);
    (BOARDING, 0.10%float);
    (DEPARTED, 0.10%float);
    (IN_AIR, 0.15%float);
    (LANDED, 0.10%float);
    (ARRIVED, 0.15%float);
    (DELAYED, 0.10%float);
    (CANCELLED, 0.03%float);
    (DIVERTED, 0.02%float) ].
#[local] Set Warnings "+inexact-float".

(** [a, b = seq]. *)
Definition unpack2 {A : Type} (seq : list A) : result (A * A) :=
  match seq with
  | [a; b] => Ok (a, b)
  | _ => Err ValueError
  end.

(** [string.ascii_uppercase[:6]], as the sequence of its characters. *)
Definition GATE_LETTERS : list str := map (fun c => [c]) (lit "ABCDEF").

Module Generator.
Section Generator.
Context {R : Random} {U : UnicodeData}.

  (** The attributes of a [FlightDataGenerator].  ([self.faker] is created
      and seeded by the constructor and never read again.) *)
Record FlightDataGenerator : Type := mk_generator {
    seed : Z;
    rng : rng_state;
    base_time : datetime
  }.

  (** [FlightDataGenerator(seed, base_time)]; [now] is what
      [datetime.now(timezone.utc)] reads when the call is made. *)
Definition __init__ (seed : Z) (base_time : option datetime) (now : datetime)
    : FlightDataGenerator :=
    {| seed := seed;
       rng := rng_seed seed;
       base_time := match base_time with Some t => t | None => now end |}.

  (** The body of [_make_record], as draws from [self.rng]. *)
Definition make_record_draws (base_time : datetime) : Rand FlightRecord :=
    '(airline_name, airline_code) <~ choice AIRLINES ;;
    flight_number <~ randint 100 9999 ;;
    let flight_id := airline_code ++ lit "-" ++ str_of_int flight_number in
    picked <~ sample AIRPORTS 2 ;;
    '(origin, destination) <~ lift (unpack2 picked) ;;
    flight_type <~ choice [ARRIVAL; DEPARTURE] ;;
    offset_minutes <~ randint (-720) 720 ;;
    scheduled <~ lift (add_minutes base_time offset_minutes) ;;
    drawn <~ choices (map fst STATUS_WEIGHTS) (map snd STATUS_WEIGHTS) ;;
    status <~ lift (getitem drawn 0) ;;
    delay_minutes <~
      (if FlightStatus_eqb status DELAYED then randint 15 300
       else if FlightStatus_eqb status CANCELLED then ret 0
       else if status_in status [ARRIVED; LANDED]
            then choice [0; 0; 0; 5; 10; 15; 30]
            else ret 0) ;;
    estimated <~
      lift (if delay_minutes =? 0 then Ok None
            else (e <- add_minutes scheduled delay_minutes ;; Ok (Some e))) ;;
    let actual :=
      if status_in status [ARRIVED; LANDED; DEPARTED]
      then Some (match estimated with Some e => e | None => scheduled end)
      else None in
    gate_letter <~ choice GATE_LETTERS ;;
    gate_number <~ randint 1 40 ;;
    terminal <~ choice TERMINALS ;;
    aircraft_type <~ choice AIRCRAFT_TYPES ;;
    lift (FlightRecord_new
            {| flight_id := flight_id;
               flight_type := flight_type;
               airline := airline_name;
               airline_code := airline_code;
               flight_number := flight_number;
               origin_airport := origin;
               destination_airport := destination;
               scheduled_time := scheduled;
               estimated_time := estimated;
               actual_time := actual;
               status := status;
               gate := Some (gate_letter ++ str_of_int gate_number);
               terminal := Some terminal;
               aircraft_type := Some aircraft_type;
               delay_minutes := delay_minutes |}).

  (** [self._make_record()]: the record, and [self] with its stream
      advanced. *)
Definition _make_record (self : FlightDataGenerator)
    : result (FlightRecord * FlightDataGenerator) :=
    '(rec, s) <- make_record_draws (base_time self) (rng self) ;;
    Ok (rec, {| seed := seed self; rng := s; base_time := base_time self |}).

  (** The loop of [stream]: [k] records, one after the other. *)
Fixpoint stream_loop (k : nat) (self : FlightDataGenerator)
    : result (list FlightRecord * FlightDataGenerator) :=
    match k with
    | O => Ok ([], self)
    | S k' =>
        '(rec, self1) <- _make_record self ;;
        '(rest, self2) <- stream_loop k' self1 ;;
        Ok (rec :: rest, self2)
    end.

  (** [self.stream(n)], run to its end: [range(n)] is empty for [n <= 0]. *)
Definition stream (self : FlightDataGenerator) (n : Z)
    : result (list FlightRecord * FlightDataGenerator) :=
    stream_loop (Z.to_nat n) self.

  (** [self.generate(n)], that is [list(self.stream(n))]. *)
Definition generate (self : FlightDataGenerator) (n : Z)
    : result (list FlightRecord * FlightDataGenerator) :=
    stream self n.

(** What the caller of [generate] or [stream] holds: the records (the
    generator object itself is updated in place). *)
Definition records_of (run : result (list FlightRecord * FlightDataGenerator))
  : result (list FlightRecord) :=
  '(records, _) <- run ;; Ok records.

End Generator.
End Generator.

Import Generator.

(* ------------------------------------------------------------------ *)
(** ** The Mersenne Twister behind [random.Random]

    CPython's [_randommodule.c]: the 624-word state, seeding from the
    absolute value of an [int] through [init_by_array], the tempered 32-bit
    output, [getrandbits], [random] and [_randbelow]. *)

Module MT19937.

Definition NN : nat := 624.
Definition MM : nat := 397.
Definition MATRIX_A : Z := 0x9908b0df.
Definition UPPER_MASK : Z := 0x80000000.
Definition LOWER_MASK : Z := 0x7fffffff.

Definition u32 (x : Z) : Z := Z.land x 0xffffffff.

Record state : Type := mk_state {
    mt : list Z;
    index : nat
  }.

Definition at_ (v : list Z) (i : nat) : Z := nth i v 0.

Fixpoint init_genrand_loop (k : nat) (i : Z) (prev : Z) : list Z :=
    match k with
    | O => []
    | S k' =>
        let x := u32 (1812433253 * Z.lxor prev (Z.shiftr prev 30) + i) in
        x :: init_genrand_loop k' (i + 1) x
    end.

Definition init_genrand (s : Z) : list Z :=
    u32 s :: init_genrand_loop (NN - 1) 1 (u32 s).

  (** One step of either loop of [init_by_array]: [upd] computes the new
      word at [i], then [i] advances and wraps to 1 at the end. *)
Definition advance (v : list Z) (i : nat) (x : Z) : list Z * nat :=
    let v1 := setitem v i x in
    if (NN <=? S i)%nat
    then (setitem v1 0 (at_ v1 (NN - 1)), 1%nat)
    else (v1, S i).

Fixpoint key_loop (k : nat) (key : list Z) (v : list Z) (i j : nat)
    : list Z * nat :=
    match k with
    | O => (v, i)
    | S k' =>
        let prev := at_ v (i - 1) in
        let x := u32 (Z.lxor (at_ v i)
                             (Z.lxor prev (Z.shiftr prev 30) * 1664525)
                      + at_ key j + Z.of_nat j) in
        let '(v1, i1) := advance v i x in
        let j1 := if (length key <=? S j)%nat then O else S j in
        key_loop k' key v1 i1 j1
    end.

Fixpoint mix_loop (k : nat) (v : list Z) (i : nat) : list Z :=
    match k with
    | O => v
    | S k' =>
        let prev := at_ v (i - 1) in
        let x := u32 (Z.lxor (at_ v i)
                             (Z.lxor prev (Z.shiftr prev 30) * 1566083941)
                      - Z.of_nat i) in
        let '(v1, i1) := advance v i x in
        mix_loop k' v1 i1
    end.

Definition init_by_array (key : list Z) : state :=
    let v0 := init_genrand 19650218 in
    let '(v1, i1) := key_loop (Nat.max NN (length key)) key v0 1 0 in
    let v2 := mix_loop (NN - 1) v1 i1 in
    mk_state (setitem v2 0 0x80000000) NN.

  (** The 32-bit words of a non-negative integer, least significant first
      (one word for zero). *)
Fixpoint words32 (fuel : nat) (n : Z) : list Z :=
    match fuel with
    | O => []
    | S f =>
        let w := u32 n in
        let rest := Z.shiftr n 32 in
        if rest =? 0 then [w] else w :: words32 f rest
    end.

  (** [random.Random(seed)] for an [int] seed. *)
Definition seed_int (a : Z) : state :=
    let n := Z.abs a in
    init_by_array (words32 (S (Z.to_nat (Z.log2 n))) n).

Definition mag01 (y : Z) : Z := if Z.testbit y 0 then MATRIX_A else 0.

Definition twist_word (v : list Z) (kk next src : nat) : list Z :=
    let y := Z.lor (Z.land (at_ v kk) UPPER_MASK)
                   (Z.land (at_ v next) LOWER_MASK) in
    setitem v kk (Z.lxor (Z.lxor (at_ v src) (Z.shiftr y 1)) (mag01 y)).

  (** Regenerate the 624 words in place, for [kk = from, from+1, ...]. *)
Fixpoint twist_loop (k : nat) (kk : nat) (v : list Z) : list Z :=
    match k with
    | O => v
    | S k' =>
        let next := if (S kk <? NN)%nat then S kk else O in
        let src := if (kk <? NN - MM)%nat then (kk + MM)%nat
                   else (kk + MM - NN)%nat in
        twist_loop k' (S kk) (twist_word v kk next src)
    end.

Definition genrand_uint32 (s : state) : Z * state :=
    let s1 := if (NN <=? index s)%nat
              then mk_state (twist_loop NN 0 (mt s)) 0
              else s in
    let y0 := at_ (mt s1) (index s1) in
    let y1 := Z.lxor y0 (Z.shiftr y0 11) in
    let y2 := Z.lxor y1 (Z.land (Z.shiftl y1 7) 0x9d2c5680) in
    let y3 := Z.lxor y2 (Z.land (Z.shiftl y2 15) 0xefc60000) in
    let y4 := Z.lxor y3 (Z.shiftr y3 18) in
    (u32 y4, mk_state (mt s1) (S (index s1))).

  (** [getrandbits(k)] for [0 < k]: whole words first, least significant
      first, the last one cut to the bits that remain. *)
Fixpoint getrandbits_words (words : nat) (k : Z) (shift : Z) (s : state)
    : Z * state :=
    match words with
    | O => (0, s)
    | S w' =>
        let '(r, s1) := genrand_uint32 s in
        let r' := if k <? 32 then Z.shiftr r (32 - k) else r in
        let '(hi, s2) := getrandbits_words w' (k - 32) (shift + 32) s1 in
        (Z.lor (Z.shiftl r' shift) hi, s2)
    end.

Definition getrandbits (k : Z) (s : state) : Z * state :=
    if k <=? 0 then (0, s)
    else if k <=? 32 then
      let '(r, s1) := genrand_uint32 s in (Z.shiftr r (32 - k), s1)
    else getrandbits_words (Z.to_nat ((k - 1) / 32 + 1)) k 0 s.

  (** [n.bit_length()] for [0 <= n]. *)
Definition bit_length (n : Z) : Z := if n =? 0 then 0 else Z.log2 n + 1.

  (** The rejection loop of [_randbelow_with_getrandbits]; [rounds] bounds
      the number of redraws, after which the draw is reduced modulo [n]
      (CPython keeps drawing). *)
Fixpoint randbelow_loop (rounds : nat) (n k : Z) (s : state) : Z * state :=
    let '(r, s1) := getrandbits k s in
    if r <? n then (r, s1)
    else match rounds with
         | O => (r mod n, s1)
         | S rounds' => randbelow_loop rounds' n k s1
         end.

Definition REDRAWS : nat := 256.

Definition randbelow_mt (n : Z) (s : state) : Z * state :=
    randbelow_loop REDRAWS n (bit_length n) s.

Definition float_of_Z (z : Z) : float := PrimFloat.of_uint63 (Uint63.of_Z z).

  (** [random()]: 53 random bits scaled into [0.0, 1.0). *)
Definition random_mt (s : state) : float * state :=
    let '(a0, s1) := genrand_uint32 s in
    let '(b0, s2) := genrand_uint32 s1 in
    let a := Z.shiftr a0 5 in
    let b := Z.shiftr b0 6 in
    (PrimFloat.mul
       (PrimFloat.add (PrimFloat.mul (float_of_Z a) (float_of_Z 67108864))
                      (float_of_Z b))
       (PrimFloat.div PrimFloat.one (float_of_Z 9007199254740992)),
     s2).

End MT19937.

(* ------------------------------------------------------------------ *)
(** ** JSON values, pydantic's compact dump and [json.loads] *)

Module Json.

(** What [json.loads] returns.  A number with a fraction or an exponent
    (or [NaN], [Infinity]) is kept as its literal; a [dict] keeps its keys
    in insertion order. *)
#[local] Set Warnings "-register-all".
Inductive value : Type :=
| JNull
| JBool (b : bool)
| JInt (i : Z)
| JFloat (literal : str)
| JStr (s : str)
| JList (items : list value)
| JDict (items : list (str * value)).
#[local] Set Warnings "+register-all".

(** [d[k] = v]. *)
Fixpoint dict_set (d : list (str * value)) (k : str) (v : value)
  : list (str * value) :=
  match d with
  | [] => [(k, v)]
  | (k', v') :: r =>
      if Str.eqb k' k then (k', v) :: r else (k', v') :: dict_set r k v
  end.

(** [d.get(k)]. *)
Fixpoint dict_get (d : list (str * value)) (k : str) : option value :=
  match d with
  | [] => None
  | (k', v') :: r => if Str.eqb k' k then Some v' else dict_get r k
  end.

(** [v[k]] on what [json.loads] returned. *)
Definition get (v : value) (k : str) : option value :=
  match v with
  | JDict d => dict_get d k
  | _ => None
  end.

(** *** Writing *)

Definition hex_digit (n : N) : char :=
  (if n <? 10 then 48 + n else 87 + n)%N.

(** The escape of one code point inside a string: the quote, the
    backslash and the control characters; everything else as it is. *)
Definition escape_char (c : char) : str :=
  (if c =? 34 then [92; 34]
   else if c =? 92 then [92; 92]
   else if c =? 8 then [92; 98]
   else if c =? 9 then [92; 116]
   else if c =? 10 then [92; 110]
   else if c =? 12 then [92; 102]
   else if c =? 13 then [92; 114]
   else if c <? 32 then [92; 117; 48; 48; hex_digit (c / 16); hex_digit (c mod 16)]
   else [c])%N.

Definition dump_str (s : str) : str :=
  34%N :: flat_map escape_char s ++ [34%N].

(** The compact text of a value: no space after [,] and [:]. *)
Fixpoint dump (v : value) : str :=
  match v with
  | JNull => lit "null"
  | JBool true => lit "true"
  | JBool false => lit "false"
  | JInt i => str_of_int i
  | JFloat t => t
  | JStr s => dump_str s
  | JList l => lit "[" ++ join (lit ",") (map dump l) ++ lit "]"
  | JDict d =>
      lit "{"
      ++ join (lit ",")
              (map (fun kv => match kv with
                              | (k, x) => dump_str k ++ lit ":" ++ dump x
                              end) d)
      ++ lit "}"
  end.

(** *** Reading *)

Definition is_ws (c : char) : bool :=
  ((c =? 32) || (c =? 9) || (c =? 10) || (c =? 13))%N.

Fixpoint skip_ws (s : str) : str :=
  match s with
  | c :: r => if is_ws c then skip_ws r else s
  | [] => []
  end.

Definition hexval (c : char) : option N :=
  (if (48 <=? c) && (c <=? 57) then Some (c - 48)
   else if (97 <=? c) && (c <=? 102) then Some (c - 87)
   else if (65 <=? c) && (c <=? 70) then Some (c - 55)
   else None)%N.

Definition hex4 (a b c d : char) : option N :=
  match hexval a, hexval b, hexval c, hexval d with
  | Some x, Some y, Some z, Some w => Some (((x * 16 + y) * 16 + z) * 16 + w)%N
  | _, _, _, _ => None
  end.

Definition is_high_surrogate (u : N) : bool := ((55296 <=? u) && (u <=? 56319))%N.
Definition is_low_surrogate (u : N) : bool := ((56320 <=? u) && (u <=? 57343))%N.
Definition join_surrogates (hi lo : N) : N :=
  (65536 + ((hi - 55296) * 1024 + (lo - 56320)))%N.

Definition emit (c : char) (m : result (str * str)) : result (str * str) :=
  '(t, r) <- m ;; Ok (c :: t, r).

(** [scanstring] in strict mode, from just after the opening quote: the
    decoded text and what follows the closing quote. *)
Fixpoint scanstring (s : str) : result (str * str) :=
  match s with
  | [] => Err JSONDecodeError
  | c :: r =>
      if (c =? 34)%N then Ok ([], r)
      else if (c =? 92)%N then
        match r with
        | [] => Err JSONDecodeError
        | e :: r1 =>
            if (e =? 34)%N then emit 34%N (scanstring r1)
            else if (e =? 92)%N then emit 92%N (scanstring r1)
            else if (e =? 47)%N then emit 47%N (scanstring r1)
            else if (e =? 98)%N then emit 8%N (scanstring r1)
            else if (e =? 102)%N then emit 12%N (scanstring r1)
            else if (e =? 110)%N then emit 10%N (scanstring r1)
            else if (e =? 114)%N then emit 13%N (scanstring r1)
            else if (e =? 116)%N then emit 9%N (scanstring r1)
            else if (e =? 117)%N then
              match r1 with
              | a :: b :: c1 :: d :: r2 =>
                  match hex4 a b c1 d with
                  | None => Err JSONDecodeError
                  | Some uni =>
                      if is_high_surrogate uni then
                        match r2 with
                        | b1 :: u1 :: a2 :: b2 :: c2 :: d2 :: r3 =>
                            match r3 with
                            | [] => emit uni (scanstring r2)
                            | _ :: _ =>
                                if ((b1 =? 92) && (u1 =? 117))%N then
                                  match hex4 a2 b2 c2 d2 with
                                  | None => Err JSONDecodeError
                                  | Some uni2 =>
                                      if is_low_surrogate uni2
                                      then emit (join_surrogates uni uni2)
                                                (scanstring r3)
                                      else emit uni (scanstring r2)
                                  end
                                else emit uni (scanstring r2)
                            end
                        | _ => emit uni (scanstring r2)
                        end
                      else emit uni (scanstring r2)
                  end
              | _ => Err JSONDecodeError
              end
            else Err JSONDecodeError
        end
      else if (c <? 32)%N then Err JSONDecodeError
      else emit c (scanstring r)
  end.

Definition is_digit (c : char) : bool := ((48 <=? c) && (c <=? 57))%N.

(** The longest prefix of digits, and the rest. *)
Fixpoint span_digits (s : str) : str * str :=
  match s with
  | c :: r =>
      if is_digit c then let '(ds, rest) := span_digits r in (c :: ds, rest)
      else ([], s)
  | [] => ([], [])
  end.

(** [int(digits)]. *)
Definition int_of_digits (ds : str) : Z :=
  fold_left (fun acc c => 10 * acc + (Z.of_N c - 48)) ds 0.

(** The fraction [.digits] at the head of [s], if there is one. *)
Definition match_frac (s : str) : str * str :=
  match s with
  | dot :: d :: r =>
      if ((dot =? 46)%N && is_digit d)
      then let '(ds, rest) := span_digits (d :: r) in (dot :: ds, rest)
      else ([], s)
  | _ => ([], s)
  end.

(** The exponent [e], an optional sign, [digits] at the head of [s]. *)
Definition match_exp (s : str) : str * str :=
  match s with
  | e :: r =>
      if ((e =? 101) || (e =? 69))%N then
        match r with
        | sg :: d :: r1 =>
            if is_digit sg
            then let '(ds, rest) := span_digits r in (e :: ds, rest)
            else if (((sg =? 43) || (sg =? 45))%N && is_digit d)
            then let '(ds, rest) := span_digits (d :: r1) in
                 (e :: sg :: ds, rest)
            else ([], s)
        | [d] => if is_digit d then ([e; d], []) else ([], s)
        | [] => ([], s)
        end
      else ([], s)
  | [] => ([], s)
  end.

(** A number at the head of [s]: an [int] when it has neither fraction nor
    exponent. *)
Definition match_number (s : str) : option (value * str) :=
  let '(neg, s1) :=
    match s with
    | c :: r => if (c =? 45)%N then (true, r) else (false, s)
    | [] => (false, s)
    end in
  match s1 with
  | c :: r =>
      if is_digit c then
        let '(int_part, rest) :=
          if (c =? 48)%N then ([c], r)
          else let '(ds, rest) := span_digits r in (c :: ds, rest) in
        let '(frac, rest1) := match_frac rest in
        let '(exp, rest2) := match_exp rest1 in
        match frac, exp with
        | [], [] =>
            Some (JInt (if neg then - int_of_digits int_part
                        else int_of_digits int_part), rest2)
        | _, _ =>
            Some (JFloat ((if neg then [45%N] else [])
                          ++ int_part ++ frac ++ exp), rest2)
        end
      else None
  | [] => None
  end.

(** [p] at the head of [s]: what follows it. *)
Fixpoint strip_prefix (p s : str) : option str :=
  match p, s with
  | [], _ => Some s
  | a :: p', b :: s' => if (a =? b)%N then strip_prefix p' s' else None
  | _ :: _, [] => None
  end.

(** The constants of the scanner, tried in its order after a number did
    not match. *)
Definition scan_constant (s : str) : result (value * str) :=
  match strip_prefix (lit "NaN") s with
  | Some r => Ok (JFloat (lit "NaN"), r)
  | None =>
  match strip_prefix (lit "Infinity") s with
  | Some r => Ok (JFloat (lit "Infinity"), r)
  | None =>
  match strip_prefix (lit "-Infinity") s with
  | Some r => Ok (JFloat (lit "-Infinity"), r)
  | None => Err JSONDecodeError
  end end end.

(** The scanner: one value at the head of [s], and the rest.  [fuel]
    bounds the nesting of calls, and running out of it is [Unmodelled]; a
    text of [n] characters never needs more than [2 * n + 1]. *)
Fixpoint scan_once (fuel : nat) (s : str) {struct fuel}
  : result (value * str) :=
  match fuel with
  | O => Err Unmodelled
  | S f =>
      match s with
      | [] => Err JSONDecodeError
      | c :: r =>
          if (c =? 34)%N then
            '(t, r1) <- scanstring r ;; Ok (JStr t, r1)
          else if (c =? 123)%N then
            match skip_ws r with
            | [] => Err JSONDecodeError
            | c1 :: r1 =>
                if (c1 =? 125)%N then Ok (JDict [], r1)
                else parse_members f (c1 :: r1) []
            end
          else if (c =? 91)%N then
            match skip_ws r with
            | [] => Err JSONDecodeError
            | c1 :: r1 =>
                if (c1 =? 93)%N then Ok (JList [], r1)
                else parse_items f (c1 :: r1) []
            end
          else
            match strip_prefix (lit "null") s with
            | Some r1 => Ok (JNull, r1)
            | None =>
            match strip_prefix (lit "true") s with
            | Some r1 => Ok (JBool true, r1)
            | None =>
            match strip_prefix (lit "false") s with
            | Some r1 => Ok (JBool false, r1)
            | None =>
            match match_number s with
            | Some res => Ok res
            | None => scan_constant s
            end end end end
      end
  end

(** The members of an object from a key on: [acc] is the dict so far. *)
with parse_members (fuel : nat) (s : str) (acc : list (str * value))
  {struct fuel} : result (value * str) :=
  match fuel with
  | O => Err Unmodelled
  | S f =>
      match s with
      | [] => Err JSONDecodeError
      | q :: r =>
          if negb (q =? 34)%N then Err JSONDecodeError
          else
            '(key, r1) <- scanstring r ;;
            match skip_ws r1 with
            | [] => Err JSONDecodeError
            | colon :: r2 =>
                if negb (colon =? 58)%N then Err JSONDecodeError
                else
                  '(v, r3) <- scan_once f (skip_ws r2) ;;
                  let acc1 := dict_set acc key v in
                  match skip_ws r3 with
                  | [] => Err JSONDecodeError
                  | c :: r4 =>
                      if (c =? 125)%N then Ok (JDict acc1, r4)
                      else if (c =? 44)%N
                      then parse_members f (skip_ws r4) acc1
                      else Err JSONDecodeError
                  end
            end
      end
  end

(** The items of an array from a value on: [acc] is the list so far. *)
with parse_items (fuel : nat) (s : str) (acc : list value)
  {struct fuel} : result (value * str) :=
  match fuel with
  | O => Err Unmodelled
  | S f =>
      '(v, r1) <- scan_once f s ;;
      let acc1 := acc ++ [v] in
      match skip_ws r1 with
      | [] => Err JSONDecodeError
      | c :: r2 =>
          if (c =? 93)%N then Ok (JList acc1, r2)
          else if (c =? 44)%N then parse_items f (skip_ws r2) acc1
          else Err JSONDecodeError
      end
  end.

(** [json.loads(s)]: one value, white space around it, nothing else. *)
Definition loads (s : str) : result value :=
  '(v, r) <- scan_once (S (2 * length s)) (skip_ws s) ;;
  match skip_ws r with
  | [] => Ok v
  | _ :: _ => Err JSONDecodeError
  end.

End Json.

(* ------------------------------------------------------------------ *)
(** ** Text-mode files *)

Module Fs.

(** A file system: the text of each regular file, by path.  Text is
    written and read back as UTF-8, which keeps it as it is; the platform
    ends a line with ["\n"]; failures of the device are not part of the
    model. *)
Definition path : Type := str.
Definition fs : Type := path -> option str.

(** [open(p, "w")], the writes, and the close: [p] now holds [content]. *)
Definition write_text (f : fs) (p : path) (content : str) : fs :=
  fun q => if Str.eqb q p then Some content else f q.

(** [open(p, "r")] and reading to the end. *)
Definition read_text (f : fs) (p : path) : result str :=
  match f p with
  | Some content => Ok content
  | None => Err FileNotFoundError
  end.

(** The lines a text-mode file iterates over: a line ends at ["\n"],
    ["\r\n"] or ["\r"], each handed over as ["\n"]; the last line may have
    no end.  [cur] is the line being read. *)
Fixpoint iter_lines (s : str) (cur : str) : list str :=
  match s with
  | [] => match cur with [] => [] | _ :: _ => [cur] end
  | c :: r =>
      if (c =? NL)%N then (cur ++ [NL]) :: iter_lines r []
      else if (c =? CR)%N then
        match r with
        | c1 :: r1 =>
            if (c1 =? NL)%N then (cur ++ [NL]) :: iter_lines r1 []
            else (cur ++ [NL]) :: iter_lines r []
        | [] => (cur ++ [NL]) :: iter_lines r []
        end
      else iter_lines r (cur ++ [c])
  end.

End Fs.

(* ------------------------------------------------------------------ *)
(** ** json_stream.py *)

Import Json Fs.

Section Stream.
Context {F : DatetimeFormat}.

Definition dump_optional {A : Type} (f : A -> value) (o : option A) : value :=
  match o with
  | Some a => f a
  | None => JNull
  end.

Definition dump_datetime (d : datetime) : value := JStr (isoformat d).

(** [record.model_dump(mode="json")]: the fields in their declared order,
    an enum as its value, a [datetime] as ISO-8601 text, [None] as null. *)
Definition model_dump (record : FlightRecord) : list (str * value) :=
  [ (lit "flight_id", JStr (flight_id record));
    (lit "flight_type", JStr (FlightType_value (flight_type record)));
    (lit "airline", JStr (airline record));
    (lit "airline_code", JStr (airline_code record));
    (lit "flight_number", JInt (flight_number record));
    (lit "origin_airport", JStr (origin_airport record));
    (lit "destination_airport", JStr (destination_airport record));
    (lit "scheduled_time", dump_datetime (scheduled_time record));
    (lit "estimated_time", dump_optional dump_datetime (estimated_time record));
    (lit "actual_time", dump_optional dump_datetime (actual_time record));
    (lit "status", JStr (FlightStatus_value (status record)));
    (lit "gate", dump_optional JStr (gate record));
    (lit "terminal", dump_optional JStr (terminal record));
    (lit "aircraft_type", dump_optional JStr (aircraft_type record));
    (lit "delay_minutes", JInt (delay_minutes record)) ].

(** [record.model_dump_json()]. *)
Definition model_dump_json (record : FlightRecord) : str :=
  dump (JDict (model_dump record)).

(** Serialize a single FlightRecord to a JSON string (no trailing
    newline). *)
Definition record_to_json_line (record : FlightRecord) : str :=
  model_dump_json record.

(** Serialize an iterable of FlightRecords to an NDJSON string. *)
Definition records_to_ndjson (records : list FlightRecord) : str :=
  let lines := map record_to_json_line records in
  match lines with
  | [] => []
  | _ :: _ => join [NL] lines ++ [NL]
  end.

(** The loop of [stream_to_file]: [written] is what the file holds so
    far. *)
Fixpoint write_records (records : list FlightRecord) (written : str)
  (count : Z) : str * Z :=
  match records with
  | [] => (written, count)
  | rec :: rest =>
      write_records rest
        ((written ++ record_to_json_line rec) ++ [NL]) (count + 1)
  end.

(** Write records as NDJSON to [path]; returns the number of records
    written.  (Creating the parent directories leaves no trace in [fs].) *)
Definition stream_to_file (records : list FlightRecord) (path : path)
  (f : fs) : Z * fs :=
  let '(written, count) := write_records records [] 0 in
  (count, write_text f path written).

(** The loop of [read_ndjson_file] over the lines of the file. *)
Fixpoint read_lines (lines : list str) (records : list value)
  : result (list value) :=
  match lines with
  | [] => Ok records
  | line :: rest =>
      let line := strip line in
      match line with
      | [] => read_lines rest records
      | _ :: _ =>
          d <- loads line ;;
          read_lines rest (records ++ [d])
      end
  end.

(** Read an NDJSON file back into a list of dicts. *)
Definition read_ndjson_file (path : path) (f : fs) : result (list value) :=
  content <- read_text f path ;;
  read_lines (iter_lines content []) [].

(** The loop of [count_lines] over the lines of the file. *)
Fixpoint count_nonempty (lines : list str) (count : Z) : Z :=
  match lines with
  | [] => count
  | line :: rest =>
      match strip line with
      | [] => count_nonempty rest count
      | _ :: _ => count_nonempty rest (count + 1)
      end
  end.

(** Count non-empty lines in an NDJSON file. *)
Definition count_lines (path : path) (f : fs) : result Z :=
  content <- read_text f path ;;
  Ok (count_nonempty (iter_lines content []) 0).

End Stream.

(* ------------------------------------------------------------------ *)
(** ** Enum members by value (models.py) *)

(** [list(FlightStatus)] and [list(FlightType)]: the members in the order
    of their definition. *)
Definition FlightStatus_members : list FlightStatus :=
  [SCHEDULED; BOARDING; DEPARTED; IN_AIR; LANDED; ARRIVED; DELAYED;
   CANCELLED; DIVERTED].

Definition FlightType_members : list FlightType := [ARRIVAL; DEPARTURE].

(** [FlightStatus(value)]: the member with that value, [ValueError] when
    there is none. *)
Definition FlightStatus_of_value (v : str) : result FlightStatus :=
  match find (fun m => Str.eqb (FlightStatus_value m) v) FlightStatus_members
  with
  | Some m => Ok m
  | None => Err ValueError
  end.

(** [FlightType(value)]. *)
Definition FlightType_of_value (v : str) : result FlightType :=
  match find (fun m => Str.eqb (FlightType_value m) v) FlightType_members with
  | Some m => Ok m
  | None => Err ValueError
  end.

(* ------------------------------------------------------------------ *)
(** ** Bytes: UTF-8 and [io.BytesIO] *)

Module Utf8.

Definition byte : Type := N.

(** [c.encode("utf-8")] for one code point (up to U+10FFFF): one to four
    bytes; a surrogate cannot be encoded ([UnicodeEncodeError], a
    [ValueError]). *)
Definition encode_char (c : char) : result (list byte) :=
  (if c <? 128 then Ok [c]
   else if c <? 2048 then Ok [192 + c / 64; 128 + c mod 64]
   else if (55296 <=? c) && (c <=? 57343) then Err ValueError
   else if c <? 65536
        then Ok [224 + c / 4096; 128 + (c / 64) mod 64; 128 + c mod 64]
        else Ok [240 + c / 262144; 128 + (c / 4096) mod 64;
                 128 + (c / 64) mod 64; 128 + c mod 64])%N.

(** [s.encode("utf-8")]. *)
Fixpoint encode (s : str) : result (list byte) :=
  match s with
  | [] => Ok []
  | c :: r =>
      b <- encode_char c ;;
      bs <- encode r ;;
      Ok (b ++ bs)
  end.

End Utf8.

Module BytesIO.

(** An in-memory binary stream: its bytes and the position of its
    cursor. *)
Record t : Type := mk {
  getvalue : list Utf8.byte;
  tell : nat
}.

(** [io.BytesIO()]. *)
Definition new : t := mk [] 0.

(** [buf.write(b)]: the bytes go in at the cursor, over what is there and
    past the end (after zeros when the cursor is beyond the end), and the
    cursor moves behind them. *)
Definition write (buf : t) (b : list Utf8.byte) : t :=
  let data := getvalue buf in
  let pos := tell buf in
  mk (firstn pos data ++ repeat 0%N (pos - length data) ++ b
      ++ skipn (pos + length b) data)
     (pos + length b).

(** [buf.seek(pos)]. *)
Definition seek (buf : t) (pos : nat) : t := mk (getvalue buf) pos.

(** [buf.read()]: the bytes from the cursor to the end; the cursor moves
    to the end. *)
Definition read (buf : t) : list Utf8.byte * t :=
  (skipn (tell buf) (getvalue buf),
   mk (getvalue buf) (Nat.max (tell buf) (length (getvalue buf)))).

End BytesIO.

Section StreamBuffer.
Context {F : DatetimeFormat}.

(** The loop of [stream_to_buffer]. *)
Fixpoint buffer_records (records : list FlightRecord) (buf : BytesIO.t)
  : result BytesIO.t :=
  match records with
  | [] => Ok buf
  | rec :: rest =>
      let line := record_to_json_line rec ++ [NL] in
      b <- Utf8.encode line ;;
      buffer_records rest (BytesIO.write buf b)
  end.

(** Write records as NDJSON into an in-memory BytesIO buffer, rewound to
    position 0 before returning. *)
Definition stream_to_buffer (records : list FlightRecord)
  : result BytesIO.t :=
  buf <- buffer_records records BytesIO.new ;;
  Ok (BytesIO.seek buf 0).

End StreamBuffer.

(* ------------------------------------------------------------------ *)
(** ** The filter of the dashboard (dashboard.py) *)

(** [", ".join(["?" for _ in values])]. *)
Definition placeholders (values : list str) : str :=
  join (lit ", ") (map (fun _ => lit "?") values).

(** The dynamic WHERE clause and its parameters, from the values of the
    airline and route selections. *)
Definition build_where (airline_values route_values : list str)
  : str * list str :=
  let clauses := [] in
  let params := [] in
  let '(clauses, params) :=
    match airline_values with
    | [] => (clauses, params)
    | _ :: _ =>
        (clauses ++ [lit "airline IN (" ++ placeholders airline_values
                     ++ lit ")"],
         params ++ airline_values)
    end in
  let '(clauses, params) :=
    match route_values with
    | [] => (clauses, params)
    | _ :: _ =>
        (clauses ++ [lit "route IN (" ++ placeholders route_values
                     ++ lit ")"],
         params ++ route_values)
    end in
  let where_ :=
    match clauses with
    | [] => []
    | _ :: _ => lit "WHERE " ++ join (lit " AND ") clauses
    end in
  (where_, params).

(* ------------------------------------------------------------------ *)
(** ** iceberg_catalog.py *)

Module Iceberg.

Inductive IcebergType : Type := StringType | LongType.

Record NestedField : Type := mk_field {
  field_id : Z;
  name : str;
  field_type : IcebergType;
  required : bool
}.

(** Iceberg schema matching FlightRecord. *)
Definition FLIGHT_ICEBERG_SCHEMA : list NestedField :=
  [ mk_field 1 (lit "flight_id") StringType false;
    mk_field 2 (lit "flight_type") StringType false;
    mk_field 3 (lit "airline") StringType false;
    mk_field 4 (lit "airline_code") StringType false;
    mk_field 5 (lit "flight_number") LongType false;
    mk_field 6 (lit "origin_airport") StringType false;
    mk_field 7 (lit "destination_airport") StringType false;
    mk_field 8 (lit "scheduled_time") StringType false;
    mk_field 9 (lit "estimated_time") StringType false;
    mk_field 10 (lit "actual_time") StringType false;
    mk_field 11 (lit "status") StringType false;
    mk_field 12 (lit "gate") StringType false;
    mk_field 13 (lit "terminal") StringType false;
    mk_field 14 (lit "aircraft_type") StringType false;
    mk_field 15 (lit "delay_minutes") LongType false ].

End Iceberg.

Module Arrow.

(** The types of Arrow columns the catalog tells apart, and any other
    type by its name. *)
Inductive DataType : Type :=
| null
| int32
| int64
| string
| large_string
| other (n : str).

Definition DataType_eqb (a b : DataType) : bool :=
  match a, b with
  | null, null | int32, int32 | int64, int64 | string, string
  | large_string, large_string => true
  | other m, other n => Str.eqb m n
  | _, _ => false
  end.

(** A [dict] with [str] keys, in insertion order. *)
Fixpoint setitem {V : Type} (d : list (str * V)) (k : str) (v : V)
  : list (str * V) :=
  match d with
  | [] => [(k, v)]
  | (k', v') :: r =>
      if Str.eqb k' k then (k', v) :: r else (k', v') :: setitem r k v
  end.

Fixpoint lookup {V : Type} (d : list (str * V)) (k : str) : option V :=
  match d with
  | [] => None
  | (k', v') :: r => if Str.eqb k' k then Some v' else lookup r k
  end.

End Arrow.

(** The values of Arrow columns and their casts: [cast from to cells] is
    what [col.cast(to)] makes of the cells of a column of type [from]; it
    fails ([ArrowInvalid], [ArrowNotImplementedError]) where Arrow has no
    conversion, and keeps the number of cells. *)
Class ArrowArrays : Type := {
  cell : Type;
  cast : Arrow.DataType -> Arrow.DataType -> list (option cell)
         -> result (list (option cell));
  cast_length :
    forall from to cells cells',
      cast from to cells = Ok cells' -> length cells' = length cells
}.

Section Coerce.
Context {A : ArrowArrays}.
Import Iceberg Arrow.

(** A column: its type and its cells, [None] for a null. *)
Record Column : Type := mk_column {
  type : DataType;
  cells : list (option cell)
}.

(** A table: its fields by name, each with its column, in order; the
    columns of a table have one length. *)
Definition Table : Type := list (str * Column).

(** A target-type lookup from the Iceberg schema. *)
Definition _ICEBERG_TYPE_MAP : list (str * DataType) :=
  fold_left
    (fun m f =>
       match field_type f with
       | LongType => setitem m (name f) int64
       | StringType => setitem m (name f) string
       end)
    FLIGHT_ICEBERG_SCHEMA [].

(** One turn of the loop of [_coerce_arrow_schema]. *)
Definition coerce_column (field_name : str) (col : Column) : result Column :=
  match lookup _ICEBERG_TYPE_MAP field_name with
  | Some target_type =>
      if negb (DataType_eqb (type col) target_type) then
        if DataType_eqb (type col) null
        then Ok (mk_column target_type (repeat None (length (cells col))))
        else
          cs <- cast (type col) target_type (cells col) ;;
          Ok (mk_column target_type cs)
      else Ok col
  | None => Ok col
  end.

Fixpoint coerce_columns (fields : Table) : result Table :=
  match fields with
  | [] => Ok []
  | (field_name, col) :: rest =>
      c <- coerce_column field_name col ;;
      r <- coerce_columns rest ;;
      Ok ((field_name, c) :: r)
  end.

(** Coerce an Arrow table's schema to match the Iceberg schema
    expectations; the table is built from a dict of the columns by name. *)
Definition _coerce_arrow_schema (arrow_table : Table) : result Table :=
  cols <- coerce_columns arrow_table ;;
  Ok (fold_left (fun d fc => setitem d (fst fc) (snd fc)) cols []).

End Coerce.

(* ------------------------------------------------------------------ *)
(** ** launcher.py *)

Module Launcher.

(** What [subprocess.run] comes to: the process ran to its end, the
    program was not found, or the time ran out. *)
Inductive completed : Type :=
| Completed (returncode : Z) (stdout : str)
| NotFound
| TimeoutExpired.

(** What [_find_system_python] comes to: it returns a command line, or,
    its message printed and the prompt answered, the launcher exits. *)
Inductive outcome : Type :=
| Returned (python : str)
| Exit (code : Z).

Section FindPython.
  (** The processes of the machine and its environment. *)
Variable run : list str -> completed.
Variable environ : str -> option str.

Definition probe : list str :=
  [lit "-c"; lit "import marimo; print(marimo.__version__)"].

Definition candidates : list (list str) :=
  let candidates := [[lit "py"; lit "-3"]; [lit "python"]; [lit "python3"]] in
  match environ (lit "FLIGHT_OTP_PYTHON") with
  | Some (c :: build_python) => [c :: build_python] :: candidates
  | _ => candidates
  end.

Fixpoint first_with_marimo (cmds : list (list str)) : outcome :=
  match cmds with
  | [] => Exit 1
  | cmd :: rest =>
      match run (cmd ++ probe) with
      | Completed 0 _ => Returned (join (lit " ") cmd)
      | _ => first_with_marimo rest
      end
  end.

(** Locate a Python interpreter that has marimo installed. *)
Definition _find_system_python : outcome := first_with_marimo candidates.

End FindPython.

End Launcher.

(* ------------------------------------------------------------------ *)
(** ** The Mersenne Twister as a [Random] stream *)

Lemma u32_nonneg (x : Z) : 0 <= MT19937.u32 x.
Proof. unfold MT19937.u32. apply Z.land_nonneg. right. lia. Qed.

Lemma genrand_uint32_nonneg (s : MT19937.state) :
  0 <= fst (MT19937.genrand_uint32 s).
Proof.
  lazy beta iota zeta delta [fst MT19937.genrand_uint32]. apply u32_nonneg.
Qed.

#[local] Opaque MT19937.genrand_uint32.

Lemma getrandbits_words_nonneg (w : nat) :
  forall k shift s, 0 <= fst (MT19937.getrandbits_words w k shift s).
Proof.
  induction w as [|w IH]; intros k shift s; simpl.
  - lia.
  - pose proof (genrand_uint32_nonneg s) as Hr.
    destruct (MT19937.genrand_uint32 s) as [r s1]. simpl in Hr.
    specialize (IH (k - 32) (shift + 32) s1).
    destruct (MT19937.getrandbits_words w (k - 32) (shift + 32) s1) as [hi s2].
    simpl in *. apply Z.lor_nonneg. split; [|exact IH].
    apply Z.shiftl_nonneg.
    destruct (k <? 32); [apply Z.shiftr_nonneg|]; exact Hr.
Qed.

Lemma getrandbits_nonneg (k : Z) (s : MT19937.state) :
  0 <= fst (MT19937.getrandbits k s).
Proof.
  unfold MT19937.getrandbits.
  destruct (k <=? 0); [simpl; lia|].
  destruct (k <=? 32).
  - pose proof (genrand_uint32_nonneg s) as Hr.
    destruct (MT19937.genrand_uint32 s) as [r s1]. simpl in *.
    apply Z.shiftr_nonneg. exact Hr.
  - apply getrandbits_words_nonneg.
Qed.

#[local] Opaque MT19937.getrandbits.

Lemma randbelow_loop_range (rounds : nat) :
  forall n k s, 0 < n -> 0 <= fst (MT19937.randbelow_loop rounds n k s) < n.
Proof.
  induction rounds as [|rounds IH]; intros n k s Hn; simpl;
    pose proof (getrandbits_nonneg k s) as Hr;
    destruct (MT19937.getrandbits k s) as [r s1]; simpl in Hr;
    destruct (Z.ltb_spec r n); simpl; try lia.
  - apply Z.mod_pos_bound. exact Hn.
  - apply IH. exact Hn.
Qed.

#[local] Transparent MT19937.genrand_uint32 MT19937.getrandbits.

(** [random.Random], as CPython implements it. *)
#[export] Instance MersenneTwister : Random := {|
  rng_state := MT19937.state;
  rng_seed := MT19937.seed_int;
  randbelow := MT19937.randbelow_mt;
  random := MT19937.random_mt;
  randbelow_range := fun n s H => randbelow_loop_range MT19937.REDRAWS n _ s H
|}.


(* ------------------------------------------------------------------ *)
(** ** A concrete runtime: case table and ISO-8601 rendering *)

(** [str.upper] on Latin-1: the table of the Unicode database up to
    U+00FF; code points beyond are left as they are. *)
Definition latin1_upper (c : char) : str :=
  (if c =? 181 then [924]
   else if c =? 223 then [83; 83]
   else if c =? 255 then [376]
   else if (224 <=? c) && (c <=? 254) && negb (c =? 247) then [c - 32]
   else [c])%N.

#[export] Instance Latin1 : UnicodeData := {| unicode_upper := latin1_upper |}.

Module Iso8601.

Definition DI400Y : Z := 146097.
Definition DI100Y : Z := 36524.
Definition DI4Y : Z := 1461.

Definition DAYS_IN_MONTH : list Z :=
  [-1; 31; 28; 31; 30; 31; 30; 31; 31; 30; 31; 30; 31].

Definition DAYS_BEFORE_MONTH : list Z :=
  [-1; 0; 31; 59; 90; 120; 151; 181; 212; 243; 273; 304; 334].

Definition b2z (b : bool) : Z := if b then 1 else 0.

(** [datetime._ord2ymd(n)]: ordinal to (year, month, day). *)
Definition ord2ymd (n : Z) : Z * Z * Z :=
  let n := n - 1 in
  let n400 := n / DI400Y in
  let n := n mod DI400Y in
  let year := n400 * 400 + 1 in
  let n100 := n / DI100Y in
  let n := n mod DI100Y in
  let n4 := n / DI4Y in
  let n := n mod DI4Y in
  let n1 := n / 365 in
  let n := n mod 365 in
  let year := year + n100 * 100 + n4 * 4 + n1 in
  if (n1 =? 4) || (n100 =? 4) then (year - 1, 12, 31)
  else
    let leapyear := (n1 =? 3) && (negb (n4 =? 24) || (n100 =? 3)) in
    let month := Z.shiftr (n + 50) 5 in
    let preceding :=
      nth (Z.to_nat month) DAYS_BEFORE_MONTH 0
      + b2z ((2 <? month) && leapyear) in
    if n <? preceding then
      let month := month - 1 in
      let preceding :=
        preceding - (nth (Z.to_nat month) DAYS_IN_MONTH 0
                     + b2z ((month =? 2) && leapyear)) in
      (year, month, n - preceding + 1)
    else (year, month, n - preceding + 1).

(** [i] in decimal, left-padded with zeros to [width] digits. *)
Definition zfill (width : nat) (i : Z) : str :=
  let d := str_of_int i in
  repeat 48%N (width - length d) ++ d.

Definition render_offset (off : Z) : str :=
  if off =? 0 then lit "Z"
  else
    let a := Z.abs off in
    (if off <? 0 then lit "-" else lit "+")
    ++ zfill 2 (a / 60) ++ lit ":" ++ zfill 2 (a mod 60).

(** The text of a [datetime]: date, [T], time, the microseconds when they
    are not zero, and the offset of an aware value ([Z] for UTC). *)
Definition render (d : datetime) : str :=
  let days := ticks d / US_PER_DAY in
  let us := ticks d mod US_PER_DAY in
  let '(y, m, dd) := ord2ymd (days + 1) in
  let secs := us / 1000000 in
  let micro := us mod 1000000 in
  zfill 4 y ++ lit "-" ++ zfill 2 m ++ lit "-" ++ zfill 2 dd ++ lit "T"
  ++ zfill 2 (secs / 3600) ++ lit ":" ++ zfill 2 (secs / 60 mod 60)
  ++ lit ":" ++ zfill 2 (secs mod 60)
  ++ (if micro =? 0 then [] else lit "." ++ zfill 6 micro)
  ++ match tzinfo d with
     | None => []
     | Some off => render_offset off
     end.

End Iso8601.

#[export] Instance Iso : DatetimeFormat := {| isoformat := Iso8601.render |}.

(** [datetime(2026, 6, 15, 12, 0, 0, tzinfo=timezone.utc)], the anchor of
    the test fixtures: ordinal 739782, noon. *)
Definition fixture_base_time : datetime :=
  mk_datetime ((739782 - 1) * US_PER_DAY + 720 * US_PER_MINUTE) (Some 0).

(** The generator of the test fixtures: seed 42 at [fixture_base_time],
    on CPython's stream and the Latin-1 case table. *)
Definition fixture_generator : FlightDataGenerator (R := MersenneTwister) :=
  __init__ (R := MersenneTwister) 42 (Some fixture_base_time) datetime_min.

(* ------------------------------------------------------------------ *)
(** * Properties *)

(* ------------------------------------------------------------------ *)
(** ** Sequences and draws *)

Lemma str_eqb_eq (a b : str) : Str.eqb a b = true <-> a = b.
Proof.
  unfold Str.eqb; destruct (list_eq_dec N.eq_dec a b); split; congruence.
Qed.

Lemma getitem_ok {A : Type} (seq : list A) (i : Z) :
  0 <= i < zlen seq -> exists x, getitem seq i = Ok x /\ In x seq.
Proof.
  intros [H0 H1]. unfold getitem, zlen in *.
  destruct (Z.ltb_spec i 0); [lia|].
  destruct (nth_error seq (Z.to_nat i)) as [x|] eqn:E.
  - exists x. split; [reflexivity|]. eapply nth_error_In; eauto.
  - apply nth_error_None in E. lia.
Qed.

Lemma getitem_In {A : Type} (seq : list A) (i : Z) (x : A) :
  getitem seq i = Ok x -> In x seq.
Proof.
  unfold getitem. destruct (i <? 0); [discriminate|].
  destruct (nth_error seq (Z.to_nat i)) eqn:E; [|discriminate].
  intros [= <-]. eapply nth_error_In; eauto.
Qed.

Section Draws.
Context {R : Random}.

Lemma bindR_ok {A B : Type} (m : Rand A) (k : A -> Rand B) s a s1 :
  m s = Ok (a, s1) -> bindR m k s = k a s1.
Proof. intros E. unfold bindR. rewrite E. reflexivity. Qed.

Lemma bindR_inv {A B : Type} (m : Rand A) (k : A -> Rand B) s b s2 :
  bindR m k s = Ok (b, s2) ->
  exists a s1, m s = Ok (a, s1) /\ k a s1 = Ok (b, s2).
Proof.
  unfold bindR. destruct (m s) as [[a s1]|e]; [|discriminate].
  intros H. exists a, s1. auto.
Qed.

Lemma lift_ok {A : Type} (m : result A) (a : A) s :
  m = Ok a -> lift m s = Ok (a, s).
Proof. intros ->. reflexivity. Qed.

Lemma choice_spec {A : Type} (seq : list A) s :
  seq <> [] -> exists x s1, choice seq s = Ok (x, s1) /\ In x seq.
Proof.
  intros Hne. destruct seq as [|a0 seq0]; [congruence|].
  set (seq := a0 :: seq0) in *.
  assert (Hlen : 0 < zlen seq) by (unfold zlen, seq; simpl; lia).
  pose proof (randbelow_range (zlen seq) s Hlen) as Hr.
  destruct (randbelow (zlen seq) s) as [i s1] eqn:E. simpl in Hr.
  destruct (getitem_ok seq i Hr) as (x & Hx & Hin).
  exists x, s1. split; [|exact Hin].
  unfold choice, seq at 1.
  erewrite bindR_ok by (unfold draw_below; rewrite E; reflexivity).
  apply lift_ok. exact Hx.
Qed.

Lemma randint_spec (a b : Z) s :
  a <= b -> exists v s1, randint a b s = Ok (v, s1) /\ a <= v <= b.
Proof.
  intros Hab. unfold randint, randrange.
  destruct (Z.ltb_spec 0 (b + 1 - a)); [|lia].
  pose proof (randbelow_range (b + 1 - a) s H) as Hr.
  destruct (randbelow (b + 1 - a) s) as [r s1] eqn:E. simpl in Hr.
  exists (a + r), s1. split; [|lia].
  erewrite bindR_ok by (unfold draw_below; rewrite E; reflexivity).
  reflexivity.
Qed.

Lemma bisect_loop_range (fuel : nat) :
  forall a x lo hi, lo <= hi -> lo <= bisect_loop fuel a x lo hi <= hi.
Proof.
  induction fuel as [|f IH]; intros a x lo hi Hle; simpl; [lia|].
  destruct (Z.ltb_spec lo hi); [|lia].
  assert (lo <= (lo + hi) / 2 < hi).
  { split; [apply Z.div_le_lower_bound | apply Z.div_lt_upper_bound]; lia. }
  destruct (PrimFloat.ltb x _).
  - specialize (IH a x lo ((lo + hi) / 2)). lia.
  - specialize (IH a x ((lo + hi) / 2 + 1) hi). lia.
Qed.

Lemma choices_spec {A : Type} (population : list A) (weights : list float) s :
  zlen (accumulate weights) = zlen population ->
  population <> [] ->
  (forall last, getitem (accumulate weights) (zlen (accumulate weights) - 1)
                = Ok last ->
     PrimFloat.leb (PrimFloat.add last PrimFloat.zero) PrimFloat.zero = false
     /\ isfinite (PrimFloat.add last PrimFloat.zero) = true) ->
  exists x s1, choices population weights s = Ok ([x], s1) /\ In x population.
Proof.
  intros Hlen Hne Htot. unfold choices. cbv zeta.
  rewrite Hlen, Z.eqb_refl. cbn [negb].
  assert (Hpos : 0 < zlen population).
  { destruct population; [congruence|]. unfold zlen. simpl. lia. }
  destruct (getitem_ok (accumulate weights) (zlen population - 1))
    as (last & Hlast & _); [lia|].
  erewrite bindR_ok by (apply lift_ok; exact Hlast).
  rewrite <- Hlen in Hlast. destruct (Htot last Hlast) as [H1 H2].
  rewrite H1, H2. cbn [negb].
  destruct (random s) as [u s1] eqn:E.
  erewrite bindR_ok by (unfold draw_random; rewrite E; reflexivity).
  pose proof (bisect_loop_range (Z.to_nat (zlen population - 1 - 0))
                (accumulate weights)
                (PrimFloat.mul u (PrimFloat.add last PrimFloat.zero))
                0 (zlen population - 1)) as Hb.
  fold (bisect (accumulate weights)
          (PrimFloat.mul u (PrimFloat.add last PrimFloat.zero))
          0 (zlen population - 1)) in Hb.
  destruct (getitem_ok population
              (bisect (accumulate weights)
                 (PrimFloat.mul u (PrimFloat.add last PrimFloat.zero))
                 0 (zlen population - 1))) as (x & Hx & Hin); [lia|].
  exists x, s1. split; [|exact Hin].
  erewrite bindR_ok by (apply lift_ok; exact Hx). reflexivity.
Qed.

End Draws.

(* ------------------------------------------------------------------ *)
(** ** Sampling two airports *)

Definition zrange (n : nat) : list Z := map Z.of_nat (seq 0 n).

Lemma zrange_In (n : nat) (j : Z) : 0 <= j < Z.of_nat n -> In j (zrange n).
Proof.
  intros H. unfold zrange. apply in_map_iff. exists (Z.to_nat j).
  split; [lia|]. apply in_seq. lia.
Qed.

(** The two picks of the pool loop on [AIRPORTS] for the indices [j1] and
    [j2], checked to be two different members of the pool. *)
Definition pick2_ok (j1 j2 : Z) : bool :=
  match getitem AIRPORTS j1, getitem AIRPORTS 19 with
  | Ok o, Ok l =>
      let pool := setitem AIRPORTS (Z.to_nat j1) l in
      match getitem pool j2, getitem pool 18 with
      | Ok d, Ok _ =>
          negb (Str.eqb o d)
          && existsb (Str.eqb o) AIRPORTS && existsb (Str.eqb d) AIRPORTS
      | _, _ => false
      end
  | _, _ => false
  end.

Lemma pick2_all :
  forallb (fun j1 => forallb (pick2_ok j1) (zrange 19)) (zrange 20) = true.
Proof. vm_compute. reflexivity. Qed.

Lemma existsb_str_In (x : str) (l : list str) :
  existsb (Str.eqb x) l = true -> In x l.
Proof.
  intros H. apply existsb_exists in H. destruct H as (y & Hy & E).
  apply str_eqb_eq in E. subst. exact Hy.
Qed.

Lemma pick2_spec (j1 j2 : Z) :
  0 <= j1 < 20 -> 0 <= j2 < 19 ->
  exists o l d l',
    getitem AIRPORTS j1 = Ok o /\ getitem AIRPORTS 19 = Ok l
    /\ getitem (setitem AIRPORTS (Z.to_nat j1) l) j2 = Ok d
    /\ getitem (setitem AIRPORTS (Z.to_nat j1) l) 18 = Ok l'
    /\ o <> d /\ In o AIRPORTS /\ In d AIRPORTS.
Proof.
  intros H1 H2. pose proof pick2_all as Hall.
  rewrite forallb_forall in Hall.
  specialize (Hall j1 (zrange_In 20 j1 H1)).
  rewrite forallb_forall in Hall.
  specialize (Hall j2 (zrange_In 19 j2 H2)).
  unfold pick2_ok in Hall.
  destruct (getitem AIRPORTS j1) as [o|] eqn:E1; [|discriminate].
  destruct (getitem AIRPORTS 19) as [l|] eqn:E2; [|discriminate].
  cbv zeta in Hall.
  destruct (getitem (setitem AIRPORTS (Z.to_nat j1) l) j2) as [d|] eqn:E3;
    [|discriminate].
  destruct (getitem (setitem AIRPORTS (Z.to_nat j1) l) 18) as [l'|] eqn:E4;
    [|discriminate].
  apply andb_prop in Hall. destruct Hall as [Hall Hd].
  apply andb_prop in Hall. destruct Hall as [Hne Ho].
  exists o, l, d, l'.
  do 4 (split; [assumption || reflexivity|]).
  split; [|split; apply existsb_str_In; assumption].
  intros ->. apply negb_true_iff in Hne.
  assert (Str.eqb d d = true) by (apply str_eqb_eq; reflexivity). congruence.
Qed.

Section SampleAirports.
Context {R : Random}.

Lemma sample_airports_spec s :
  exists o d s1,
    sample AIRPORTS 2 s = Ok ([o; d], s1)
    /\ In o AIRPORTS /\ In d AIRPORTS /\ o <> d.
Proof.
  unfold sample.
  change (zlen AIRPORTS) with 20. cbv zeta.
  change (negb ((0 <=? 2) && (2 <=? 20))) with false.
  change ((2 <=? 5) && (20 <=? 21)) with true. cbv iota.
  change (Z.to_nat 2) with 2%nat.
  cbn [sample_pool].
  change (20 - 0) with 20. change (20 - 0 - 1) with 19.
  change (20 - (0 + 1)) with 19. change (20 - (0 + 1) - 1) with 18.
  pose proof (randbelow_range 20 s ltac:(lia)) as Hr1.
  destruct (randbelow 20 s) as [j1 s1] eqn:E1. simpl fst in Hr1.
  pose proof (randbelow_range 19 s1 ltac:(lia)) as Hr2.
  destruct (randbelow 19 s1) as [j2 s2] eqn:E2. simpl fst in Hr2.
  destruct (pick2_spec j1 j2 Hr1 Hr2)
    as (o & l & d & l' & Ho & Hl & Hd & Hl' & Hne & Hino & Hind).
  exists o, d, s2. split; [|auto].
  erewrite bindR_ok by (unfold draw_below; rewrite E1; reflexivity).
  erewrite bindR_ok by (apply lift_ok; exact Ho).
  erewrite bindR_ok by (apply lift_ok; exact Hl).
  erewrite bindR_ok; [reflexivity|].
  erewrite bindR_ok by (unfold draw_below; rewrite E2; reflexivity).
  erewrite bindR_ok by (apply lift_ok; exact Hd).
  erewrite bindR_ok by (apply lift_ok; exact Hl').
  reflexivity.
Qed.

End SampleAirports.

(* ------------------------------------------------------------------ *)
(** ** Schema validation *)

Section SchemaFacts.
Context {U : UnicodeData}.

Lemma FlightRecord_new_ok (kw : FlightRecord) :
  field_constraints kw = true -> FlightRecord_new kw = Ok (normalized kw).
Proof.
  unfold field_constraints, FlightRecord_new. intros H.
  destruct (check_length 2 3 (airline_code kw)); [|discriminate].
  destruct (check_range 1 9999 (flight_number kw)); [|discriminate].
  destruct (check_length 3 4 (origin_airport kw)); [|discriminate].
  destruct (check_length 3 4 (destination_airport kw)); [|discriminate].
  destruct (check_ge 0 (delay_minutes kw)); [reflexivity|discriminate].
Qed.

Lemma FlightRecord_new_err (kw : FlightRecord) :
  field_constraints kw = false -> FlightRecord_new kw = Err ValidationError.
Proof.
  unfold field_constraints, FlightRecord_new. intros H.
  destruct (check_length 2 3 (airline_code kw)); [|reflexivity].
  destruct (check_range 1 9999 (flight_number kw)); [|reflexivity].
  destruct (check_length 3 4 (origin_airport kw)); [|reflexivity].
  destruct (check_length 3 4 (destination_airport kw)); [|reflexivity].
  destruct (check_ge 0 (delay_minutes kw)); [discriminate|reflexivity].
Qed.

Lemma AIRLINES_codes :
  Forall (fun p => uppercase_airline_code (snd p) = snd p
                   /\ check_length 2 3 (snd p) = true) AIRLINES.
Proof. repeat constructor. Qed.

Lemma AIRPORTS_codes :
  Forall (fun a => uppercase_airport a = a /\ check_length 3 4 a = true)
         AIRPORTS.
Proof. repeat constructor. Qed.

End SchemaFacts.

(* ------------------------------------------------------------------ *)
(** ** One record *)

(** What the delay rule of [_make_record] allows for a status. *)
Definition delay_rule (st : FlightStatus) (v : Z) : Prop :=
  match st with
  | DELAYED => 15 <= v <= 300
  | ARRIVED | LANDED => In v [0; 0; 0; 5; 10; 15; 30]
  | _ => v = 0
  end.

(** The record [_make_record] builds from a scheduled time, a status, a
    delay and an estimate. *)
Definition made (sched : datetime) (st : FlightStatus) (delay : Z)
  (est : option datetime) (r : FlightRecord) : Prop :=
  In (airline r, airline_code r) AIRLINES
  /\ 100 <= flight_number r <= 9999
  /\ flight_id r = airline_code r ++ lit "-" ++ str_of_int (flight_number r)
  /\ In (origin_airport r) AIRPORTS
  /\ In (destination_airport r) AIRPORTS
  /\ origin_airport r <> destination_airport r
  /\ scheduled_time r = sched
  /\ status r = st
  /\ delay_minutes r = delay
  /\ estimated_time r = est
  /\ actual_time r =
       (if status_in st [ARRIVED; LANDED; DEPARTED]
        then Some (match est with Some e => e | None => sched end)
        else None).

Lemma delay_rule_nonneg st v : delay_rule st v -> 0 <= v <= 300.
Proof.
  destruct st; simpl; intros H; try lia;
    repeat (destruct H as [H|H]; [lia|]); contradiction.
Qed.

Section OneRecord.
Context {R : Random} {U : UnicodeData}.

Lemma bindR_err {A B : Type} (m : Rand A) (k : A -> Rand B) s e :
  m s = Err e -> bindR m k s = Err e.
Proof. intros E. unfold bindR. rewrite E. reflexivity. Qed.

Lemma delay_draw_spec (st : FlightStatus) s :
  exists v s1,
    (if FlightStatus_eqb st DELAYED then randint 15 300
     else if FlightStatus_eqb st CANCELLED then ret 0
     else if status_in st [ARRIVED; LANDED]
          then choice [0; 0; 0; 5; 10; 15; 30]
          else ret 0) s = Ok (v, s1)
    /\ delay_rule st v.
Proof.
  destruct st; cbn [FlightStatus_eqb status_in existsb orb delay_rule];
    try (exists 0, s; split; reflexivity).
  - destruct (choice_spec [0; 0; 0; 5; 10; 15; 30] s) as (v & s1 & E & Hin);
      [discriminate|]. exists v, s1. auto.
  - destruct (choice_spec [0; 0; 0; 5; 10; 15; 30] s) as (v & s1 & E & Hin);
      [discriminate|]. exists v, s1. auto.
  - destruct (randint_spec 15 300 s) as (v & s1 & E & Hv); [lia|].
    exists v, s1. auto.
Qed.

Lemma STATUS_WEIGHTS_choices s :
  exists st s1,
    choices (map fst STATUS_WEIGHTS) (map snd STATUS_WEIGHTS) s
    = Ok ([st], s1).
Proof.
  destruct (choices_spec (map fst STATUS_WEIGHTS) (map snd STATUS_WEIGHTS) s)
    as (st & s1 & E & _).
  - reflexivity.
  - discriminate.
  - intros last. vm_compute. intros [= <-]. split; reflexivity.
  - exists st, s1. exact E.
Qed.

(** [_make_record] draws an offset within twelve hours and fails exactly
    when the scheduled or the estimated time would leave the calendar;
    otherwise it returns a record built by the rules. *)
Lemma make_record_draws_spec (bt : datetime) s :
  exists off, -720 <= off <= 720 /\
    match add_minutes bt off with
    | Err e => make_record_draws bt s = Err e
    | Ok sched =>
        exists st delay, delay_rule st delay /\
          match (if delay =? 0 then Ok None
                 else (e <- add_minutes sched delay ;; Ok (Some e))) with
          | Err e => make_record_draws bt s = Err e
          | Ok est =>
              exists r s1, make_record_draws bt s = Ok (r, s1)
                           /\ made sched st delay est r
          end
    end.
Proof.
  unfold make_record_draws.
  destruct (choice_spec AIRLINES s) as ([name code] & s1 & E1 & Hin1);
    [discriminate|].
  rewrite (bindR_ok _ _ _ _ _ E1). cbv beta iota.
  destruct (randint_spec 100 9999 s1) as (fn & s2 & E2 & Hfn); [lia|].
  rewrite (bindR_ok _ _ _ _ _ E2).
  destruct (sample_airports_spec s2) as (o & d & s3 & E3 & Ho & Hd & Hod).
  rewrite (bindR_ok _ _ _ _ _ E3).
  rewrite (bindR_ok _ _ _ _ _ (lift_ok _ _ s3 (eq_refl : unpack2 [o; d] = Ok (o, d)))).
  cbv beta iota.
  destruct (choice_spec [ARRIVAL; DEPARTURE] s3) as (ft & s4 & E4 & _);
    [discriminate|].
  rewrite (bindR_ok _ _ _ _ _ E4).
  destruct (randint_spec (-720) 720 s4) as (off & s5 & E5 & Hoff); [lia|].
  rewrite (bindR_ok _ _ _ _ _ E5).
  exists off. split; [exact Hoff|].
  destruct (add_minutes bt off) as [sched|e] eqn:Esched;
    [|apply bindR_err; reflexivity].
  rewrite (bindR_ok _ _ _ _ _ (lift_ok _ _ s5 eq_refl)).
  destruct (STATUS_WEIGHTS_choices s5) as (st & s6 & E6).
  rewrite (bindR_ok _ _ _ _ _ E6).
  rewrite (bindR_ok _ _ _ _ _ (lift_ok _ _ s6 (eq_refl : getitem [st] 0 = Ok st))).
  destruct (delay_draw_spec st s6) as (delay & s7 & E7 & Hdelay).
  rewrite (bindR_ok _ _ _ _ _ E7).
  exists st, delay. split; [exact Hdelay|].
  destruct (if delay =? 0 then Ok None
            else (e <- add_minutes sched delay ;; Ok (Some e)))
    as [est|e] eqn:Eest; [|apply bindR_err; reflexivity].
  rewrite (bindR_ok _ _ _ _ _ (lift_ok _ _ s7 eq_refl)).
  destruct (choice_spec GATE_LETTERS s7) as (gl & s8 & E8 & _);
    [discriminate|].
  rewrite (bindR_ok _ _ _ _ _ E8).
  destruct (randint_spec 1 40 s8) as (gn & s9 & E9 & _); [lia|].
  rewrite (bindR_ok _ _ _ _ _ E9).
  destruct (choice_spec TERMINALS s9) as (term & s10 & E10 & _);
    [discriminate|].
  rewrite (bindR_ok _ _ _ _ _ E10).
  destruct (choice_spec AIRCRAFT_TYPES s10) as (ac & s11 & E11 & _);
    [discriminate|].
  rewrite (bindR_ok _ _ _ _ _ E11).
  pose proof AIRLINES_codes as HA. rewrite Forall_forall in HA.
  destruct (HA _ Hin1) as [Hup Hlen]. cbn [snd] in Hup, Hlen.
  pose proof AIRPORTS_codes as HP. rewrite Forall_forall in HP.
  destruct (HP _ Ho) as [Hupo Hleno]. destruct (HP _ Hd) as [Hupd Hlend].
  pose proof (delay_rule_nonneg _ _ Hdelay) as Hnn.
  eexists. exists s11. split.
  - apply lift_ok. apply FlightRecord_new_ok.
    unfold field_constraints, check_range, check_ge.
    cbn [airline_code flight_number origin_airport destination_airport
         delay_minutes].
    rewrite Hlen, Hleno, Hlend.
    repeat (apply andb_true_intro; split); try reflexivity;
      apply Z.leb_le; lia.
  - unfold made, normalized.
    cbn [airline airline_code flight_number flight_id origin_airport
         destination_airport scheduled_time status delay_minutes
         estimated_time actual_time].
    rewrite Hup, Hupo, Hupd. repeat split; auto; lia.
Qed.

End OneRecord.

(* ------------------------------------------------------------------ *)
(** ** Batches *)

(** A base time that leaves room for an offset of twelve hours either way
    and a delay of five hours on top. *)
Definition roomy (bt : datetime) : Prop :=
  720 * US_PER_MINUTE <= ticks bt
  /\ ticks bt + 1020 * US_PER_MINUTE < MAX_TICKS.

(** A record [_make_record] can return for the base time [bt]. *)
Definition generated (bt : datetime) (r : FlightRecord) : Prop :=
  exists off sched st delay est,
    -720 <= off <= 720
    /\ add_minutes bt off = Ok sched
    /\ delay_rule st delay
    /\ (if delay =? 0 then Ok None
        else (e <- add_minutes sched delay ;; Ok (Some e))) = Ok est
    /\ made sched st delay est r.

Lemma add_minutes_ok (d : datetime) (m : Z) :
  0 <= ticks d + m * US_PER_MINUTE < MAX_TICKS ->
  add_minutes d m = Ok (mk_datetime (ticks d + m * US_PER_MINUTE) (tzinfo d)).
Proof.
  intros [H0 H1]. unfold add_minutes.
  destruct (Z.leb_spec 0 (ticks d + m * US_PER_MINUTE)); [|lia].
  destruct (Z.ltb_spec (ticks d + m * US_PER_MINUTE) MAX_TICKS); [|lia].
  reflexivity.
Qed.

Section Batches.
Context {R : Random} {U : UnicodeData}.

Lemma make_record_inv (self : FlightDataGenerator) r self1 :
  _make_record self = Ok (r, self1) ->
  generated (base_time self) r
  /\ base_time self1 = base_time self /\ seed self1 = seed self.
Proof.
  unfold _make_record. intros H.
  destruct (make_record_draws_spec (base_time self) (rng self))
    as (off & Hoff & Hspec).
  destruct (add_minutes (base_time self) off) as [sched|e] eqn:Es.
  - destruct Hspec as (st & delay & Hrule & Hspec).
    destruct (if delay =? 0 then Ok None
              else (e <- add_minutes sched delay ;; Ok (Some e)))
      as [est|e] eqn:Ee.
    + destruct Hspec as (r0 & s1 & E & Hmade). rewrite E in H.
      simpl in H. injection H as <- <-. split; [|split; reflexivity].
      exists off, sched, st, delay, est. auto.
    + rewrite Hspec in H. discriminate.
  - rewrite Hspec in H. discriminate.
Qed.

Lemma make_record_total (self : FlightDataGenerator) :
  roomy (base_time self) -> exists r self1, _make_record self = Ok (r, self1).
Proof.
  intros [Hlo Hhi]. unfold _make_record.
  destruct (make_record_draws_spec (base_time self) (rng self))
    as (off & Hoff & Hspec).
  unfold US_PER_MINUTE in *.
  rewrite add_minutes_ok in Hspec by (unfold US_PER_MINUTE; lia).
  destruct Hspec as (st & delay & Hrule & Hspec).
  pose proof (delay_rule_nonneg _ _ Hrule) as Hd.
  destruct (Z.eqb_spec delay 0).
  - destruct Hspec as (r & s1 & E & _). rewrite E. simpl. eauto.
  - rewrite add_minutes_ok in Hspec
      by (cbn [ticks]; unfold US_PER_MINUTE; lia).
    simpl in Hspec. destruct Hspec as (r & s1 & E & _).
    rewrite E. simpl. eauto.
Qed.

Lemma stream_loop_inv (k : nat) :
  forall self rs self1,
    stream_loop k self = Ok (rs, self1) ->
    Forall (generated (base_time self)) rs
    /\ length rs = k /\ base_time self1 = base_time self.
Proof.
  induction k as [|k IH]; intros self rs self1 H; simpl in H.
  - injection H as <- <-. auto.
  - destruct (_make_record self) as [[r g1]|e] eqn:E1; [|discriminate].
    simpl in H.
    destruct (stream_loop k g1) as [[rest g2]|e] eqn:E2; [|discriminate].
    simpl in H. injection H as <- <-.
    apply make_record_inv in E1. destruct E1 as (Hr & Hbt & _).
    apply IH in E2. destruct E2 as (Hrest & Hlen & Hbt2).
    rewrite Hbt in *. repeat split; [constructor; assumption|simpl; lia|assumption].
Qed.

Lemma stream_loop_total (k : nat) :
  forall self, roomy (base_time self) ->
    exists rs self1, stream_loop k self = Ok (rs, self1).
Proof.
  induction k as [|k IH]; intros self Hroom; simpl.
  - eauto.
  - destruct (make_record_total self Hroom) as (r & g1 & E1).
    rewrite E1. simpl.
    apply make_record_inv in E1. destruct E1 as (_ & Hbt & _).
    destruct (IH g1) as (rest & g2 & E2); [rewrite Hbt; exact Hroom|].
    rewrite E2. simpl. eauto.
Qed.



End Batches.

(* ------------------------------------------------------------------ *)
(** ** Strings through the codec *)

Import Json Fs.

Lemma below_32_cases (c : N) :
  (c < 32)%N -> In c (map N.of_nat (seq 0 32)).
Proof.
  intros H. apply in_map_iff. exists (N.to_nat c). split; [lia|].
  apply in_seq. lia.
Qed.

Lemma scanstring_escape (c : char) (tail : str) :
  scanstring (escape_char c ++ tail) = emit c (scanstring tail).
Proof.
  destruct (N.ltb_spec c 32) as [Hlt|Hge].
  - apply below_32_cases in Hlt. simpl in Hlt.
    repeat (destruct Hlt as [<-|Hlt]; [reflexivity|]). contradiction.
  - unfold escape_char.
    destruct (N.eqb_spec c 34) as [->|H34]; [reflexivity|].
    destruct (N.eqb_spec c 92) as [->|H92]; [reflexivity|].
    destruct (N.eqb_spec c 8); [lia|]. destruct (N.eqb_spec c 9); [lia|].
    destruct (N.eqb_spec c 10); [lia|]. destruct (N.eqb_spec c 12); [lia|].
    destruct (N.eqb_spec c 13); [lia|].
    destruct (N.ltb_spec c 32); [lia|].
    cbn [app scanstring].
    destruct (N.eqb_spec c 34); [contradiction|].
    destruct (N.eqb_spec c 92); [contradiction|].
    destruct (N.ltb_spec c 32); [lia|]. reflexivity.
Qed.

Lemma scanstring_dump (s rest : str) :
  scanstring (flat_map escape_char s ++ 34%N :: rest) = Ok (s, rest).
Proof.
  induction s as [|c s IH]; [reflexivity|].
  cbn [flat_map]. rewrite <- app_assoc, scanstring_escape, IH. reflexivity.
Qed.

Lemma dump_str_app (s rest : str) :
  dump_str s ++ rest = 34%N :: flat_map escape_char s ++ 34%N :: rest.
Proof. unfold dump_str. cbn [app]. rewrite <- app_assoc. reflexivity. Qed.

(** No control character is written: a line cannot be broken by what a
    string holds. *)
Definition printable (s : str) : Prop := Forall (fun c => (32 <= c)%N) s.

Lemma printable_app (a b : str) :
  printable a -> printable b -> printable (a ++ b).
Proof. unfold printable. intros. apply Forall_app. auto. Qed.

Lemma escape_char_printable (c : char) : printable (escape_char c).
Proof.
  destruct (N.ltb_spec c 32) as [Hlt|Hge].
  - apply below_32_cases in Hlt. simpl in Hlt.
    repeat (destruct Hlt as [<-|Hlt];
            [repeat constructor; vm_compute; discriminate|]).
    contradiction.
  - unfold escape_char.
    repeat match goal with
           | |- context [N.eqb c ?k] => destruct (N.eqb_spec c k)
           end;
      try (repeat constructor; vm_compute; discriminate).
    destruct (N.ltb_spec c 32); [lia|]. repeat constructor. exact Hge.
Qed.

Lemma dump_str_printable (s : str) : printable (dump_str s).
Proof.
  unfold dump_str. constructor; [vm_compute; discriminate|].
  apply printable_app; [|repeat constructor; vm_compute; discriminate].
  induction s as [|c s IH]; [constructor|].
  cbn [flat_map]. apply printable_app; [apply escape_char_printable|exact IH].
Qed.

(* ------------------------------------------------------------------ *)
(** ** Integers through the codec *)

(** The value of a digit string read least significant digit first. *)
Definition val_lu (l : str) : N :=
  fold_right (fun c acc => (c - 48) + 10 * acc)%N 0%N l.

Lemma is_digit_iff (c : char) : is_digit c = true <-> (48 <= c <= 57)%N.
Proof.
  unfold is_digit. rewrite andb_true_iff, !N.leb_le. reflexivity.
Qed.

Lemma digits_lu_spec (fuel : nat) :
  forall n, (n < 2 ^ N.of_nat fuel)%N -> (0 < fuel)%nat ->
    val_lu (digits_lu fuel n) = n
    /\ Forall (fun c => is_digit c = true) (digits_lu fuel n)
    /\ digits_lu fuel n <> []
    /\ (n <> 0%N -> last (digits_lu fuel n) 0%N <> 48%N)
    /\ (n = 0%N -> digits_lu fuel n = [48%N]).
Proof.
  induction fuel as [|f IH]; intros n Hn Hf; [lia|].
  cbn [digits_lu].
  assert (Hmod : (n mod 10 < 10)%N) by (apply N.mod_lt; lia).
  assert (Hdiv : (n = 10 * (n / 10) + n mod 10)%N) by (apply N.div_mod; lia).
  rewrite Nat2N.inj_succ, N.pow_succ_r' in Hn.
  specialize (IH (n / 10)%N).
  remember (n mod 10)%N as m eqn:Em. remember (n / 10)%N as q eqn:Eq.
  remember (2 ^ N.of_nat f)%N as bound eqn:Eb.
  assert (Hd : is_digit (48 + m)%N = true) by (apply is_digit_iff; lia).
  destruct (N.eqb_spec q 0%N) as [Hz|Hnz].
  - cbn [val_lu fold_right last].
    repeat split; try (constructor; auto); try discriminate; try lia.
    intros Hn0. replace m with 0%N by lia. reflexivity.
  - assert (Hf' : (0 < f)%nat).
    { destruct f; [|lia]. simpl in Eb. lia. }
    destruct IH as (Hv & Hall & Hne & Hlast & _); [lia|exact Hf'|].
    repeat split.
    + change (val_lu (48 + m :: digits_lu f q))%N
        with ((48 + m - 48) + 10 * val_lu (digits_lu f q))%N.
      rewrite Hv. lia.
    + constructor; assumption.
    + discriminate.
    + intros _. cbn [last].
      destruct (digits_lu f q) eqn:E; [congruence|].
      apply Hlast. exact Hnz.
    + intros Hn0. lia.
Qed.

Lemma str_of_N_fuel (n : N) :
  (n < 2 ^ N.of_nat (S (N.to_nat (N.log2 n))))%N.
Proof.
  rewrite Nat2N.inj_succ, N2Nat.id.
  destruct (N.eq_dec n 0) as [->|Hn]; [reflexivity|].
  apply N.log2_spec. lia.
Qed.

Lemma int_of_digits_rev (l : str) :
  Forall (fun c => is_digit c = true) l ->
  int_of_digits (rev l) = Z.of_N (val_lu l).
Proof.
  intros Hall. unfold int_of_digits.
  rewrite <- fold_left_rev_right, rev_involutive.
  induction Hall as [|c l Hc Hall IH]; [reflexivity|].
  cbn [fold_right val_lu]. rewrite IH.
  apply is_digit_iff in Hc. fold (val_lu l). lia.
Qed.

(** The digits of [n], most significant first: a digit that is not [0]
    unless [n] is, then digits. *)
Lemma str_of_N_shape (n : N) :
  exists c tl,
    str_of_N n = c :: tl
    /\ is_digit c = true
    /\ Forall (fun c => is_digit c = true) tl
    /\ int_of_digits (c :: tl) = Z.of_N n
    /\ ((c =? 48)%N = true -> tl = []).
Proof.
  unfold str_of_N.
  destruct (digits_lu_spec (S (N.to_nat (N.log2 n))) n (str_of_N_fuel n))
    as (Hv & Hall & Hne & Hlast & Hzero); [lia|].
  remember (digits_lu (S (N.to_nat (N.log2 n))) n) as l eqn:El. clear El.
  assert (Hrev : Forall (fun c => is_digit c = true) (rev l))
    by (apply Forall_rev; exact Hall).
  pose proof (int_of_digits_rev l Hall) as Hint. rewrite Hv in Hint.
  destruct (exists_last Hne) as (front & x & Hl).
  assert (Hx : last l 0%N = x) by (rewrite Hl; apply last_last).
  rewrite Hl, rev_app_distr in Hrev, Hint |- *. cbn [rev app] in *.
  exists x, (rev front). apply Forall_cons_iff in Hrev.
  destruct Hrev as [Hcx Hfront].
  repeat split; auto.
  intros H48. apply N.eqb_eq in H48.
  destruct (N.eq_dec n 0) as [Hn|Hn].
  - specialize (Hzero Hn). rewrite Hzero in Hl.
    destruct front as [|a front]; [reflexivity|].
    destruct front; discriminate.
  - specialize (Hlast Hn). congruence.
Qed.

(** What may follow a number for it to end there. *)
Definition number_stop (rest : str) : bool :=
  match rest with
  | [] => true
  | c :: _ => negb (is_digit c) && negb (c =? 46)%N
              && negb (c =? 101)%N && negb (c =? 69)%N
  end.

Lemma span_digits_app (ds rest : str) :
  Forall (fun c => is_digit c = true) ds -> number_stop rest = true ->
  span_digits (ds ++ rest) = (ds, rest).
Proof.
  intros Hall Hstop. induction Hall as [|c ds Hc Hall IH].
  - destruct rest as [|c r]; [reflexivity|]. cbn [app span_digits].
    cbn [number_stop] in Hstop.
    destruct (is_digit c); [discriminate|reflexivity].
  - cbn [app span_digits]. rewrite Hc, IH. reflexivity.
Qed.

Lemma match_frac_stop (rest : str) :
  number_stop rest = true -> match_frac rest = ([], rest).
Proof.
  destruct rest as [|c [|d r]]; try reflexivity. cbn [number_stop match_frac].
  intros H. destruct (N.eqb_spec c 46); [|reflexivity].
  rewrite !andb_true_iff in H. destruct H as [[[_ H] _] _]. discriminate.
Qed.

Lemma match_exp_stop (rest : str) :
  number_stop rest = true -> match_exp rest = ([], rest).
Proof.
  destruct rest as [|c r]; [reflexivity|]. cbn [number_stop match_exp].
  intros H. rewrite !andb_true_iff in H. destruct H as [[[_ _] H1] H2].
  destruct (N.eqb_spec c 101); [discriminate|].
  destruct (N.eqb_spec c 69); [discriminate|]. reflexivity.
Qed.

Lemma match_number_N (n : N) (rest : str) :
  number_stop rest = true ->
  match_number (str_of_N n ++ rest) = Some (JInt (Z.of_N n), rest).
Proof.
  intros Hstop.
  destruct (str_of_N_shape n) as (c & tl & -> & Hc & Htl & Hval & Hzero).
  unfold match_number. cbn [app].
  assert (H45 : (c =? 45)%N = false).
  { apply N.eqb_neq. apply is_digit_iff in Hc. lia. }
  rewrite H45, Hc.
  destruct (c =? 48)%N eqn:E48.
  - rewrite (Hzero eq_refl) in *. cbn [app].
    rewrite match_frac_stop, match_exp_stop by assumption.
    rewrite Hval. reflexivity.
  - rewrite span_digits_app by assumption.
    rewrite match_frac_stop, match_exp_stop by assumption.
    rewrite Hval. reflexivity.
Qed.

Lemma match_number_int (i : Z) (rest : str) :
  number_stop rest = true ->
  match_number (str_of_int i ++ rest) = Some (JInt i, rest).
Proof.
  intros Hstop. destruct i as [|p|p].
  - apply (match_number_N 0 rest Hstop).
  - change (str_of_int (Z.pos p)) with (str_of_N (N.pos p)).
    apply (match_number_N (N.pos p) rest Hstop).
  - change (str_of_int (Z.neg p)) with (45%N :: str_of_N (N.pos p)).
    pose proof (match_number_N (N.pos p) rest Hstop) as H.
    destruct (str_of_N_shape (N.pos p)) as (c & tl & E & Hc & _).
    rewrite E in *. unfold match_number in *. cbn [app] in *.
    assert (H45 : (c =? 45)%N = false).
    { apply N.eqb_neq. apply is_digit_iff in Hc. lia. }
    rewrite H45 in H. rewrite N.eqb_refl. rewrite Hc in *.
    destruct (if (c =? 48)%N then ([c], tl ++ rest)
              else let '(ds, rest0) := span_digits (tl ++ rest) in
                   (c :: ds, rest0)) as [ip r0].
    destruct (match_frac r0) as [fr r1]. destruct (match_exp r1) as [ex r2].
    destruct fr; [destruct ex|]; try discriminate.
    injection H as H1 H2. rewrite H1, H2. reflexivity.
Qed.

Lemma str_of_int_head (i : Z) :
  exists c tl, str_of_int i = c :: tl /\ (is_digit c = true \/ c = 45%N).
Proof.
  destruct i as [|p|p].
  - exists 48%N, []. split; [reflexivity|left; reflexivity].
  - destruct (str_of_N_shape (N.pos p)) as (c & tl & E & Hc & _).
    exists c, tl. split; [exact E|left; exact Hc].
  - exists 45%N, (str_of_N (N.pos p)). split; [reflexivity|right; reflexivity].
Qed.

Lemma str_of_int_printable (i : Z) : printable (str_of_int i).
Proof.
  assert (HN : forall n, printable (str_of_N n)).
  { intros n. destruct (str_of_N_shape n) as (c & tl & -> & Hc & Htl & _).
    constructor; [apply is_digit_iff in Hc; lia|].
    eapply Forall_impl; [|exact Htl].
    intros a Ha. apply is_digit_iff in Ha. lia. }
  destruct i as [|p|p]; [apply (HN 0%N)|apply (HN (N.pos p))|].
  constructor; [vm_compute; discriminate|apply (HN (N.pos p))].
Qed.

(* ------------------------------------------------------------------ *)
(** ** Flat objects through the codec *)

(** The values of a dumped record: text, integers, null (and booleans). *)
Definition flat (v : value) : Prop :=
  match v with
  | JNull | JBool _ | JInt _ | JStr _ => True
  | _ => False
  end.

Definition dump_member (kv : str * value) : str :=
  match kv with (k, x) => dump_str k ++ lit ":" ++ dump x end.

Lemma dump_dict (d : list (str * value)) :
  dump (JDict d) = lit "{" ++ join (lit ",") (map dump_member d) ++ lit "}".
Proof. reflexivity. Qed.

(** What follows a member of an object: [,] or [}]. *)
Definition after_value (rest : str) : Prop :=
  exists c r, rest = c :: r /\ (c = 44%N \/ c = 125%N).

Lemma after_value_stop rest : after_value rest -> number_stop rest = true.
Proof. intros (c & r & -> & [->| ->]); reflexivity. Qed.

Lemma after_value_skip rest : after_value rest -> skip_ws rest = rest.
Proof. intros (c & r & -> & [->| ->]); reflexivity. Qed.

Lemma scan_once_number (f : nat) (c : char) (r : str) :
  is_digit c = true \/ c = 45%N ->
  scan_once (S f) (c :: r) =
  match match_number (c :: r) with
  | Some res => Ok res
  | None => scan_constant (c :: r)
  end.
Proof.
  intros Hc.
  assert (Hr : (45 <= c <= 57)%N).
  { destruct Hc as [Hc| ->]; [apply is_digit_iff in Hc|]; lia. }
  cbn [scan_once].
  change (lit "null") with [110; 117; 108; 108]%N.
  change (lit "true") with [116; 114; 117; 101]%N.
  change (lit "false") with [102; 97; 108; 115; 101]%N.
  cbn [strip_prefix].
  destruct (N.eqb_spec c 34); [lia|]. destruct (N.eqb_spec c 123); [lia|].
  destruct (N.eqb_spec c 91); [lia|]. destruct (N.eqb_spec 110 c); [lia|].
  destruct (N.eqb_spec 116 c); [lia|]. destruct (N.eqb_spec 102 c); [lia|].
  reflexivity.
Qed.

Lemma scan_once_flat (f : nat) (v : value) (rest : str) :
  flat v -> after_value rest ->
  scan_once (S f) (dump v ++ rest) = Ok (v, rest).
Proof.
  intros Hflat Hrest. destruct v as [| [|] | i | | s | |]; try contradiction.
  - reflexivity.
  - reflexivity.
  - reflexivity.
  - cbn [dump].
    destruct (str_of_int_head i) as (c & tl & E & Hc).
    pose proof (match_number_int i rest (after_value_stop _ Hrest)) as Hm.
    rewrite E in *. cbn [app] in *.
    rewrite scan_once_number by exact Hc. rewrite Hm. reflexivity.
  - cbn [dump]. rewrite dump_str_app. cbn [scan_once].
    rewrite N.eqb_refl, scanstring_dump. reflexivity.
Qed.

Lemma dump_flat_head (v : value) (rest : str) :
  flat v -> skip_ws (dump v ++ rest) = dump v ++ rest.
Proof.
  intros Hflat. destruct v as [| [|] | i | | s | |]; try contradiction;
    try reflexivity.
  cbn [dump]. destruct (str_of_int_head i) as (c & tl & -> & Hc).
  cbn [app skip_ws].
  assert (is_ws c = false).
  { unfold is_ws.
    assert ((45 <= c <= 57)%N)
      by (destruct Hc as [Hc| ->]; [apply is_digit_iff in Hc|]; lia).
    destruct (N.eqb_spec c 32); [lia|]. destruct (N.eqb_spec c 9); [lia|].
    destruct (N.eqb_spec c 10); [lia|]. destruct (N.eqb_spec c 13); [lia|].
    reflexivity. }
  rewrite H. reflexivity.
Qed.

(** The dict an object with these members reads as. *)
Definition set_all (acc : list (str * value)) (kvs : list (str * value))
  : list (str * value) :=
  fold_left (fun a kv => dict_set a (fst kv) (snd kv)) kvs acc.

Lemma parse_member (f : nat) (k : str) (v : value) (tail : str)
  (acc : list (str * value)) :
  flat v -> after_value tail -> (0 < f)%nat ->
  parse_members (S f) (dump_member (k, v) ++ tail) acc =
  match tail with
  | c :: r4 =>
      if (c =? 125)%N then Ok (JDict (dict_set acc k v), r4)
      else parse_members f (skip_ws r4) (dict_set acc k v)
  | [] => Err JSONDecodeError
  end.
Proof.
  intros Hflat Htail Hf. unfold dump_member.
  change (lit ":") with [58%N].
  rewrite <- !app_assoc. rewrite dump_str_app.
  cbn [parse_members]. rewrite N.eqb_refl. cbn [negb].
  rewrite scanstring_dump. cbn [bind app skip_ws].
  change (is_ws 58%N) with false. cbv iota.
  rewrite N.eqb_refl. cbn [negb].
  rewrite dump_flat_head by exact Hflat.
  destruct f as [|f]; [lia|].
  rewrite scan_once_flat by assumption. cbn [bind].
  rewrite after_value_skip by exact Htail.
  destruct Htail as (c & r & -> & [->| ->]); reflexivity.
Qed.

Lemma parse_members_dump (kvs : list (str * value)) :
  forall f acc rest,
    kvs <> [] -> Forall (fun kv => flat (snd kv)) kvs ->
    (length kvs <= f)%nat ->
    parse_members (S f)
      (join (lit ",") (map dump_member kvs) ++ 125%N :: rest) acc
    = Ok (JDict (set_all acc kvs), rest).
Proof.
  induction kvs as [|[k v] kvs IH]; intros f acc rest Hne Hflat Hlen;
    [congruence|].
  apply Forall_cons_iff in Hflat. destruct Hflat as [Hv Hflat].
  cbn [snd] in Hv. cbn [length] in Hlen.
  destruct kvs as [|kv2 kvs].
  - cbn [map join].
    rewrite parse_member; [|exact Hv|exists 125%N, rest; auto|lia].
    reflexivity.
  - change (join (lit ",") (map dump_member ((k, v) :: kv2 :: kvs)))
      with (dump_member (k, v) ++ lit ","
            ++ join (lit ",") (map dump_member (kv2 :: kvs))).
    rewrite <- !app_assoc. change (lit ",") with [44%N]. cbn [app].
    rewrite parse_member;
      [|exact Hv|eexists 44%N, _; split; [reflexivity|auto]|lia].
    change (44 =? 125)%N with false. cbv iota.
    destruct f as [|f]; [cbn [length] in Hlen; lia|].
    assert (Hskip : forall tl,
               skip_ws (join [44%N] (map dump_member (kv2 :: kvs)) ++ tl)
               = join [44%N] (map dump_member (kv2 :: kvs)) ++ tl).
    { intros tl. destruct kv2 as [k2 v2].
      destruct kvs; cbn [map join dump_member]; unfold dump_str;
        reflexivity. }
    rewrite Hskip.
    change [44%N] with (lit ",").
    rewrite IH; [reflexivity|discriminate|exact Hflat|cbn [length] in *; lia].
Qed.

Lemma join_length (sep : str) (n : nat) (parts : list str) :
  Forall (fun p => (n <= length p)%nat) parts ->
  (n * length parts <= length (join sep parts))%nat.
Proof.
  induction 1 as [|p parts Hp Hall IH]; [simpl; lia|].
  destruct parts as [|p2 parts].
  - simpl. lia.
  - change (join sep (p :: p2 :: parts))
      with (p ++ sep ++ join sep (p2 :: parts)).
    rewrite !length_app. cbn [length] in *. lia.
Qed.

Lemma dump_member_length (kv : str * value) : (3 <= length (dump_member kv))%nat.
Proof.
  destruct kv as [k v]. unfold dump_member, dump_str.
  change (lit ":") with [58%N].
  cbn [app length]. rewrite !length_app. cbn [length]. lia.
Qed.

(** Reading back a dumped object of flat members. *)
Lemma loads_dump_dict (kvs : list (str * value)) :
  kvs <> [] -> Forall (fun kv => flat (snd kv)) kvs ->
  loads (dump (JDict kvs)) = Ok (JDict (set_all [] kvs)).
Proof.
  intros Hne Hflat. unfold loads. rewrite dump_dict.
  change (lit "{") with [123%N]. change (lit "}") with [125%N].
  cbn [app skip_ws].
  change (is_ws 123%N) with false. cbv iota.
  cbn [scan_once].
  change (123 =? 34)%N with false. change (123 =? 123)%N with true. cbv iota.
  assert (Hlen : (S (length kvs) <=
                  length (join (lit ",") (map dump_member kvs) ++ [125%N]))%nat).
  { rewrite length_app. cbn [length].
    pose proof (join_length (lit ",") 3 (map dump_member kvs)) as H.
    rewrite length_map in H.
    assert (Forall (fun p => (3 <= length p)%nat) (map dump_member kvs)).
    { apply Forall_map. apply Forall_forall. intros x _.
      apply dump_member_length. }
    specialize (H H0). destruct kvs; [congruence|]. cbn [length] in *. lia. }
  destruct (join (lit ",") (map dump_member kvs) ++ [125%N]) as [|c0 body] eqn:E.
  { cbn [length] in Hlen. lia. }
  assert (Hhead : skip_ws (c0 :: body) = c0 :: body /\ (c0 =? 125)%N = false).
  { destruct kvs as [|[k v] kvs]; [congruence|].
    destruct kvs; cbn [map join dump_member] in E; unfold dump_str in E;
      cbn [app] in E; injection E as <- _; split; reflexivity. }
  destruct Hhead as [Hskip H125]. rewrite Hskip, H125.
  cbn [length] in Hlen.
  match goal with
  | |- context [parse_members ?k _ _] => remember k as fuel eqn:Efuel
  end.
  cbn [length] in Efuel. destruct fuel as [|fuel]; [lia|].
  rewrite <- E.
  rewrite parse_members_dump by (auto; lia).
  reflexivity.
Qed.

(* ------------------------------------------------------------------ *)
(** ** Records, lines and files *)

Lemma dump_flat_printable (v : value) : flat v -> printable (dump v).
Proof.
  destruct v as [| [|] | i | | s | |]; intros H; try contradiction;
    try (repeat constructor; vm_compute; discriminate).
  - apply str_of_int_printable.
  - apply dump_str_printable.
Qed.

Lemma join_printable (sep : str) (parts : list str) :
  printable sep -> Forall printable parts -> printable (join sep parts).
Proof.
  intros Hsep. induction 1 as [|p parts Hp Hall IH]; [constructor|].
  destruct parts as [|p2 parts]; [exact Hp|].
  change (join sep (p :: p2 :: parts))
    with (p ++ sep ++ join sep (p2 :: parts)).
  auto using printable_app.
Qed.

Lemma dump_dict_printable (kvs : list (str * value)) :
  Forall (fun kv => flat (snd kv)) kvs -> printable (dump (JDict kvs)).
Proof.
  intros Hflat. rewrite dump_dict.
  apply printable_app; [repeat constructor; vm_compute; discriminate|].
  apply printable_app; [|repeat constructor; vm_compute; discriminate].
  apply join_printable; [repeat constructor; vm_compute; discriminate|].
  apply Forall_map. eapply Forall_impl; [|exact Hflat].
  intros [k v] Hv. cbn [snd] in Hv. unfold dump_member.
  apply printable_app; [apply dump_str_printable|].
  apply printable_app; [repeat constructor; vm_compute; discriminate|].
  apply dump_flat_printable. exact Hv.
Qed.

(** A line without line ends is handed over whole. *)
Lemma iter_lines_line (line : str) :
  printable line ->
  forall cur rest,
    iter_lines (line ++ NL :: rest) cur
    = (cur ++ line ++ [NL]) :: iter_lines rest [].
Proof.
  induction 1 as [|c line Hc Hall IH]; intros cur rest.
  - cbn [app iter_lines]. rewrite N.eqb_refl. reflexivity.
  - cbn [app iter_lines].
    destruct (N.eqb_spec c NL); [unfold NL in *; lia|].
    destruct (N.eqb_spec c CR); [unfold CR in *; lia|].
    rewrite IH, <- app_assoc. reflexivity.
Qed.

(** An object on a line of its own is what [strip] leaves of the line. *)
Lemma strip_object_line (body : str) :
  strip ((123%N :: body ++ [125%N]) ++ [NL]) = 123%N :: body ++ [125%N].
Proof.
  unfold strip, rstrip. cbn [app lstrip].
  change (isspace 123%N) with false. cbv iota.
  change (123%N :: (body ++ [125%N]) ++ [NL])
    with ((123%N :: body ++ [125%N]) ++ [NL]).
  rewrite rev_app_distr. cbn [rev app lstrip].
  change (isspace NL) with true. cbv iota.
  rewrite rev_app_distr. cbn [rev app lstrip].
  change (isspace 125%N) with false. cbv iota.
  change (125%N :: rev body ++ [123%N])
    with ([125%N] ++ (rev body ++ [123%N])).
  rewrite rev_app_distr, rev_app_distr, rev_involutive. reflexivity.
Qed.

Section RecordLines.
Context {F : DatetimeFormat}.

Lemma model_dump_flat (r : FlightRecord) :
  Forall (fun kv => flat (snd kv)) (model_dump r).
Proof.
  unfold model_dump, dump_optional, dump_datetime.
  repeat constructor; cbn [snd];
    try match goal with |- flat (match ?o with _ => _ end) => destruct o end;
    exact I.
Qed.

Lemma model_dump_keys (r : FlightRecord) :
  set_all [] (model_dump r) = model_dump r.
Proof. reflexivity. Qed.

(** Reading a dumped record back gives the dict of its fields. *)
Lemma loads_record (r : FlightRecord) :
  loads (record_to_json_line r) = Ok (JDict (model_dump r)).
Proof.
  unfold record_to_json_line, model_dump_json.
  rewrite loads_dump_dict; [|discriminate|apply model_dump_flat].
  rewrite model_dump_keys. reflexivity.
Qed.

Lemma record_line_printable (r : FlightRecord) :
  printable (record_to_json_line r).
Proof. apply dump_dict_printable, model_dump_flat. Qed.

Lemma record_line_shape (r : FlightRecord) :
  exists body, record_to_json_line r = 123%N :: body ++ [125%N].
Proof.
  unfold record_to_json_line, model_dump_json. rewrite dump_dict.
  eexists. reflexivity.
Qed.

Lemma strip_record_line (r : FlightRecord) :
  strip (record_to_json_line r ++ [NL]) = record_to_json_line r.
Proof.
  destruct (record_line_shape r) as (body & ->). apply strip_object_line.
Qed.

(** The text of a file written from [records]: each line and its end. *)
Definition ndjson_text (records : list FlightRecord) : str :=
  concat (map (fun r => record_to_json_line r ++ [NL]) records).

Lemma write_records_spec (records : list FlightRecord) :
  forall written count,
    write_records records written count
    = (written ++ ndjson_text records, count + zlen records).
Proof.
  induction records as [|r rs IH]; intros written count.
  - unfold ndjson_text, zlen. cbn. rewrite app_nil_r. f_equal. lia.
  - cbn [write_records]. rewrite IH. unfold ndjson_text, zlen.
    cbn [map concat length]. rewrite <- !app_assoc. f_equal. lia.
Qed.

Lemma iter_lines_ndjson (records : list FlightRecord) :
  iter_lines (ndjson_text records) []
  = map (fun r => record_to_json_line r ++ [NL]) records.
Proof.
  induction records as [|r rs IH]; [reflexivity|].
  unfold ndjson_text in *. cbn [map concat].
  rewrite <- app_assoc. cbn [app].
  rewrite iter_lines_line by apply record_line_printable.
  rewrite IH. reflexivity.
Qed.

Lemma read_lines_ndjson (records : list FlightRecord) :
  forall acc,
    read_lines (map (fun r => record_to_json_line r ++ [NL]) records) acc
    = Ok (acc ++ map (fun r => JDict (model_dump r)) records).
Proof.
  induction records as [|r rs IH]; intros acc.
  - cbn. rewrite app_nil_r. reflexivity.
  - cbn [map read_lines]. rewrite strip_record_line.
    destruct (record_line_shape r) as (body & E).
    rewrite E at 1. rewrite loads_record. cbn [bind].
    rewrite IH, <- app_assoc. reflexivity.
Qed.


Lemma write_text_read (f : fs) (p : path) (content : str) :
  read_text (write_text f p content) p = Ok content.
Proof.
  unfold read_text, write_text.
  assert (Str.eqb p p = true) as -> by (apply str_eqb_eq; reflexivity).
  reflexivity.
Qed.

Lemma records_to_ndjson_text (records : list FlightRecord) :
  records_to_ndjson records = ndjson_text records.
Proof.
  unfold records_to_ndjson, ndjson_text.
  destruct records as [|r rs]; [reflexivity|].
  cbn [map]. revert r. induction rs as [|r2 rs IH]; intros r.
  - cbn. rewrite app_nil_r. reflexivity.
  - change (join [NL] (record_to_json_line r
                       :: map record_to_json_line (r2 :: rs)))
      with (record_to_json_line r ++ [NL]
            ++ join [NL] (map record_to_json_line (r2 :: rs))).
    cbn [map concat] in *. rewrite <- !app_assoc. rewrite IH.
    rewrite <- !app_assoc. reflexivity.
Qed.

End RecordLines.

(* ------------------------------------------------------------------ *)
(** ** The scanner never runs out of fuel *)

(** A scan of [s] that returns has consumed at least one character, and
    one that fails has failed as the decoder does. *)
Definition consumed {A : Type} (s : str) (res : result (A * str)) : Prop :=
  match res with
  | Ok (_, r) => (length r < length s)%nat
  | Err e => e = JSONDecodeError
  end.

Lemma consumed_mono {A : Type} (s s' : str) (res : result (A * str)) :
  consumed s' res -> (length s' <= length s)%nat -> consumed s res.
Proof. unfold consumed. destruct res as [[a r]|e]; [lia|auto]. Qed.

Lemma skip_ws_length (s : str) : (length (skip_ws s) <= length s)%nat.
Proof.
  induction s as [|c s IH]; [simpl; lia|].
  cbn [skip_ws]. destruct (is_ws c); cbn [length]; lia.
Qed.

Lemma emit_consumed (c : char) (s s' : str) (m : result (str * str)) :
  consumed s' m -> (length s' <= length s)%nat -> consumed s (emit c m).
Proof.
  unfold consumed, emit. destruct m as [[t r]|e]; simpl; [lia|auto].
Qed.

Ltac scan_cases :=
  repeat (match goal with
          | |- context [match ?l with [] => _ | _ :: _ => _ end] =>
              is_var l; destruct l
          | |- context [if ?b then _ else _] => destruct b
          | |- context [match hex4 ?a ?b ?c ?d with _ => _ end] =>
              destruct (hex4 a b c d)
          end; cbv beta iota).

Lemma scanstring_consumed (n : nat) :
  forall s, (length s <= n)%nat -> consumed s (scanstring s).
Proof.
  induction n as [|n IH]; intros s Hlen.
  - destruct s; [reflexivity|simpl in Hlen; lia].
  - destruct s as [|c r]; [reflexivity|].
    cbn [scanstring]. scan_cases;
      try reflexivity;
      try (cbn [consumed length]; lia);
      (eapply emit_consumed;
       [apply IH; cbn [length] in *; lia|cbn [length]; lia]).
Qed.

Lemma span_digits_length (s : str) :
  (length (snd (span_digits s)) <= length s)%nat.
Proof.
  induction s as [|c s IH]; [simpl; lia|].
  cbn [span_digits]. destruct (is_digit c); [|cbn [snd length]; lia].
  destruct (span_digits s) as [ds rest]. cbn [snd length] in *. lia.
Qed.

Lemma match_frac_length (s : str) :
  (length (snd (match_frac s)) <= length s)%nat.
Proof.
  destruct s as [|dot [|d r]]; try (simpl; lia).
  cbn [match_frac]. destruct ((dot =? 46)%N && is_digit d); [|simpl; lia].
  pose proof (span_digits_length (d :: r)) as H.
  destruct (span_digits (d :: r)) as [ds rest]. cbn [snd length] in *. lia.
Qed.

Lemma match_exp_length (s : str) :
  (length (snd (match_exp s)) <= length s)%nat.
Proof.
  destruct s as [|e r]; [simpl; lia|]. cbn [match_exp].
  destruct ((e =? 101) || (e =? 69))%N; [|simpl; lia].
  destruct r as [|sg [|d r1]]; try (simpl; lia).
  - destruct (is_digit sg); simpl; lia.
  - destruct (is_digit sg).
    + pose proof (span_digits_length (sg :: d :: r1)) as H.
      destruct (span_digits (sg :: d :: r1)) as [ds rest].
      cbn [snd length] in *. lia.
    + destruct (((sg =? 43) || (sg =? 45))%N && is_digit d); [|simpl; lia].
      pose proof (span_digits_length (d :: r1)) as H.
      destruct (span_digits (d :: r1)) as [ds rest].
      cbn [snd length] in *. lia.
Qed.

Lemma match_number_length (s : str) (v : value) (r : str) :
  match_number s = Some (v, r) -> (length r < length s)%nat.
Proof.
  unfold match_number.
  assert (Hhead : forall neg s1, (length s1 <= length s)%nat ->
            match s1 with
            | c :: r0 =>
                if is_digit c then
                  let '(int_part, rest) :=
                    if (c =? 48)%N then ([c], r0)
                    else let '(ds, rest) := span_digits r0 in (c :: ds, rest) in
                  let '(frac, rest1) := match_frac rest in
                  let '(exp, rest2) := match_exp rest1 in
                  match frac, exp with
                  | [], [] =>
                      Some (JInt (if neg : bool then - int_of_digits int_part
                                  else int_of_digits int_part), rest2)
                  | _, _ =>
                      Some (JFloat ((if neg then [45%N] else [])
                                    ++ int_part ++ frac ++ exp), rest2)
                  end
                else None
            | [] => None
            end = Some (v, r) -> (length r < length s)%nat).
  { intros neg s1 Hs1. destruct s1 as [|c r0]; [discriminate|].
    destruct (is_digit c); [|discriminate].
    pose proof (span_digits_length r0) as Hsp.
    destruct (span_digits r0) as [ds rest0]. cbn [snd] in Hsp.
    assert (Hrest : forall ip rest,
              (if (c =? 48)%N then ([c], r0) else (c :: ds, rest0))
              = (ip, rest) -> (length rest <= length r0)%nat).
    { intros ip rest. destruct (c =? 48)%N; intros [= _ <-]; lia. }
    destruct (if (c =? 48)%N then ([c], r0) else (c :: ds, rest0))
      as [ip rest] eqn:E.
    specialize (Hrest ip rest eq_refl).
    pose proof (match_frac_length rest) as Hf.
    destruct (match_frac rest) as [frac rest1]. cbn [snd] in Hf.
    pose proof (match_exp_length rest1) as He.
    destruct (match_exp rest1) as [exp rest2]. cbn [snd] in He.
    cbn [length] in Hs1.
    destruct frac; [destruct exp|]; intros [= _ <-]; lia. }
  destruct s as [|c r0]; [discriminate|].
  destruct (c =? 45)%N.
  - intros H. apply (Hhead true r0); [cbn [length]; lia|exact H].
  - intros H. apply (Hhead false (c :: r0)); [lia|exact H].
Qed.

Lemma strip_prefix_length (p : str) :
  forall s r, strip_prefix p s = Some r -> length s = (length p + length r)%nat.
Proof.
  induction p as [|a p IH]; intros s r; cbn [strip_prefix].
  - intros [= ->]. reflexivity.
  - destruct s as [|b s]; [discriminate|].
    destruct (a =? b)%N; [|discriminate].
    intros H. apply IH in H. cbn [length]. lia.
Qed.

Lemma scan_constant_consumed (s : str) : consumed s (scan_constant s).
Proof.
  unfold scan_constant.
  repeat match goal with
         | |- context [strip_prefix ?p s] =>
             let E := fresh "E" in
             destruct (strip_prefix p s) eqn:E;
             [apply strip_prefix_length in E; cbn [consumed];
              simpl in E; lia|]
         end.
  reflexivity.
Qed.

Lemma scan_fuel (fuel : nat) :
  (forall s, (2 * length s + 1 <= fuel)%nat -> consumed s (scan_once fuel s))
  /\ (forall s acc, (2 * length s + 2 <= fuel)%nat ->
        consumed s (parse_members fuel s acc))
  /\ (forall s acc, (2 * length s + 2 <= fuel)%nat ->
        consumed s (parse_items fuel s acc)).
Proof.
  induction fuel as [|f (IHscan & IHmem & IHitems)];
    [repeat split; intros; lia|].
  split; [|split].
  - intros s Hs. destruct s as [|c r]; [reflexivity|].
    cbn [length] in Hs. cbn [scan_once].
    destruct (c =? 34)%N.
    { pose proof (scanstring_consumed (length r) r (le_n _)) as H.
      destruct (scanstring r) as [[t r1]|e]; cbn [bind consumed length] in *;
        [lia|exact H]. }
    destruct (c =? 123)%N.
    { pose proof (skip_ws_length r) as Hw.
      destruct (skip_ws r) as [|c1 r1]; [reflexivity|]. cbn [length] in Hw.
      destruct (c1 =? 125)%N; [cbn [consumed length]; lia|].
      eapply consumed_mono; [apply IHmem|]; cbn [length]; lia. }
    destruct (c =? 91)%N.
    { pose proof (skip_ws_length r) as Hw.
      destruct (skip_ws r) as [|c1 r1]; [reflexivity|]. cbn [length] in Hw.
      destruct (c1 =? 93)%N; [cbn [consumed length]; lia|].
      eapply consumed_mono; [apply IHitems|]; cbn [length]; lia. }
    repeat match goal with
           | |- context [strip_prefix ?p (c :: r)] =>
               let E := fresh "E" in
               destruct (strip_prefix p (c :: r)) eqn:E;
               [apply strip_prefix_length in E; cbn [consumed];
                simpl in E; cbn [length]; lia|]
           end.
    destruct (match_number (c :: r)) as [[v r1]|] eqn:Enum.
    + apply match_number_length in Enum. exact Enum.
    + apply scan_constant_consumed.
  - intros s acc Hs. destruct s as [|q r]; [reflexivity|].
    cbn [length] in Hs. cbn [parse_members].
    destruct (negb (q =? 34)%N); [reflexivity|].
    pose proof (scanstring_consumed (length r) r (le_n _)) as H.
    destruct (scanstring r) as [[key r1]|e]; cbn [bind consumed] in *;
      [|exact H].
    pose proof (skip_ws_length r1) as Hw1.
    destruct (skip_ws r1) as [|colon r2]; [reflexivity|]. cbn [length] in Hw1.
    destruct (negb (colon =? 58)%N); [reflexivity|].
    pose proof (skip_ws_length r2) as Hw2.
    pose proof (IHscan (skip_ws r2) ltac:(lia)) as Hv.
    destruct (scan_once f (skip_ws r2)) as [[v r3]|e]; cbn [bind consumed] in *;
      [|exact Hv].
    pose proof (skip_ws_length r3) as Hw3.
    destruct (skip_ws r3) as [|c r4]; [reflexivity|]. cbn [length] in Hw3.
    destruct (c =? 125)%N; [cbn [consumed length]; lia|].
    destruct (c =? 44)%N; [|reflexivity].
    pose proof (skip_ws_length r4) as Hw4.
    eapply consumed_mono; [apply IHmem|]; cbn [length]; lia.
  - intros s acc Hs. cbn [parse_items].
    pose proof (IHscan s ltac:(lia)) as Hv.
    destruct (scan_once f s) as [[v r1]|e]; cbn [bind consumed] in *;
      [|exact Hv].
    pose proof (skip_ws_length r1) as Hw1.
    destruct (skip_ws r1) as [|c r2]; [reflexivity|]. cbn [length] in Hw1.
    destruct (c =? 93)%N; [cbn [consumed]; lia|].
    destruct (c =? 44)%N; [|reflexivity].
    pose proof (skip_ws_length r2) as Hw2.
    eapply consumed_mono; [apply IHitems|]; lia.
Qed.

(** [loads] fails only as [json.loads] does: with a decoding error. *)
Lemma loads_total (s : str) :
  match loads s with
  | Ok _ => True
  | Err e => e = JSONDecodeError
  end.
Proof.
  unfold loads.
  pose proof (skip_ws_length s) as Hw.
  destruct (scan_fuel (S (2 * length s))) as (Hscan & _).
  specialize (Hscan (skip_ws s) ltac:(lia)).
  destruct (scan_once (S (2 * length s)) (skip_ws s)) as [[v r]|e];
    cbn [bind consumed] in *; [|exact Hscan].
  destruct (skip_ws r); [exact I|reflexivity].
Qed.

(* ------------------------------------------------------------------ *)
(** * The generator *)

(** The records the fixture generator makes first. *)
Definition fixture_records :=
  Eval vm_compute in
    match records_of (generate fixture_generator 5) with
    | Ok rs => rs
    | Err _ => []
    end.

Lemma fixture_run :
  records_of (generate fixture_generator 5) = Ok fixture_records.
Proof. vm_compute. reflexivity. Qed.

(** They are the records CPython makes from [random.Random(42)]. *)
Example fixture_flight_ids :
  map flight_id fixture_records
  = map lit ["AF-1924"; "NK-620"; "AF-9028"; "B6-2647"; "EK-811"]%string.
Proof. vm_compute. reflexivity. Qed.

Example fixture_routes :
  map (fun r => (origin_airport r, destination_airport r, status r))
      fixture_records
  = [ (lit "JFK", lit "MIA", SCHEDULED); (lit "JFK", lit "ORD", IN_AIR);
      (lit "AMS", lit "SEA", BOARDING); (lit "SFO", lit "LHR", DEPARTED);
      (lit "DXB", lit "ICN", SCHEDULED) ].
Proof. vm_compute. reflexivity. Qed.

Section GeneratorProperties.
Context {R : Random} {U : UnicodeData}.

Lemma records_of_inv (run : result (list FlightRecord * FlightDataGenerator))
  rs :
  records_of run = Ok rs -> exists g1, run = Ok (rs, g1).
Proof.
  unfold records_of. destruct run as [[rs0 g1]|e]; simpl; [|discriminate].
  intros [= <-]. exists g1. reflexivity.
Qed.

Lemma generate_inv (g : FlightDataGenerator) (n : Z) rs :
  records_of (generate g n) = Ok rs \/ records_of (stream g n) = Ok rs ->
  Forall (generated (base_time g)) rs /\ length rs = Z.to_nat n.
Proof.
  intros H.
  assert (E : exists g1, stream_loop (Z.to_nat n) g = Ok (rs, g1))
    by (destruct H as [H|H]; apply records_of_inv in H; exact H).
  destruct E as (g1 & E). apply stream_loop_inv in E. tauto.
Qed.



(** C2. Every record that [generate] or [stream] returns has different
    origin and destination airports, an airline code and airport codes
    equal to their upper-case forms, a flight number from 1 to 9999 and a
    delay that is not negative. *)
Theorem generated_records_invariants (g : FlightDataGenerator) (n : Z)
  (rs : list FlightRecord) :
  records_of (generate g n) = Ok rs \/ records_of (stream g n) = Ok rs ->
  Forall (fun r =>
            origin_airport r <> destination_airport r
            /\ airline_code r = upper unicode_upper (airline_code r)
            /\ origin_airport r = upper unicode_upper (origin_airport r)
            /\ destination_airport r
               = upper unicode_upper (destination_airport r)
            /\ 1 <= flight_number r <= 9999
            /\ 0 <= delay_minutes r) rs.
Proof.
  intros H. apply generate_inv in H. destruct H as [H _].
  eapply Forall_impl; [|exact H]. clear H.
  intros r (off & sched & st & delay & est & _ & _ & Hrule & _ & Hmade).
  destruct Hmade
    as (Hline & Hfn & _ & Ho & Hd & Hne & _ & _ & Hdelay & _ & _).
  pose proof AIRLINES_codes as HA. rewrite Forall_forall in HA.
  destruct (HA _ Hline) as [Hup _]. cbn [snd] in Hup.
  pose proof AIRPORTS_codes as HP. rewrite Forall_forall in HP.
  destruct (HP _ Ho) as [Hupo _]. destruct (HP _ Hd) as [Hupd _].
  pose proof (delay_rule_nonneg _ _ Hrule).
  unfold uppercase_airline_code, uppercase_airport in *.
  repeat split; auto; lia.
Qed.


(** C4, as the code has it.  [generate n] returns exactly [n] records for
    every [n >= 0] when [n] is zero (the empty list) or the base time is at
    least 720 minutes after the first instant of the calendar and more
    than 1020 minutes before its end. *)
Theorem generate_count (g : FlightDataGenerator) (n : Z) :
  0 <= n -> n = 0 \/ roomy (base_time g) ->
  exists rs,
    records_of (generate g n) = Ok rs /\ zlen rs = n /\ (n = 0 -> rs = []).
Proof.
  intros Hn [->|Hroom]; [exists []; repeat split|].
  destruct (stream_loop_total (Z.to_nat n) g Hroom) as (rs & g1 & E).
  exists rs. split; [unfold generate, stream; rewrite E; reflexivity|].
  apply stream_loop_inv in E. destruct E as (_ & Hlen & _).
  unfold zlen. split; [lia|].
  intros ->. destruct rs; [reflexivity|discriminate].
Qed.


(** C10. In every generated record the estimated time is there exactly
    when the delay is above zero, and the actual time exactly when the
    status is arrived, landed or departed; a departed record has no delay,
    no estimated time, and its scheduled time as actual time. *)
Theorem generated_times (g : FlightDataGenerator) (n : Z)
  (rs : list FlightRecord) :
  records_of (generate g n) = Ok rs ->
  Forall (fun r =>
            (estimated_time r <> None <-> 0 < delay_minutes r)
            /\ (actual_time r <> None <->
                status r = ARRIVED \/ status r = LANDED
                \/ status r = DEPARTED)
            /\ (status r = DEPARTED ->
                delay_minutes r = 0 /\ estimated_time r = None
                /\ actual_time r = Some (scheduled_time r))) rs.
Proof.
  intros H. destruct (generate_inv g n rs (or_introl H)) as [Hall _].
  eapply Forall_impl; [|exact Hall]. clear Hall.
  intros r (off & sched & st & delay & est & _ & _ & Hrule & Hest & Hmade).
  destruct Hmade
    as (_ & _ & _ & _ & _ & _ & Hsched & Hst & Hdelay & He & Hact).
  pose proof (delay_rule_nonneg _ _ Hrule) as Hnn.
  rewrite Hsched, Hst, Hdelay, He, Hact.
  assert (Hcases : (delay = 0 /\ est = None)
                   \/ (0 < delay /\ exists e, est = Some e)).
  { destruct (Z.eqb_spec delay 0) as [->|Hnz].
    - left. split; congruence.
    - right. split; [lia|].
      destruct (add_minutes sched delay) as [e|]; [|discriminate].
      simpl in Hest. exists e. congruence. }
  split; [|split].
  - destruct Hcases as [[-> ->]|[Hpos (e & ->)]]; split; intros; try lia;
      congruence.
  - destruct st; cbn [status_in existsb FlightStatus_eqb orb]; split;
      intros H0; try congruence; try tauto;
      try (destruct H0 as [H0|[H0|H0]]; discriminate).
  - intros ->. simpl in Hrule. subst delay.
    destruct Hcases as [[_ ->]|[Hpos _]]; [|lia]. auto.
Qed.

(** Without a base time the constructor takes what the clock reads. *)
Lemma default_base_time (seed : Z) (now : datetime) :
  base_time (__init__ seed None now) = now.
Proof. reflexivity. Qed.

End GeneratorProperties.

(** Upper-casing keeps the length of ASCII text, so a record built from
    ASCII codes meets the constraints its arguments met. *)
Lemma upper_ascii_length (U : UnicodeData) (s : str) :
  Forall (fun c => (c < 128)%N) s -> len (upper unicode_upper s) = len s.
Proof.
  unfold len, upper. intros H. f_equal.
  induction H as [|c s Hc Hall IH]; [reflexivity|].
  cbn [flat_map]. rewrite length_app, IH. unfold upper_char.
  destruct (N.ltb_spec c 128); [|lia].
  destruct ((97 <=? c) && (c <=? 122))%N; reflexivity.
Qed.

Lemma normalized_constraints (U : UnicodeData) (kw : FlightRecord) :
  Forall (fun c => (c < 128)%N)
         (airline_code kw ++ origin_airport kw ++ destination_airport kw) ->
  field_constraints kw = true -> field_constraints (normalized kw) = true.
Proof.
  intros Hascii. apply Forall_app in Hascii. destruct Hascii as [Ha Hascii].
  apply Forall_app in Hascii. destruct Hascii as [Ho Hd].
  unfold field_constraints, normalized, check_length,
    uppercase_airline_code, uppercase_airport.
  cbn [airline_code flight_number origin_airport destination_airport
       delay_minutes].
  rewrite !upper_ascii_length by assumption. auto.
Qed.

(** Outside ASCII the stored code can be longer than the argument was:
    three characters ending in U+00DF come out as four. *)
Example sharp_s_airline_code :
  let kw := {| flight_id := lit "AB-1"; flight_type := ARRIVAL;
               airline := lit "Air"; airline_code := [97; 98; 223]%N;
               flight_number := 1; origin_airport := lit "JFK";
               destination_airport := lit "LAX";
               scheduled_time := fixture_base_time;
               estimated_time := None; actual_time := None;
               status := SCHEDULED; gate := None; terminal := None;
               aircraft_type := None; delay_minutes := 0 |} in
  option_map airline_code
    (match FlightRecord_new kw with Ok r => Some r | Err _ => None end)
  = Some (lit "ABSS").
Proof. vm_compute. reflexivity. Qed.


(* ------------------------------------------------------------------ *)
(** * The NDJSON codec *)

Section CodecProperties.
Context {F : DatetimeFormat}.




Lemma read_back (records : list FlightRecord) (p : path) (f : fs) :
  read_ndjson_file p (snd (stream_to_file records p f))
  = Ok (map (fun r => JDict (model_dump r)) records).
Proof.
  unfold stream_to_file. rewrite write_records_spec. cbn [snd app].
  unfold read_ndjson_file. rewrite write_text_read. cbn [bind].
  rewrite iter_lines_ndjson, read_lines_ndjson. reflexivity.
Qed.

(** C5. Writing [n] generated records with [stream_to_file] and reading
    the file back with [read_ndjson_file] gives [n] dicts, in the order of
    the records, whose [flight_id], [airline_code] and [flight_number] are
    those of the records. *)
Theorem ndjson_round_trip {R : Random} {U : UnicodeData}
  (g : FlightDataGenerator) (n : Z) (rs : list FlightRecord)
  (p : path) (f : fs) :
  0 <= n -> records_of (generate g n) = Ok rs ->
  exists ds,
    read_ndjson_file p (snd (stream_to_file rs p f)) = Ok ds
    /\ zlen ds = n
    /\ Forall2 (fun r d =>
                  get d (lit "flight_id") = Some (JStr (flight_id r))
                  /\ get d (lit "airline_code") = Some (JStr (airline_code r))
                  /\ get d (lit "flight_number")
                     = Some (JInt (flight_number r))) rs ds.
Proof.
  intros Hn Hgen.
  destruct (generate_inv g n rs (or_introl Hgen)) as [_ Hlen].
  exists (map (fun r => JDict (model_dump r)) rs).
  split; [apply read_back|]. split.
  - unfold zlen. rewrite length_map. lia.
  - clear. induction rs as [|r rs IH]; constructor; [|exact IH].
    repeat split; reflexivity.
Qed.

End CodecProperties.

(* ------------------------------------------------------------------ *)
(** * The properties on the fixture generator *)

Lemma generated_records_invariants_witness :
  (records_of (generate fixture_generator 5) = Ok fixture_records
   \/ records_of (stream fixture_generator 5) = Ok fixture_records)
  /\ Forall (fun r =>
               origin_airport r <> destination_airport r
               /\ airline_code r = upper unicode_upper (airline_code r)
               /\ origin_airport r = upper unicode_upper (origin_airport r)
               /\ destination_airport r
                  = upper unicode_upper (destination_airport r)
               /\ 1 <= flight_number r <= 9999
               /\ 0 <= delay_minutes r) fixture_records.
Proof.
  split; [left; vm_compute; reflexivity|].
  apply (generated_records_invariants fixture_generator 5 fixture_records).
  left. vm_compute. reflexivity.
Defined.


Lemma generated_times_witness :
  records_of (generate fixture_generator 5) = Ok fixture_records
  /\ Forall (fun r =>
               (estimated_time r <> None <-> 0 < delay_minutes r)
               /\ (actual_time r <> None <->
                   status r = ARRIVED \/ status r = LANDED
                   \/ status r = DEPARTED)
               /\ (status r = DEPARTED ->
                   delay_minutes r = 0 /\ estimated_time r = None
                   /\ actual_time r = Some (scheduled_time r)))
            fixture_records.
Proof.
  split; [vm_compute; reflexivity|].
  apply (generated_times fixture_generator 5 fixture_records).
  vm_compute. reflexivity.
Defined.

Lemma fixture_roomy : roomy (base_time fixture_generator).
Proof. vm_compute. split; [discriminate|reflexivity]. Qed.

Lemma generate_count_witness :
  0 <= 5
  /\ (5 = 0 \/ roomy (base_time fixture_generator))
  /\ exists rs,
       records_of (generate fixture_generator 5) = Ok rs
       /\ zlen rs = 5 /\ (5 = 0 -> rs = []).
Proof.
  split; [lia|]. split; [right; exact fixture_roomy|].
  apply (generate_count fixture_generator 5); [lia|right; exact fixture_roomy].
Defined.

(** C4, as stated, fails: seed 42 at [datetime.min] draws an offset of
    -263 minutes for its first record, and the scheduled time leaves the
    calendar. *)
Lemma generate_count_counterexample :
  records_of (generate (__init__ (R := MersenneTwister) 42
                          (Some datetime_min) datetime_min) 1)
  = Err OverflowError
  /\ ~ (exists rs,
          records_of (generate (__init__ (R := MersenneTwister) 42
                                  (Some datetime_min) datetime_min) 1)
          = Ok rs
          /\ zlen rs = 1).
Proof.
  assert (E : records_of (generate (__init__ (R := MersenneTwister) 42
                                      (Some datetime_min) datetime_min) 1)
              = Err OverflowError) by (vm_compute; reflexivity).
  split; [exact E|]. intros (rs & H & _). rewrite E in H. discriminate.
Qed.


Lemma ndjson_round_trip_witness :
  0 <= 5
  /\ records_of (generate fixture_generator 5) = Ok fixture_records
  /\ exists ds,
       read_ndjson_file (lit "flights.ndjson")
         (snd (stream_to_file fixture_records (lit "flights.ndjson")
                 (fun _ => None))) = Ok ds
       /\ zlen ds = 5
       /\ Forall2 (fun r d =>
                     get d (lit "flight_id") = Some (JStr (flight_id r))
                     /\ get d (lit "airline_code")
                        = Some (JStr (airline_code r))
                     /\ get d (lit "flight_number")
                        = Some (JInt (flight_number r))) fixture_records ds.
Proof.
  split; [lia|]. split; [vm_compute; reflexivity|].
  apply (ndjson_round_trip fixture_generator 5 fixture_records
           (lit "flights.ndjson") (fun _ => None)).
  - lia.
  - vm_compute. reflexivity.
Defined.

(* ------------------------------------------------------------------ *)
(** * More on the generator *)

Section GeneratorDetails.
Context {R : Random} {U : UnicodeData}.

(** The cosmetic fields of a record [_make_record] returns. *)
Definition decorated (r : FlightRecord) : Prop :=
  (exists letter number,
      gate r = Some (letter ++ str_of_int number)
      /\ In letter GATE_LETTERS /\ 1 <= number <= 40)
  /\ (exists t, terminal r = Some t /\ In t TERMINALS)
  /\ (exists a, aircraft_type r = Some a /\ In a AIRCRAFT_TYPES).

Lemma make_record_draws_decorated (bt : datetime) s r s1 :
  make_record_draws bt s = Ok (r, s1) -> decorated r.
Proof.
  unfold make_record_draws. intros H.
  destruct (choice_spec AIRLINES s) as ([name code] & t1 & E1 & Hin1);
    [discriminate|].
  rewrite (bindR_ok _ _ _ _ _ E1) in H. cbv beta iota in H.
  destruct (randint_spec 100 9999 t1) as (fn & t2 & E2 & Hfn); [lia|].
  rewrite (bindR_ok _ _ _ _ _ E2) in H.
  destruct (sample_airports_spec t2) as (o & d & t3 & E3 & Ho & Hd & Hod).
  rewrite (bindR_ok _ _ _ _ _ E3) in H.
  rewrite (bindR_ok _ _ _ _ _
             (lift_ok _ _ t3 (eq_refl : unpack2 [o; d] = Ok (o, d)))) in H.
  cbv beta iota in H.
  destruct (choice_spec [ARRIVAL; DEPARTURE] t3) as (ft & t4 & E4 & _);
    [discriminate|].
  rewrite (bindR_ok _ _ _ _ _ E4) in H.
  destruct (randint_spec (-720) 720 t4) as (off & t5 & E5 & Hoff); [lia|].
  rewrite (bindR_ok _ _ _ _ _ E5) in H.
  destruct (add_minutes bt off) as [sched|e] eqn:Esched;
    [|rewrite (bindR_err _ _ _ _ (eq_refl : lift (Err e) t5 = Err e)) in H;
      discriminate].
  rewrite (bindR_ok _ _ _ _ _ (lift_ok _ _ t5 eq_refl)) in H.
  destruct (STATUS_WEIGHTS_choices t5) as (st & t6 & E6).
  rewrite (bindR_ok _ _ _ _ _ E6) in H.
  rewrite (bindR_ok _ _ _ _ _
             (lift_ok _ _ t6 (eq_refl : getitem [st] 0 = Ok st))) in H.
  destruct (delay_draw_spec st t6) as (delay & t7 & E7 & Hdelay).
  rewrite (bindR_ok _ _ _ _ _ E7) in H.
  destruct (if delay =? 0 then Ok None
            else (e <- add_minutes sched delay ;; Ok (Some e)))
    as [est|e] eqn:Eest;
    [|rewrite (bindR_err _ _ _ _ (eq_refl : lift (Err e) t7 = Err e)) in H;
      discriminate].
  rewrite (bindR_ok _ _ _ _ _ (lift_ok _ _ t7 eq_refl)) in H.
  destruct (choice_spec GATE_LETTERS t7) as (gl & t8 & E8 & Hgl);
    [discriminate|].
  rewrite (bindR_ok _ _ _ _ _ E8) in H.
  destruct (randint_spec 1 40 t8) as (gn & t9 & E9 & Hgn); [lia|].
  rewrite (bindR_ok _ _ _ _ _ E9) in H.
  destruct (choice_spec TERMINALS t9) as (term & t10 & E10 & Hterm);
    [discriminate|].
  rewrite (bindR_ok _ _ _ _ _ E10) in H.
  destruct (choice_spec AIRCRAFT_TYPES t10) as (ac & t11 & E11 & Hac);
    [discriminate|].
  rewrite (bindR_ok _ _ _ _ _ E11) in H.
  unfold lift in H.
  match type of H with
  | context [FlightRecord_new ?kw] =>
      destruct (field_constraints kw) eqn:Ec;
      [rewrite (FlightRecord_new_ok kw Ec) in H
      |rewrite (FlightRecord_new_err kw Ec) in H; discriminate]
  end.
  injection H as <- _. unfold decorated, normalized.
  cbn [gate terminal aircraft_type]. repeat split; eauto.
Qed.

Lemma stream_loop_Forall (P : FlightRecord -> Prop) :
  (forall bt s r s1, make_record_draws bt s = Ok (r, s1) -> P r) ->
  forall k self rs self1,
    stream_loop k self = Ok (rs, self1) -> Forall P rs.
Proof.
  intros HP. induction k as [|k IH]; intros self rs self1 H; simpl in H.
  - injection H as <- _. constructor.
  - unfold _make_record in H.
    destruct (make_record_draws (base_time self) (rng self))
      as [[r s1]|e] eqn:E1; [|discriminate].
    simpl in H.
    destruct (stream_loop k _) as [[rest g2]|e] eqn:E2; [|discriminate].
    simpl in H. injection H as <- _.
    constructor; [eapply HP; exact E1|eapply IH; exact E2].
Qed.

Lemma stream_loop_keeps (k : nat) :
  forall self rs self1,
    stream_loop k self = Ok (rs, self1) ->
    seed self1 = seed self /\ base_time self1 = base_time self.
Proof.
  induction k as [|k IH]; intros self rs self1 H; simpl in H.
  - injection H as _ <-. auto.
  - destruct (_make_record self) as [[r g1]|e] eqn:E1; [|discriminate].
    simpl in H.
    destruct (stream_loop k g1) as [[rest g2]|e] eqn:E2; [|discriminate].
    simpl in H. injection H as _ <-.
    apply make_record_inv in E1. destruct E1 as (_ & Hb & Hs).
    apply IH in E2. destruct E2 as [Hs2 Hb2]. split; congruence.
Qed.

Lemma add_minutes_inv (d d1 : datetime) (m : Z) :
  add_minutes d m = Ok d1 ->
  d1 = mk_datetime (ticks d + m * US_PER_MINUTE) (tzinfo d)
  /\ 0 <= ticks d1 < MAX_TICKS.
Proof.
  unfold add_minutes.
  destruct (Z.leb_spec 0 (ticks d + m * US_PER_MINUTE)); [|discriminate].
  destruct (Z.ltb_spec (ticks d + m * US_PER_MINUTE) MAX_TICKS);
    [|discriminate].
  intros [= <-]. cbn [ticks]. auto.
Qed.

Lemma add_minutes_err (d : datetime) (m : Z) (e : exn) :
  add_minutes d m = Err e -> e = OverflowError.
Proof.
  unfold add_minutes. destruct (_ && _); [discriminate|]. congruence.
Qed.

Lemma make_record_err (self : FlightDataGenerator) (e : exn) :
  _make_record self = Err e -> e = OverflowError.
Proof.
  unfold _make_record. intros H.
  destruct (make_record_draws_spec (base_time self) (rng self))
    as (off & _ & Hspec).
  destruct (add_minutes (base_time self) off) as [sched|e1] eqn:Es.
  - destruct Hspec as (st & delay & _ & Hspec).
    destruct (delay =? 0).
    + destruct Hspec as (r & s1 & E & _). rewrite E in H. discriminate.
    + destruct (add_minutes sched delay) as [e2|e2] eqn:Ee; simpl in Hspec.
      * destruct Hspec as (r & s1 & E & _). rewrite E in H. discriminate.
      * rewrite Hspec in H. simpl in H. apply add_minutes_err in Ee.
        congruence.
  - rewrite Hspec in H. simpl in H. apply add_minutes_err in Es. congruence.
Qed.

Lemma stream_loop_err (k : nat) :
  forall self e, stream_loop k self = Err e -> e = OverflowError.
Proof.
  induction k as [|k IH]; intros self e H; simpl in H; [discriminate|].
  destruct (_make_record self) as [[r g1]|e1] eqn:E1.
  - simpl in H. destruct (stream_loop k g1) as [[rest g2]|e2] eqn:E2;
      simpl in H; [discriminate|].
    injection H as <-. eapply IH. exact E2.
  - simpl in H. injection H as <-. eapply make_record_err. exact E1.
Qed.

(** X1. Every generated record is made of the reference pools: its airline
    and airline code are one pair of [AIRLINES], its airports are in
    [AIRPORTS], and its gate (a letter from A to F and a number from 1 to
    40), terminal and aircraft type are there and drawn from their pools. *)
Theorem generated_from_pools (g : FlightDataGenerator) (n : Z)
  (rs : list FlightRecord) :
  records_of (generate g n) = Ok rs ->
  Forall (fun r =>
            In (airline r, airline_code r) AIRLINES
            /\ In (origin_airport r) AIRPORTS
            /\ In (destination_airport r) AIRPORTS
            /\ (exists letter number,
                   gate r = Some (letter ++ str_of_int number)
                   /\ In letter (map (fun c => [c]) (lit "ABCDEF"))
                   /\ 1 <= number <= 40)
            /\ (exists t, terminal r = Some t /\ In t TERMINALS)
            /\ (exists a, aircraft_type r = Some a /\ In a AIRCRAFT_TYPES))
         rs.
Proof.
  intros H. destruct (generate_inv g n rs (or_introl H)) as [Hall _].
  apply records_of_inv in H. destruct H as (g1 & H).
  pose proof (stream_loop_Forall decorated make_record_draws_decorated
                _ _ _ _ H) as Hdec.
  rewrite Forall_forall in *. intros r Hr.
  destruct (Hall r Hr)
    as (off & sched & st & delay & est & _ & _ & _ & _ & Hmade).
  destruct Hmade as (Hline & _ & _ & Ho & Hd & _).
  destruct (Hdec r Hr) as (Hgate & Hterm & Hac).
  repeat split; assumption.
Qed.

(** X2. The flight id of a generated record is its airline code, a dash and
    its flight number in decimal, and the number is never below 100. *)
Theorem generated_flight_id (g : FlightDataGenerator) (n : Z)
  (rs : list FlightRecord) :
  records_of (generate g n) = Ok rs ->
  Forall (fun r =>
            flight_id r
            = airline_code r ++ lit "-" ++ str_of_int (flight_number r)
            /\ 100 <= flight_number r <= 9999) rs.
Proof.
  intros H. destruct (generate_inv g n rs (or_introl H)) as [Hall _].
  eapply Forall_impl; [|exact Hall]. clear.
  intros r (off & sched & st & delay & est & _ & _ & _ & _ & Hmade).
  destruct Hmade as (_ & Hfn & Hid & _). auto.
Qed.

(** X3. The scheduled time of a generated record is the base time moved
    by a whole number of minutes between -720 and 720, with the base
    time's [tzinfo]; an estimated time is the scheduled time plus the
    delay; an actual time is the estimated time when there is one and the
    scheduled time otherwise; and all of them lie within the calendar. *)
Theorem generated_schedule (g : FlightDataGenerator) (n : Z)
  (rs : list FlightRecord) :
  records_of (generate g n) = Ok rs ->
  Forall (fun r =>
            (exists off,
                -720 <= off <= 720
                /\ scheduled_time r
                   = mk_datetime (ticks (base_time g) + off * US_PER_MINUTE)
                       (tzinfo (base_time g)))
            /\ 0 <= ticks (scheduled_time r) < MAX_TICKS
            /\ (forall e, estimated_time r = Some e ->
                  e = mk_datetime
                        (ticks (scheduled_time r)
                         + delay_minutes r * US_PER_MINUTE)
                        (tzinfo (scheduled_time r))
                  /\ 0 <= ticks e < MAX_TICKS)
            /\ (forall a, actual_time r = Some a ->
                  a = match estimated_time r with
                      | Some e => e
                      | None => scheduled_time r
                      end)) rs.
Proof.
  intros H. destruct (generate_inv g n rs (or_introl H)) as [Hall _].
  eapply Forall_impl; [|exact Hall]. clear.
  intros r (off & sched & st & delay & est & Hoff & Hsched & _ & Hest & Hmade).
  destruct Hmade
    as (_ & _ & _ & _ & _ & _ & Hs & Hst & Hdelay & He & Hact).
  apply add_minutes_inv in Hsched. destruct Hsched as [Hsched Hrange].
  rewrite Hs, Hdelay, He, Hact. split; [|split; [|split]].
  - exists off. split; [exact Hoff|exact Hsched].
  - exact Hrange.
  - intros e ->. destruct (delay =? 0); [discriminate|].
    destruct (add_minutes sched delay) as [e1|] eqn:E; [|discriminate].
    simpl in Hest. injection Hest as <-. apply add_minutes_inv in E. exact E.
  - intros a. destruct (status_in st [ARRIVED; LANDED; DEPARTED]);
      [|discriminate]. intros [= <-]. reflexivity.
Qed.

(** X4. The delay of a generated record is at most 300 minutes; it is
    from 15 to 300 for a delayed record, one of 0, 5, 10, 15 and 30 for an
    arrived or landed one, and 0 for every other status. *)
Theorem generated_delay_by_status (g : FlightDataGenerator) (n : Z)
  (rs : list FlightRecord) :
  records_of (generate g n) = Ok rs ->
  Forall (fun r =>
            delay_minutes r <= 300
            /\ (status r = DELAYED -> 15 <= delay_minutes r)
            /\ (status r = ARRIVED \/ status r = LANDED ->
                In (delay_minutes r) [0; 5; 10; 15; 30])
            /\ (status r <> DELAYED -> status r <> ARRIVED ->
                status r <> LANDED -> delay_minutes r = 0)) rs.
Proof.
  intros H. destruct (generate_inv g n rs (or_introl H)) as [Hall _].
  eapply Forall_impl; [|exact Hall]. clear.
  intros r (off & sched & st & delay & est & _ & _ & Hrule & _ & Hmade).
  destruct Hmade as (_ & _ & _ & _ & _ & _ & _ & Hst & Hdelay & _).
  pose proof (delay_rule_nonneg _ _ Hrule) as Hnn.
  rewrite Hst, Hdelay. split; [lia|].
  destruct st; simpl in Hrule; (split; [|split]);
    try solve [intros; congruence | intros; lia
              | intros [?|?]; congruence
              | intros _; simpl; tauto].
Qed.

(** X5. [generate] changes nothing of a generator but its random stream:
    the seed and the base time stay; and for [n <= 0] it returns no record
    and leaves the stream where it was. *)
Theorem generate_keeps_configuration (g g1 : FlightDataGenerator) (n : Z)
  (rs : list FlightRecord) :
  generate g n = Ok (rs, g1) ->
  seed g1 = seed g /\ base_time g1 = base_time g
  /\ (n <= 0 -> rs = [] /\ g1 = g).
Proof.
  intros H. unfold generate, stream in H.
  destruct (stream_loop_keeps _ _ _ _ H) as [Hs Hb].
  split; [exact Hs|]. split; [exact Hb|].
  intros Hn. replace (Z.to_nat n) with O in H by lia.
  simpl in H. injection H as <- <-. auto.
Qed.

(** X6. Whatever the seed, the base time and [n], [generate] raises
    nothing but [OverflowError]: no draw fails and no record it builds
    fails validation. *)
Theorem generate_raises_only_overflow (g : FlightDataGenerator) (n : Z)
  (e : exn) :
  records_of (generate g n) = Err e -> e = OverflowError.
Proof.
  unfold records_of, generate, stream. intros H.
  destruct (stream_loop (Z.to_nat n) g) as [[rs g1]|e1] eqn:E;
    simpl in H; [discriminate|].
  injection H as <-. eapply stream_loop_err. exact E.
Qed.

End GeneratorDetails.

(* ------------------------------------------------------------------ *)
(** * More on the schema *)

Lemma upper_char_ascii (U : UnicodeData) (c : char) :
  (c < 128)%N ->
  exists c1, upper_char unicode_upper c = [c1] /\ (c1 < 128)%N
             /\ upper_char unicode_upper c1 = [c1].
Proof.
  intros Hc. unfold upper_char.
  destruct (N.ltb_spec c 128) as [_|]; [|lia].
  destruct ((97 <=? c) && (c <=? 122))%N eqn:E.
  - apply andb_true_iff in E. destruct E as [E1 E2].
    apply N.leb_le in E1, E2. exists (c - 32)%N.
    split; [reflexivity|]. split; [lia|].
    destruct (N.ltb_spec (c - 32) 128); [|lia].
    destruct (N.leb_spec 97 (c - 32)); [lia|]. reflexivity.
  - exists c. split; [reflexivity|]. split; [exact Hc|].
    destruct (N.ltb_spec c 128); [|lia]. rewrite E. reflexivity.
Qed.

Lemma upper_ascii_idem (U : UnicodeData) (s : str) :
  Forall (fun c => (c < 128)%N) s ->
  upper unicode_upper (upper unicode_upper s) = upper unicode_upper s
  /\ Forall (fun c => (c < 128)%N) (upper unicode_upper s).
Proof.
  unfold upper. induction 1 as [|c s Hc Hall [IH1 IH2]]; [split; constructor|].
  destruct (upper_char_ascii U c Hc) as (c1 & E & Hc1 & E1).
  cbn [flat_map]. rewrite E. cbn [app flat_map]. rewrite E1, IH1.
  split; [reflexivity|]. constructor; assumption.
Qed.

(** X7. A record that validation built from ASCII codes passes validation
    again and comes out as it is: upper-casing a code twice is upper-casing
    it once, and the upper-cased codes meet the length constraints. *)
Theorem revalidation_idempotent (U : UnicodeData) (kw r : FlightRecord) :
  Forall (fun c => (c < 128)%N)
         (airline_code kw ++ origin_airport kw ++ destination_airport kw) ->
  FlightRecord_new kw = Ok r ->
  FlightRecord_new r = Ok r.
Proof.
  intros Hascii H.
  destruct (field_constraints kw) eqn:Ec;
    [rewrite (FlightRecord_new_ok kw Ec) in H
    |rewrite (FlightRecord_new_err kw Ec) in H; discriminate].
  injection H as <-.
  rewrite (FlightRecord_new_ok _ (normalized_constraints U kw Hascii Ec)).
  apply Forall_app in Hascii. destruct Hascii as [Ha Hascii].
  apply Forall_app in Hascii. destruct Hascii as [Ho Hd].
  unfold normalized, uppercase_airline_code, uppercase_airport.
  cbn [flight_id flight_type airline airline_code flight_number
       origin_airport destination_airport scheduled_time estimated_time
       actual_time status gate terminal aircraft_type delay_minutes].
  rewrite (proj1 (upper_ascii_idem U _ Ha)), (proj1 (upper_ascii_idem U _ Ho)),
    (proj1 (upper_ascii_idem U _ Hd)).
  reflexivity.
Qed.

Lemma FlightStatus_member (s : FlightStatus) : In s FlightStatus_members.
Proof. destruct s; simpl; tauto. Qed.

Lemma FlightType_member (t : FlightType) : In t FlightType_members.
Proof. destruct t; simpl; tauto. Qed.

(** X8. The members of [FlightStatus] and of [FlightType] and their values
    correspond one to one: looking a member's value up gives the member
    back, a lookup that succeeds returns the member with that value, and a
    lookup fails, with [ValueError], only for a string that is no member's
    value. *)
Theorem enum_values_one_to_one :
  (forall s, FlightStatus_of_value (FlightStatus_value s) = Ok s)
  /\ (forall v s, FlightStatus_of_value v = Ok s -> FlightStatus_value s = v)
  /\ (forall v e, FlightStatus_of_value v = Err e ->
        e = ValueError /\ forall s, FlightStatus_value s <> v)
  /\ (forall t, FlightType_of_value (FlightType_value t) = Ok t)
  /\ (forall v t, FlightType_of_value v = Ok t -> FlightType_value t = v)
  /\ (forall v e, FlightType_of_value v = Err e ->
        e = ValueError /\ forall t, FlightType_value t <> v).
Proof.
  split; [intros s; destruct s; vm_compute; reflexivity|].
  split.
  { intros v s. unfold FlightStatus_of_value.
    destruct (find _ _) as [m|] eqn:E; [|discriminate].
    intros [= <-]. apply find_some in E. destruct E as [_ E].
    apply str_eqb_eq in E. exact E. }
  split.
  { intros v e. unfold FlightStatus_of_value.
    destruct (find _ _) as [m|] eqn:E; [discriminate|].
    intros [= <-]. split; [reflexivity|]. intros s Hs.
    pose proof (find_none _ _ E s (FlightStatus_member s)) as Hn.
    cbv beta in Hn. rewrite (proj2 (str_eqb_eq _ _) Hs) in Hn.
    discriminate. }
  split; [intros t; destruct t; vm_compute; reflexivity|].
  split.
  { intros v t. unfold FlightType_of_value.
    destruct (find _ _) as [m|] eqn:E; [|discriminate].
    intros [= <-]. apply find_some in E. destruct E as [_ E].
    apply str_eqb_eq in E. exact E. }
  intros v e. unfold FlightType_of_value.
  destruct (find _ _) as [m|] eqn:E; [discriminate|].
  intros [= <-]. split; [reflexivity|]. intros t Ht.
  pose proof (find_none _ _ E t (FlightType_member t)) as Hn.
  cbv beta in Hn. rewrite (proj2 (str_eqb_eq _ _) Ht) in Hn.
  discriminate.
Qed.

(* ------------------------------------------------------------------ *)
(** * The base time and the draws *)

(** A record with its three times mapped through [f]. *)
Definition retime (f : datetime -> datetime) (r : FlightRecord)
  : FlightRecord :=
  {| flight_id := flight_id r;
     flight_type := flight_type r;
     airline := airline r;
     airline_code := airline_code r;
     flight_number := flight_number r;
     origin_airport := origin_airport r;
     destination_airport := destination_airport r;
     scheduled_time := f (scheduled_time r);
     estimated_time := option_map f (estimated_time r);
     actual_time := option_map f (actual_time r);
     status := status r;
     gate := gate r;
     terminal := terminal r;
     aircraft_type := aircraft_type r;
     delay_minutes := delay_minutes r |}.

(** The time [t] of a run from [bt], in the run from [bt']. *)
Definition rebase (bt bt' t : datetime) : datetime :=
  mk_datetime (ticks t + (ticks bt' - ticks bt)) (tzinfo bt').

Section BaseTime.
Context {R : Random} {U : UnicodeData}.

Lemma add_minutes_rebase (bt bt' d d' : datetime) (m : Z) :
  tzinfo d = tzinfo bt ->
  add_minutes d m = Ok d' ->
  forall e',
    add_minutes (rebase bt bt' d) m = Ok e' ->
    e' = rebase bt bt' d' /\ tzinfo d' = tzinfo bt.
Proof.
  intros Htz H e' H'. apply add_minutes_inv in H, H'.
  destruct H as [-> _]. destruct H' as [-> _].
  unfold rebase. cbn [ticks tzinfo]. split; [f_equal; lia|exact Htz].
Qed.

Lemma make_record_draws_rebase (bt bt' : datetime) s r s1 r' s1' :
  make_record_draws bt s = Ok (r, s1) ->
  make_record_draws bt' s = Ok (r', s1') ->
  s1' = s1 /\ r' = retime (rebase bt bt') r.
Proof.
  unfold make_record_draws. intros H H'.
  apply bindR_inv in H. destruct H as ([nm cd] & t1 & E1 & H).
  rewrite (bindR_ok _ _ _ _ _ E1) in H'. cbv beta iota in H, H'.
  apply bindR_inv in H. destruct H as (fn & t2 & E2 & H).
  rewrite (bindR_ok _ _ _ _ _ E2) in H'.
  apply bindR_inv in H. destruct H as (picked & t3 & E3 & H).
  rewrite (bindR_ok _ _ _ _ _ E3) in H'.
  apply bindR_inv in H. destruct H as ([o d] & t4 & E4 & H).
  rewrite (bindR_ok _ _ _ _ _ E4) in H'. cbv beta iota in H, H'.
  apply bindR_inv in H. destruct H as (ft & t5 & E5 & H).
  rewrite (bindR_ok _ _ _ _ _ E5) in H'.
  apply bindR_inv in H. destruct H as (off & t6 & E6 & H).
  rewrite (bindR_ok _ _ _ _ _ E6) in H'.
  apply bindR_inv in H. destruct H as (sched & t7 & E7 & H).
  apply bindR_inv in H'. destruct H' as (sched' & t7' & E7' & H').
  unfold lift in E7, E7'.
  destruct (add_minutes bt off) as [x|] eqn:A; [|discriminate].
  destruct (add_minutes bt' off) as [x'|] eqn:A'; [|discriminate].
  injection E7 as -> ->. injection E7' as -> ->.
  assert (Hs : sched' = rebase bt bt' sched /\ tzinfo sched = tzinfo bt).
  { apply add_minutes_inv in A, A'. destruct A as [-> _].
    destruct A' as [-> _]. unfold rebase. cbn [ticks tzinfo].
    split; [f_equal; lia|reflexivity]. }
  destruct Hs as [-> Htz].
  apply bindR_inv in H. destruct H as (drawn & t8 & E8 & H).
  rewrite (bindR_ok _ _ _ _ _ E8) in H'.
  apply bindR_inv in H. destruct H as (st & t9 & E9 & H).
  rewrite (bindR_ok _ _ _ _ _ E9) in H'.
  apply bindR_inv in H. destruct H as (delay & t10 & E10 & H).
  rewrite (bindR_ok _ _ _ _ _ E10) in H'.
  apply bindR_inv in H. destruct H as (est & t11 & E11 & H).
  apply bindR_inv in H'. destruct H' as (est' & t11' & E11' & H').
  unfold lift in E11, E11'.
  assert (He : est' = option_map (rebase bt bt') est /\ t11' = t11).
  { destruct (delay =? 0).
    - injection E11 as <- <-. injection E11' as <- <-. auto.
    - destruct (add_minutes sched delay) as [e|] eqn:B; cbn [bind] in E11;
        [|discriminate].
      destruct (add_minutes (rebase bt bt' sched) delay) as [e'|] eqn:B';
        cbn [bind] in E11'; [|discriminate].
      injection E11 as <- <-. injection E11' as <- <-.
      destruct (add_minutes_rebase bt bt' sched e delay Htz B e' B')
        as [-> _].
      auto. }
  destruct He as [-> ->].
  apply bindR_inv in H. destruct H as (gl & t12 & E12 & H).
  rewrite (bindR_ok _ _ _ _ _ E12) in H'.
  apply bindR_inv in H. destruct H as (gn & t13 & E13 & H).
  rewrite (bindR_ok _ _ _ _ _ E13) in H'.
  apply bindR_inv in H. destruct H as (term & t14 & E14 & H).
  rewrite (bindR_ok _ _ _ _ _ E14) in H'.
  apply bindR_inv in H. destruct H as (ac & t15 & E15 & H).
  rewrite (bindR_ok _ _ _ _ _ E15) in H'.
  unfold lift in H, H'.
  match type of H with
  | context [FlightRecord_new ?kw] =>
      destruct (field_constraints kw) eqn:Ec;
      [rewrite (FlightRecord_new_ok kw Ec) in H
      |rewrite (FlightRecord_new_err kw Ec) in H; discriminate]
  end.
  match type of H' with
  | context [FlightRecord_new ?kw] =>
      destruct (field_constraints kw) eqn:Ec';
      [rewrite (FlightRecord_new_ok kw Ec') in H'
      |rewrite (FlightRecord_new_err kw Ec') in H'; discriminate]
  end.
  injection H as <- <-. injection H' as <- <-.
  split; [reflexivity|].
  unfold retime, normalized.
  cbn [flight_id flight_type airline airline_code flight_number
       origin_airport destination_airport scheduled_time estimated_time
       actual_time status gate terminal aircraft_type delay_minutes].
  f_equal.
  destruct st, est; reflexivity.
Qed.

Lemma stream_loop_rebase (k : nat) :
  forall g g' rs g1 rs' g1',
    rng g' = rng g ->
    stream_loop k g = Ok (rs, g1) ->
    stream_loop k g' = Ok (rs', g1') ->
    rs' = map (retime (rebase (base_time g) (base_time g'))) rs.
Proof.
  induction k as [|k IH]; intros g g' rs g1 rs' g1' Hrng H H';
    cbn [stream_loop] in H, H'.
  - injection H as <- _. injection H' as <- _. reflexivity.
  - unfold _make_record in H, H'. rewrite Hrng in H'.
    destruct (make_record_draws (base_time g) (rng g)) as [[r s]|e] eqn:E;
      cbn [bind] in H; [|discriminate].
    destruct (make_record_draws (base_time g') (rng g)) as [[r' s']|e] eqn:E';
      cbn [bind] in H'; [|discriminate].
    destruct (make_record_draws_rebase _ _ _ _ _ _ _ E E') as [-> ->].
    destruct (stream_loop k _) as [[rest g2]|e] eqn:L in H; cbn [bind] in H;
      [|discriminate].
    destruct (stream_loop k _) as [[rest' g2']|e] eqn:L' in H';
      cbn [bind] in H'; [|discriminate].
    injection H as <- _. injection H' as <- _. cbn [map]. f_equal.
    exact (IH {| seed := seed g; rng := s; base_time := base_time g |}
              {| seed := seed g'; rng := s; base_time := base_time g' |}
              _ _ _ _ eq_refl L L').
Qed.

(** X24. The draws do not depend on the base time: two generators of one
    seed at different base times that both deliver [n] records deliver the
    same records but for their times, and a time of one run is the time of
    the other moved by the difference of the base times (and given the
    other base time's [tzinfo]). *)
Theorem generate_rebased (seed n : Z) (bt bt' now now' : datetime)
  (rs rs' : list FlightRecord) :
  records_of (generate (__init__ seed (Some bt) now) n) = Ok rs ->
  records_of (generate (__init__ seed (Some bt') now') n) = Ok rs' ->
  rs' = map (retime (rebase bt bt')) rs.
Proof.
  intros H H'. apply records_of_inv in H, H'.
  destruct H as (g1 & H). destruct H' as (g1' & H').
  unfold generate, stream in H, H'.
  exact (stream_loop_rebase _ (__init__ seed (Some bt) now)
           (__init__ seed (Some bt') now') _ _ _ _ eq_refl H H').
Qed.

End BaseTime.

(* ------------------------------------------------------------------ *)
(** * More on the NDJSON codec *)















(** Whatever the lines are, one that is read is one that is counted. *)
Lemma read_lines_count (lines : list str) :
  forall acc ds,
    read_lines lines acc = Ok ds ->
    forall count,
      count_nonempty lines count = count + zlen ds - zlen acc.
Proof.
  induction lines as [|l lines IH]; intros acc ds H count.
  - cbn in H. injection H as <-. cbn. lia.
  - cbn [read_lines count_nonempty] in *.
    destruct (strip l) as [|c line]; [apply (IH _ _ H)|].
    destruct (loads (c :: line)) as [d|e]; cbn [bind] in H; [|discriminate].
    rewrite (IH _ _ H). unfold zlen. rewrite length_app. cbn [length]. lia.
Qed.

Section CodecDetails.
Context {F : DatetimeFormat}.









(** X13. On any file, whatever it holds: when [read_ndjson_file] returns,
    [count_lines] returns the number of dicts it returned. *)
Theorem count_lines_matches_read (p : path) (f : fs) (ds : list value) :
  read_ndjson_file p f = Ok ds -> count_lines p f = Ok (zlen ds).
Proof.
  unfold read_ndjson_file, count_lines.
  destruct (read_text f p) as [content|e]; cbn [bind]; [|discriminate].
  intros H. rewrite (read_lines_count _ _ _ H). f_equal. unfold zlen.
  cbn [length]. lia.
Qed.



End CodecDetails.

(* ------------------------------------------------------------------ *)
(** * The in-memory buffer *)

(** A code point UTF-8 has bytes for: any but a surrogate. *)
Definition encodable (c : char) : bool :=
  negb ((55296 <=? c) && (c <=? 57343))%N.

Lemma encode_char_ok (c : char) :
  encodable c = true -> exists b, Utf8.encode_char c = Ok b.
Proof.
  unfold encodable, Utf8.encode_char. intros H.
  destruct (c <? 128)%N; [eauto|]. destruct (c <? 2048)%N; [eauto|].
  apply negb_true_iff in H. rewrite H.
  destruct (c <? 65536)%N; eauto.
Qed.

Lemma encode_ok (s : str) :
  forallb encodable s = true -> exists bs, Utf8.encode s = Ok bs.
Proof.
  induction s as [|c s IH]; intros H; [exists []; reflexivity|].
  cbn [forallb] in H. apply andb_true_iff in H. destruct H as [Hc Hs].
  destruct (encode_char_ok c Hc) as (b & Eb).
  destruct (IH Hs) as (bs & Ebs).
  exists (b ++ bs). cbn [Utf8.encode]. rewrite Eb. cbn [bind].
  rewrite Ebs. reflexivity.
Qed.

Lemma encode_app_inv (a b : str) :
  forall bs,
    Utf8.encode (a ++ b) = Ok bs ->
    exists ea eb,
      Utf8.encode a = Ok ea /\ Utf8.encode b = Ok eb /\ bs = ea ++ eb.
Proof.
  induction a as [|c a IH]; intros bs H.
  - exists [], bs. auto.
  - cbn [app Utf8.encode] in *.
    destruct (Utf8.encode_char c) as [ec|e]; cbn [bind] in *; [|discriminate].
    destruct (Utf8.encode (a ++ b)) as [er|e] eqn:E; cbn [bind] in *;
      [|discriminate].
    injection H as <-. destruct (IH er eq_refl) as (ea & eb & Ea & Eb & ->).
    exists (ec ++ ea), eb. rewrite Ea. cbn [bind].
    rewrite app_assoc. auto.
Qed.

Lemma high_bytes_count_nl (l : list Utf8.byte) :
  Forall (fun x => (128 <= x)%N) l -> count_occ N.eq_dec l 10%N = 0%nat.
Proof.
  induction 1 as [|x l Hx Hall IH]; [reflexivity|].
  cbn [count_occ]. destruct (N.eq_dec x 10); [lia|exact IH].
Qed.

Lemma Ok_inj {A : Type} (a b : A) : (Ok a : result A) = Ok b -> a = b.
Proof. congruence. Qed.

Lemma high_byte (k x : N) : (128 <= k)%N -> (128 <= k + x)%N.
Proof. lia. Qed.

(** A line feed is the one code point whose bytes hold the byte 10. *)
Lemma encode_char_count_nl (c : char) (b : list Utf8.byte) :
  Utf8.encode_char c = Ok b ->
  count_occ N.eq_dec b 10%N = count_occ N.eq_dec [c] 10%N.
Proof.
  unfold Utf8.encode_char.
  destruct (N.ltb_spec c 128); [intros H1; injection H1 as <-; reflexivity|].
  assert (Hc : count_occ N.eq_dec [c] 10%N = 0%nat).
  { cbn [count_occ]. destruct (N.eq_dec c 10); [lia|reflexivity]. }
  rewrite Hc. clear Hc.
  destruct (c <? 2048)%N;
    [intros H1; apply Ok_inj in H1; subst b; apply high_bytes_count_nl;
     repeat (apply Forall_cons; [apply high_byte; lia|]); constructor|].
  destruct ((55296 <=? c) && (c <=? 57343))%N; [discriminate|].
  destruct (c <? 65536)%N;
    intros H1; apply Ok_inj in H1; subst b; apply high_bytes_count_nl;
    repeat (apply Forall_cons; [apply high_byte; lia|]); constructor.
Qed.

Lemma encode_count_nl (s : str) :
  forall bs,
    Utf8.encode s = Ok bs ->
    count_occ N.eq_dec bs 10%N = count_occ N.eq_dec s 10%N.
Proof.
  induction s as [|c s IH]; intros bs H.
  - cbn in H. injection H as <-. reflexivity.
  - cbn [Utf8.encode] in H.
    destruct (Utf8.encode_char c) as [ec|e] eqn:Ec; cbn [bind] in H;
      [|discriminate].
    destruct (Utf8.encode s) as [er|e]; cbn [bind] in H; [|discriminate].
    apply Ok_inj in H. subst bs.
    change (c :: s) with ([c] ++ s). rewrite !count_occ_app.
    f_equal; [exact (encode_char_count_nl c ec Ec)|exact (IH er eq_refl)].
Qed.

Lemma write_at_end (buf : BytesIO.t) (b : list Utf8.byte) :
  BytesIO.tell buf = length (BytesIO.getvalue buf) ->
  BytesIO.write buf b
  = BytesIO.mk (BytesIO.getvalue buf ++ b)
      (length (BytesIO.getvalue buf ++ b)).
Proof.
  intros H. unfold BytesIO.write. rewrite H, firstn_all, Nat.sub_diag.
  cbn [repeat app]. rewrite skipn_all2 by lia.
  rewrite app_nil_r, length_app. reflexivity.
Qed.

Section BufferDetails.
Context {F : DatetimeFormat}.

Lemma buffer_records_spec (records : list FlightRecord) :
  forall buf bs,
    BytesIO.tell buf = length (BytesIO.getvalue buf) ->
    Utf8.encode (ndjson_text records) = Ok bs ->
    buffer_records records buf
    = Ok (BytesIO.mk (BytesIO.getvalue buf ++ bs)
            (length (BytesIO.getvalue buf ++ bs))).
Proof.
  induction records as [|r rs IH]; intros buf bs Hend H.
  - cbn in H. injection H as <-. cbn [buffer_records].
    rewrite app_nil_r, <- Hend. destruct buf. reflexivity.
  - unfold ndjson_text in H. cbn [map concat] in H.
    apply encode_app_inv in H. destruct H as (ea & eb & Ea & Eb & ->).
    cbn [buffer_records]. rewrite Ea. cbn [bind].
    rewrite (write_at_end buf ea Hend).
    rewrite (IH (BytesIO.mk (BytesIO.getvalue buf ++ ea)
                   (length (BytesIO.getvalue buf ++ ea))) eb eq_refl Eb).
    cbn [BytesIO.getvalue].
    rewrite <- app_assoc. reflexivity.
Qed.

Lemma ndjson_text_count_nl (records : list FlightRecord) :
  count_occ N.eq_dec (ndjson_text records) 10%N = length records.
Proof.
  induction records as [|r rs IH]; [reflexivity|].
  unfold ndjson_text in *. cbn [map concat length].
  rewrite !count_occ_app.
  assert (H0 : count_occ N.eq_dec (record_to_json_line r) 10%N = 0%nat).
  { apply count_occ_not_In. intros Hin.
    pose proof (proj1 (Forall_forall _ _) (record_line_printable r) _ Hin)
      as Hc.
    cbv beta in Hc. lia. }
  change (S (length rs)) with ((0 + 1) + length rs)%nat.
  apply (f_equal2 Nat.add);
    [apply (f_equal2 Nat.add); [exact H0|reflexivity]|exact IH].
Qed.

(** X16. When no text of the records holds a surrogate,
    [stream_to_buffer] returns a buffer that holds the UTF-8 bytes of what
    [records_to_ndjson] returns for the same records, rewound to position
    0 so that reading gives all of them, with one byte 10 per record. *)
Theorem stream_to_buffer_bytes (records : list FlightRecord) :
  forallb encodable (records_to_ndjson records) = true ->
  exists bs,
    Utf8.encode (records_to_ndjson records) = Ok bs
    /\ stream_to_buffer records = Ok (BytesIO.mk bs 0)
    /\ fst (BytesIO.read (BytesIO.mk bs 0)) = bs
    /\ count_occ N.eq_dec bs 10%N = length records.
Proof.
  intros H. destruct (encode_ok _ H) as (bs & E). exists bs.
  split; [exact E|]. rewrite records_to_ndjson_text in E.
  split; [|split].
  - unfold stream_to_buffer.
    rewrite (buffer_records_spec records BytesIO.new bs eq_refl E).
    reflexivity.
  - reflexivity.
  - rewrite (encode_count_nl _ _ E). apply ndjson_text_count_nl.
Qed.

End BufferDetails.

(* ------------------------------------------------------------------ *)
(** * The filter of the dashboard *)

Lemma placeholders_count (values : list str) :
  count_occ N.eq_dec (placeholders values) 63%N = length values.
Proof.
  unfold placeholders. induction values as [|v vs IH]; [reflexivity|].
  destruct vs as [|v2 vs]; [reflexivity|].
  change (join (lit ", ") (map (fun _ => lit "?") (v :: v2 :: vs)))
    with (lit "?" ++ lit ", "
          ++ join (lit ", ") (map (fun _ => lit "?") (v2 :: vs))).
  rewrite !count_occ_app.
  change (length (v :: v2 :: vs)) with (1 + (0 + length (v2 :: vs)))%nat.
  apply (f_equal2 Nat.add); [reflexivity|].
  apply (f_equal2 Nat.add); [reflexivity|exact IH].
Qed.

Lemma placeholders_length (a b : list str) :
  length a = length b -> placeholders a = placeholders b.
Proof.
  intros H. unfold placeholders. f_equal.
  revert b H. induction a as [|x a IH]; intros [|y b] H;
    try discriminate; [reflexivity|].
  cbn [map]. f_equal. apply IH. injection H as H. exact H.
Qed.

Ltac lit_counts :=
  repeat match goal with
         | |- context [count_occ N.eq_dec (lit ?s) ?c] =>
             let v := eval vm_compute in (count_occ N.eq_dec (lit s) c) in
             change (count_occ N.eq_dec (lit s) c) with v
         end.

(** X17. The WHERE clause the dashboard builds holds one [?] for each
    parameter it passes with it, the parameters are the selected airlines
    followed by the selected routes, the clause is empty exactly when
    nothing is selected, and its text depends on how many values are
    selected only, not on the values. *)
Theorem build_where_placeholders (airline_values route_values : list str) :
  snd (build_where airline_values route_values)
  = airline_values ++ route_values
  /\ count_occ N.eq_dec (fst (build_where airline_values route_values)) 63%N
     = length (snd (build_where airline_values route_values))
  /\ (fst (build_where airline_values route_values) = []
      <-> airline_values = [] /\ route_values = [])
  /\ (forall airline_values' route_values',
        length airline_values' = length airline_values ->
        length route_values' = length route_values ->
        fst (build_where airline_values' route_values')
        = fst (build_where airline_values route_values)).
Proof.
  split; [|split; [|split]].
  - destruct airline_values, route_values; cbn [build_where snd app];
      rewrite ?app_nil_r; reflexivity.
  - destruct airline_values as [|a av], route_values as [|r rv];
      cbn [build_where fst snd app join]; [reflexivity| | |].
    + rewrite !count_occ_app, placeholders_count. lit_counts. lia.
    + rewrite !count_occ_app, placeholders_count, ?app_nil_r.
      lit_counts. lia.
    + rewrite !count_occ_app, !placeholders_count. cbn [length].
      rewrite ?length_app. cbn [length]. lit_counts. lia.
  - destruct airline_values, route_values; cbn [build_where fst app join];
      split; try discriminate; try tauto;
      intros [? ?]; discriminate.
  - intros av' rv' Ha Hr.
    destruct airline_values as [|a av], av' as [|a' av']; try discriminate;
      destruct route_values as [|r rv], rv' as [|r' rv']; try discriminate;
      cbn [build_where fst app join]; try reflexivity;
      rewrite ?(placeholders_length (a' :: av') (a :: av) Ha),
        ?(placeholders_length (r' :: rv') (r :: rv) Hr); reflexivity.
Qed.

(* ------------------------------------------------------------------ *)
(** * The Iceberg schema and the coercion of Arrow tables *)

Section Dicts.
Context {V : Type}.

Lemma setitem_fresh (d : list (str * V)) (k : str) (v : V) :
  ~ In k (map fst d) -> Arrow.setitem d k v = d ++ [(k, v)].
Proof.
  induction d as [|[k' v'] d IH]; intros H; [reflexivity|].
  cbn [Arrow.setitem map fst In] in *.
  destruct (Str.eqb k' k) eqn:E.
  - apply str_eqb_eq in E. tauto.
  - rewrite IH by tauto. reflexivity.
Qed.

Lemma setitem_keys (d : list (str * V)) (k : str) (v : V) :
  In k (map fst d) -> map fst (Arrow.setitem d k v) = map fst d.
Proof.
  induction d as [|[k' v'] d IH]; intros H; [contradiction|].
  cbn [Arrow.setitem map fst In] in *.
  destruct (Str.eqb k' k) eqn:E; [reflexivity|].
  destruct H as [H|H]; [apply str_eqb_eq in H; congruence|].
  cbn [map fst]. rewrite IH by exact H. reflexivity.
Qed.

Lemma setitem_In (d : list (str * V)) (k : str) (v : V) (kv : str * V) :
  In kv (Arrow.setitem d k v) -> In kv d \/ kv = (k, v).
Proof.
  induction d as [|[k' v'] d IH]; cbn [Arrow.setitem In].
  - intros [H|[]]. right. congruence.
  - destruct (Str.eqb k' k) eqn:E; cbn [In].
    + apply str_eqb_eq in E. subst k'. intros [H|H]; [right; congruence|tauto].
    + intros [H|H]; [tauto|]. destruct (IH H); tauto.
Qed.

Lemma setitem_NoDup (d : list (str * V)) (k : str) (v : V) :
  NoDup (map fst d) -> NoDup (map fst (Arrow.setitem d k v)).
Proof.
  intros H. destruct (in_dec (list_eq_dec N.eq_dec) k (map fst d)) as [Hin|Hn].
  - rewrite setitem_keys by exact Hin. exact H.
  - rewrite setitem_fresh by exact Hn. rewrite map_app. cbn [map fst].
    apply NoDup_app; [exact H|repeat constructor; intros []|].
    intros x Hx [<-|[]]. contradiction.
Qed.

(** The dict of a list of items. *)
Definition dict_of (items acc : list (str * V)) : list (str * V) :=
  fold_left (fun d fc => Arrow.setitem d (fst fc) (snd fc)) items acc.

Lemma dict_of_NoDup (items : list (str * V)) :
  forall acc, NoDup (map fst acc) -> NoDup (map fst (dict_of items acc)).
Proof.
  induction items as [|[k v] items IH]; intros acc H; [exact H|].
  cbn [dict_of fold_left]. apply IH, setitem_NoDup, H.
Qed.

Lemma dict_of_In (items : list (str * V)) (kv : str * V) :
  forall acc, In kv (dict_of items acc) -> In kv acc \/ In kv items.
Proof.
  induction items as [|[k v] items IH]; intros acc H; [tauto|].
  cbn [dict_of fold_left] in H. apply IH in H.
  destruct H as [H|H]; [|right; right; exact H].
  apply setitem_In in H. cbn [fst snd] in H.
  destruct H as [H|H]; [tauto|]. right. left. congruence.
Qed.

Lemma dict_of_fresh (items : list (str * V)) :
  forall acc,
    NoDup (map fst (acc ++ items)) -> dict_of items acc = acc ++ items.
Proof.
  induction items as [|[k v] items IH]; intros acc H.
  - rewrite app_nil_r. reflexivity.
  - cbn [dict_of fold_left fst snd].
    change (fold_left (fun d fc => Arrow.setitem d (fst fc) (snd fc)) items
              (Arrow.setitem acc k v))
      with (dict_of items (Arrow.setitem acc k v)).
    assert (Hk : ~ In k (map fst acc)).
    { rewrite map_app in H. cbn [map fst] in H.
      apply NoDup_remove_2 in H. intros Hin. apply H.
      apply in_or_app. left. exact Hin. }
    rewrite (setitem_fresh acc k v Hk).
    rewrite IH; rewrite <- app_assoc; [reflexivity|exact H].
Qed.

End Dicts.

Lemma DataType_eqb_eq (a b : Arrow.DataType) :
  Arrow.DataType_eqb a b = true <-> a = b.
Proof.
  destruct a, b; cbn; split; try congruence; try discriminate.
  - intros H. apply str_eqb_eq in H. congruence.
  - intros [= ->]. apply str_eqb_eq. reflexivity.
Qed.

(** The Arrow type the catalog wants for a field of the schema. *)
Definition target (f : Iceberg.NestedField) : Arrow.DataType :=
  match Iceberg.field_type f with
  | Iceberg.LongType => Arrow.int64
  | Iceberg.StringType => Arrow.string
  end.

Lemma lookup_fields (fields : list Iceberg.NestedField) (n : str) :
  (forall f, In f fields -> Iceberg.name f <> n) ->
  Arrow.lookup (map (fun f => (Iceberg.name f, target f)) fields) n = None.
Proof.
  induction fields as [|f fields IH]; intros H; [reflexivity|].
  cbn [map Arrow.lookup]. destruct (Str.eqb (Iceberg.name f) n) eqn:E.
  - apply str_eqb_eq in E. exfalso. apply (H f); [left; reflexivity|exact E].
  - apply IH. intros g Hg. apply H. right. exact Hg.
Qed.

Section CoerceDetails.
Context {A : ArrowArrays}.

Lemma type_map_fields :
  _ICEBERG_TYPE_MAP
  = map (fun f => (Iceberg.name f, target f)) Iceberg.FLIGHT_ICEBERG_SCHEMA.
Proof. reflexivity. Qed.

Lemma type_map_field (f : Iceberg.NestedField) :
  In f Iceberg.FLIGHT_ICEBERG_SCHEMA ->
  Arrow.lookup _ICEBERG_TYPE_MAP (Iceberg.name f) = Some (target f).
Proof.
  intros H. rewrite type_map_fields.
  unfold Iceberg.FLIGHT_ICEBERG_SCHEMA in H. cbn [In] in H.
  repeat (destruct H as [<-|H]; [reflexivity|]). contradiction.
Qed.

Lemma type_map_inv (n : str) (t : Arrow.DataType) :
  Arrow.lookup _ICEBERG_TYPE_MAP n = Some t ->
  exists f, In f Iceberg.FLIGHT_ICEBERG_SCHEMA /\ Iceberg.name f = n
            /\ target f = t.
Proof.
  rewrite type_map_fields.
  induction Iceberg.FLIGHT_ICEBERG_SCHEMA as [|f fields IH];
    cbn [map Arrow.lookup]; [discriminate|].
  destruct (Str.eqb (Iceberg.name f) n) eqn:E.
  - intros [= <-]. apply str_eqb_eq in E. exists f. cbn [In]. auto.
  - intros H. destruct (IH H) as (g & Hg & Hn & Ht). exists g. cbn [In]. auto.
Qed.

(** A column is as the schema wants it. *)
Definition conforms (nc : str * Column) : Prop :=
  forall f, In f Iceberg.FLIGHT_ICEBERG_SCHEMA ->
            Iceberg.name f = fst nc -> type (snd nc) = target f.

Lemma coerce_column_spec (n : str) (c c' : Column) :
  coerce_column n c = Ok c' ->
  conforms (n, c')
  /\ length (cells c') = length (cells c)
  /\ (conforms (n, c) -> c' = c)
  /\ ((forall f, In f Iceberg.FLIGHT_ICEBERG_SCHEMA -> Iceberg.name f <> n) ->
      c' = c).
Proof.
  unfold coerce_column, conforms. cbn [fst snd].
  destruct (Arrow.lookup _ICEBERG_TYPE_MAP n) as [t|] eqn:El.
  - destruct (type_map_inv n t El) as (f0 & Hf0 & Hn0 & Ht0).
    assert (Hall : forall f, In f Iceberg.FLIGHT_ICEBERG_SCHEMA ->
                             Iceberg.name f = n -> target f = t).
    { intros f Hf Hn. rewrite <- Hn in El. rewrite (type_map_field f Hf) in El.
      congruence. }
    destruct (Arrow.DataType_eqb (type c) t) eqn:Et; cbn [negb].
    + apply DataType_eqb_eq in Et. intros [= <-].
      split; [intros f Hf Hn; rewrite (Hall f Hf Hn); exact Et|].
      split; [reflexivity|]. split; [reflexivity|]. reflexivity.
    + assert (Hne : type c <> t).
      { intros H. apply DataType_eqb_eq in H. congruence. }
      assert (Hrest : forall c1 : Column,
                 type c1 = t -> length (cells c1) = length (cells c) ->
                 (forall f, In f Iceberg.FLIGHT_ICEBERG_SCHEMA ->
                            Iceberg.name f = n -> type c1 = target f)
                 /\ length (cells c1) = length (cells c)
                 /\ ((forall f, In f Iceberg.FLIGHT_ICEBERG_SCHEMA ->
                                Iceberg.name f = n -> type c = target f) ->
                     c1 = c)
                 /\ ((forall f, In f Iceberg.FLIGHT_ICEBERG_SCHEMA ->
                                Iceberg.name f <> n) -> c1 = c)).
      { intros c1 Ht Hl.
        split; [intros f Hf Hn; rewrite (Hall f Hf Hn); exact Ht|].
        split; [exact Hl|]. split.
        - intros H. exfalso. apply Hne. rewrite (H f0 Hf0 Hn0). exact Ht0.
        - intros H. exfalso. apply (H f0 Hf0 Hn0). }
      destruct (Arrow.DataType_eqb (type c) Arrow.null).
      * intros [= <-]. apply Hrest; [reflexivity|].
        cbn [cells]. apply repeat_length.
      * destruct (cast (type c) t (cells c)) as [cs|e] eqn:Ec;
          cbn [bind]; [|discriminate].
        intros [= <-]. apply Hrest; [reflexivity|].
        cbn [cells]. eapply cast_length. exact Ec.
  - intros [= <-]. split.
    + intros f Hf Hn. rewrite <- Hn, (type_map_field f Hf) in El.
      discriminate.
    + auto.
Qed.

Lemma coerce_column_conforming (n : str) (c : Column) :
  conforms (n, c) -> coerce_column n c = Ok c.
Proof.
  unfold coerce_column, conforms. cbn [fst snd]. intros H.
  destruct (Arrow.lookup _ICEBERG_TYPE_MAP n) as [t|] eqn:El; [|reflexivity].
  destruct (type_map_inv n t El) as (f0 & Hf0 & Hn0 & Ht0).
  rewrite (proj2 (DataType_eqb_eq (type c) t));
    [reflexivity|rewrite (H f0 Hf0 Hn0); exact Ht0].
Qed.

Lemma coerce_columns_spec (t : Table) :
  forall cols,
    coerce_columns t = Ok cols ->
    Forall2 (fun a b =>
               fst b = fst a /\ conforms b
               /\ length (cells (snd b)) = length (cells (snd a))
               /\ (conforms a -> b = a)
               /\ ((forall f, In f Iceberg.FLIGHT_ICEBERG_SCHEMA ->
                              Iceberg.name f <> fst a) -> b = a)) t cols.
Proof.
  induction t as [|[n c] t IH]; intros cols H; cbn [coerce_columns] in H.
  - injection H as <-. constructor.
  - destruct (coerce_column n c) as [c'|e] eqn:Ec; cbn [bind] in H;
      [|discriminate].
    destruct (coerce_columns t) as [r|e]; cbn [bind] in H; [|discriminate].
    injection H as <-. constructor; [|apply IH; reflexivity].
    destruct (coerce_column_spec n c c' Ec) as (H1 & H2 & H3 & H4).
    cbn [fst snd]. split; [reflexivity|]. split; [exact H1|].
    split; [exact H2|]. split; intros H; f_equal; auto.
Qed.

Lemma coerce_columns_conforming (t : Table) :
  Forall conforms t -> coerce_columns t = Ok t.
Proof.
  induction 1 as [|[n c] t Hc Hall IH]; [reflexivity|].
  cbn [coerce_columns]. rewrite (coerce_column_conforming n c Hc).
  cbn [bind]. rewrite IH. reflexivity.
Qed.

Lemma coerce_columns_names (t cols : Table) :
  coerce_columns t = Ok cols -> map fst cols = map fst t.
Proof.
  intros H. apply coerce_columns_spec in H.
  induction H as [|a b t cols (Hn & _) Hall IH]; [reflexivity|].
  cbn [map]. rewrite Hn, IH. reflexivity.
Qed.

(** X18. In the table [_coerce_arrow_schema] returns, every column that
    bears the name of a field of the Iceberg schema has the Arrow type of
    that field, int64 for a LongType field and string for a StringType
    one, and no two columns bear the same name. *)
Theorem coerce_conforms (t t' : Table) :
  _coerce_arrow_schema t = Ok t' ->
  NoDup (map fst t')
  /\ Forall (fun nc =>
               forall f, In f Iceberg.FLIGHT_ICEBERG_SCHEMA ->
                         Iceberg.name f = fst nc ->
                         type (snd nc)
                         = match Iceberg.field_type f with
                           | Iceberg.LongType => Arrow.int64
                           | Iceberg.StringType => Arrow.string
                           end) t'.
Proof.
  unfold _coerce_arrow_schema.
  destruct (coerce_columns t) as [cols|e] eqn:E; cbn [bind]; [|discriminate].
  intros [= <-]. split; [apply (dict_of_NoDup cols []); constructor|].
  apply coerce_columns_spec in E. apply Forall_forall. intros nc Hin.
  apply (dict_of_In cols nc []) in Hin. destruct Hin as [[]|Hin].
  clear -E Hin. induction E as [|a b t cols (_ & Hc & _) Hall IH];
    [contradiction|].
  destruct Hin as [<-|Hin]; [exact Hc|exact (IH Hin)].
Qed.

(** X19. On a table whose columns bear different names,
    [_coerce_arrow_schema] keeps the names and their order and the number
    of cells of every column, and returns a column as it was when no field
    of the schema bears its name or when it had the field's type
    already. *)
Theorem coerce_keeps_shape (t t' : Table) :
  NoDup (map fst t) ->
  _coerce_arrow_schema t = Ok t' ->
  map fst t' = map fst t
  /\ Forall2 (fun a b =>
                length (cells (snd b)) = length (cells (snd a))
                /\ ((forall f, In f Iceberg.FLIGHT_ICEBERG_SCHEMA ->
                               Iceberg.name f <> fst a) -> b = a)
                /\ ((forall f, In f Iceberg.FLIGHT_ICEBERG_SCHEMA ->
                               Iceberg.name f = fst a ->
                               type (snd a) = target f) -> b = a)) t t'.
Proof.
  intros Hnd. unfold _coerce_arrow_schema.
  destruct (coerce_columns t) as [cols|e] eqn:E; cbn [bind]; [|discriminate].
  intros [= <-]. pose proof (coerce_columns_names t cols E) as Hn.
  change (fold_left (fun d fc => Arrow.setitem d (fst fc) (snd fc)) cols [])
    with (dict_of cols []).
  rewrite (dict_of_fresh cols []) by (cbn [app]; rewrite Hn; exact Hnd).
  cbn [app]. split; [exact Hn|].
  apply coerce_columns_spec in E. eapply Forall2_impl; [|exact E].
  intros a b (_ & _ & Hl & Hc & Ho). auto.
Qed.

(** X20. Coercing is idempotent: the table [_coerce_arrow_schema] returns
    is coerced to itself, whatever the casts do. *)
Theorem coerce_idempotent (t t' : Table) :
  _coerce_arrow_schema t = Ok t' -> _coerce_arrow_schema t' = Ok t'.
Proof.
  unfold _coerce_arrow_schema.
  destruct (coerce_columns t) as [cols|e] eqn:E; cbn [bind]; [|discriminate].
  intros [= <-].
  change (fold_left (fun d fc => Arrow.setitem d (fst fc) (snd fc)) cols [])
    with (dict_of cols []).
  assert (Hnd : NoDup (map fst (dict_of cols [])))
    by (apply dict_of_NoDup; constructor).
  assert (Hall : Forall conforms (dict_of cols [])).
  { apply Forall_forall. intros nc Hin.
    apply (dict_of_In cols nc []) in Hin. destruct Hin as [[]|Hin].
    apply coerce_columns_spec in E. clear -E Hin.
    induction E as [|a b t cols (_ & Hc & _) Hall IH]; [contradiction|].
    destruct Hin as [<-|Hin]; [exact Hc|exact (IH Hin)]. }
  rewrite (coerce_columns_conforming _ Hall). cbn [bind]. f_equal.
  apply (dict_of_fresh (dict_of cols []) []). exact Hnd.
Qed.

(** X21. A table whose columns under the schema's names have the wanted
    type already or the null type (a column of nulls only, as JSON reading
    makes of an [estimated_time] that is never set) is coerced without a
    cast: the call cannot fail, and a null-typed column of a schema field
    comes out as a column of as many nulls of the field's type. *)
Theorem coerce_null_columns (t : Table) :
  NoDup (map fst t) ->
  Forall (fun nc =>
            forall f, In f Iceberg.FLIGHT_ICEBERG_SCHEMA ->
                      Iceberg.name f = fst nc ->
                      type (snd nc) = target f
                      \/ type (snd nc) = Arrow.null) t ->
  exists t',
    _coerce_arrow_schema t = Ok t'
    /\ Forall2 (fun a b =>
                  fst b = fst a
                  /\ forall f, In f Iceberg.FLIGHT_ICEBERG_SCHEMA ->
                               Iceberg.name f = fst a ->
                               type (snd a) = Arrow.null ->
                               snd b = mk_column (target f)
                                         (repeat None
                                            (length (cells (snd a))))) t t'.
Proof.
  intros Hnd Hall.
  assert (Hcols : exists cols,
             coerce_columns t = Ok cols
             /\ Forall2 (fun a b =>
                  fst b = fst a
                  /\ forall f, In f Iceberg.FLIGHT_ICEBERG_SCHEMA ->
                               Iceberg.name f = fst a ->
                               type (snd a) = Arrow.null ->
                               snd b = mk_column (target f)
                                         (repeat None
                                            (length (cells (snd a))))) t cols).
  { clear Hnd. induction Hall as [|[n c] t Hc Hall (cols & E & IH)].
    - exists []. split; [reflexivity|constructor].
    - cbn [fst snd] in Hc. cbn [coerce_columns]. unfold coerce_column.
      destruct (Arrow.lookup _ICEBERG_TYPE_MAP n) as [tt|] eqn:El.
      + destruct (type_map_inv n tt El) as (f0 & Hf0 & Hn0 & Ht0).
        assert (Hsame : forall f, In f Iceberg.FLIGHT_ICEBERG_SCHEMA ->
                                  Iceberg.name f = n -> target f = tt).
        { intros f Hf Hn. rewrite <- Hn in El.
          rewrite (type_map_field f Hf) in El. congruence. }
        destruct (Arrow.DataType_eqb (type c) tt) eqn:Et; cbn [negb].
        * cbn [bind]. rewrite E. cbn [bind]. eexists. split; [reflexivity|].
          constructor; [|exact IH]. cbn [fst snd]. split; [reflexivity|].
          intros f Hf Hn Hnull. apply DataType_eqb_eq in Et. exfalso.
          rewrite Hnull, <- Ht0 in Et. unfold target in Et.
          destruct (Iceberg.field_type f0); discriminate.
        * destruct (Hc f0 Hf0 Hn0) as [Hty|Hty].
          { exfalso. rewrite Ht0 in Hty. apply DataType_eqb_eq in Hty.
            congruence. }
          rewrite Hty. cbn [Arrow.DataType_eqb bind].
          rewrite E. cbn [bind]. eexists. split; [reflexivity|].
          constructor; [|exact IH]. cbn [fst snd]. split; [reflexivity|].
          intros f Hf Hn _. rewrite (Hsame f Hf Hn). reflexivity.
      + cbn [bind]. rewrite E. cbn [bind]. eexists. split; [reflexivity|].
        constructor; [|exact IH]. cbn [fst snd]. split; [reflexivity|].
        intros f Hf Hn _. rewrite <- Hn, (type_map_field f Hf) in El.
        discriminate. }
  destruct Hcols as (cols & E & H2). exists cols.
  unfold _coerce_arrow_schema. rewrite E. cbn [bind]. split; [|exact H2].
  f_equal.
  apply (dict_of_fresh cols []). cbn [app].
  rewrite (coerce_columns_names t cols E). exact Hnd.
Qed.

End CoerceDetails.

Section SchemaOfRecords.
Context {F : DatetimeFormat}.

(** X22. The Iceberg schema is the schema of the JSON form of a record:
    field by field, in order, the names are the keys of the dumped
    record, a LongType field holds an integer and a StringType field a
    string or a null; the field ids count from 1 to 15 and no field is
    required. *)
Theorem iceberg_schema_matches_record (r : FlightRecord) :
  Forall2 (fun f kv =>
             Iceberg.name f = fst kv
             /\ match snd kv with
                | JInt _ => Iceberg.field_type f = Iceberg.LongType
                | JStr _ | JNull =>
                    Iceberg.field_type f = Iceberg.StringType
                | _ => False
                end)
          Iceberg.FLIGHT_ICEBERG_SCHEMA (model_dump r)
  /\ map Iceberg.field_id Iceberg.FLIGHT_ICEBERG_SCHEMA
     = map Z.of_nat (seq 1 15)
  /\ Forall (fun f => Iceberg.required f = false)
            Iceberg.FLIGHT_ICEBERG_SCHEMA.
Proof.
  split; [|split; [reflexivity|repeat constructor]].
  unfold Iceberg.FLIGHT_ICEBERG_SCHEMA, model_dump, dump_optional,
    dump_datetime.
  repeat (constructor;
          [cbn [fst snd Iceberg.name Iceberg.field_type];
           split; [reflexivity|];
           try match goal with
               | |- match (match ?o with _ => _ end) with _ => _ end =>
                   destruct o
               end; reflexivity|]).
  constructor.
Qed.

End SchemaOfRecords.

(* ------------------------------------------------------------------ *)
(** * The launcher *)

Section LauncherDetails.
Variable run : list str -> Launcher.completed.
Variable environ : str -> option str.

Lemma first_with_marimo_spec (cmds : list (list str)) :
  match Launcher.first_with_marimo run cmds with
  | Launcher.Returned p =>
      exists before cmd after out,
        cmds = before ++ cmd :: after
        /\ p = join (lit " ") cmd
        /\ run (cmd ++ Launcher.probe) = Launcher.Completed 0 out
        /\ Forall (fun c => forall o,
                     run (c ++ Launcher.probe) <> Launcher.Completed 0 o)
                  before
  | Launcher.Exit code =>
      code = 1
      /\ Forall (fun c => forall o,
                   run (c ++ Launcher.probe) <> Launcher.Completed 0 o) cmds
  end.
Proof.
  induction cmds as [|cmd rest IH]; cbn [Launcher.first_with_marimo].
  - split; [reflexivity|constructor].
  - destruct (run (cmd ++ Launcher.probe)) as [rc out| |] eqn:E.
    + destruct (Z.eq_dec rc 0) as [->|Hrc].
      * exists [], cmd, rest, out. cbn [app]. auto.
      * assert (Hfail : forall o,
                   Launcher.Completed rc out <> Launcher.Completed 0 o)
          by (intros o; congruence).
        replace (match rc with
                 | 0 => Launcher.Returned (join (lit " ") cmd)
                 | _ => Launcher.first_with_marimo run rest
                 end) with (Launcher.first_with_marimo run rest)
          by (destruct rc; [contradiction|reflexivity|reflexivity]).
        destruct (Launcher.first_with_marimo run rest) as [p|code].
        -- destruct IH as (before & c & after & o & -> & Hp & Hr & Hb).
           exists (cmd :: before), c, after, o. cbn [app].
           repeat split; auto. constructor; [rewrite E; exact Hfail|exact Hb].
        -- destruct IH as [-> Hall]. split; [reflexivity|].
           constructor; [rewrite E; exact Hfail|exact Hall].
    + destruct (Launcher.first_with_marimo run rest) as [p|code].
      * destruct IH as (before & c & after & o & -> & Hp & Hr & Hb).
        exists (cmd :: before), c, after, o. cbn [app].
        repeat split; auto.
        constructor; [rewrite E; discriminate|exact Hb].
      * destruct IH as [-> Hall]. split; [reflexivity|].
        constructor; [rewrite E; discriminate|exact Hall].
    + destruct (Launcher.first_with_marimo run rest) as [p|code].
      * destruct IH as (before & c & after & o & -> & Hp & Hr & Hb).
        exists (cmd :: before), c, after, o. cbn [app].
        repeat split; auto.
        constructor; [rewrite E; discriminate|exact Hb].
      * destruct IH as [-> Hall]. split; [reflexivity|].
        constructor; [rewrite E; discriminate|exact Hall].
Qed.

(** X23. [_find_system_python] returns the command of the first candidate
    whose probe for marimo ends with return code 0, its words joined by
    spaces; the Python named by [FLIGHT_OTP_PYTHON], when set and not
    empty, is tried before [py -3], [python] and [python3], so it is what
    is returned whenever its probe succeeds; and the launcher exits, with
    code 1, only when no candidate's probe succeeds. *)
Theorem find_system_python_first :
  (forall p,
      Launcher._find_system_python run environ = Launcher.Returned p ->
      exists before cmd after out,
        Launcher.candidates environ = before ++ cmd :: after
        /\ p = join (lit " ") cmd
        /\ run (cmd ++ Launcher.probe) = Launcher.Completed 0 out
        /\ Forall (fun c => forall o,
                     run (c ++ Launcher.probe) <> Launcher.Completed 0 o)
                  before)
  /\ (forall code,
        Launcher._find_system_python run environ = Launcher.Exit code ->
        code = 1
        /\ Forall (fun c => forall o,
                     run (c ++ Launcher.probe) <> Launcher.Completed 0 o)
                  (Launcher.candidates environ))
  /\ (forall build_python out,
        environ (lit "FLIGHT_OTP_PYTHON") = Some build_python ->
        build_python <> [] ->
        run ([build_python] ++ Launcher.probe) = Launcher.Completed 0 out ->
        Launcher._find_system_python run environ
        = Launcher.Returned build_python)
  /\ (exists first,
        Launcher.candidates environ
        = first ++ [[lit "py"; lit "-3"]; [lit "python"]; [lit "python3"]]
        /\ (length first <= 1)%nat).
Proof.
  unfold Launcher._find_system_python.
  pose proof (first_with_marimo_spec (Launcher.candidates environ)) as H.
  split; [intros p E; rewrite E in H; exact H|].
  split; [intros code E; rewrite E in H; exact H|].
  split.
  - intros bp out Henv Hne Hrun. unfold Launcher.candidates. rewrite Henv.
    destruct bp as [|c bp]; [contradiction|].
    cbn [Launcher.first_with_marimo app] in *. rewrite Hrun.
    reflexivity.
  - unfold Launcher.candidates.
    destruct (environ (lit "FLIGHT_OTP_PYTHON")) as [[|c bp]|].
    + exists []. split; [reflexivity|cbn; lia].
    + exists [[c :: bp]]. split; [reflexivity|cbn; lia].
    + exists []. split; [reflexivity|cbn; lia].
Qed.

End LauncherDetails.

(* ------------------------------------------------------------------ *)
(** * The further properties on concrete inputs *)

Lemma generated_from_pools_witness :
  records_of (generate fixture_generator 5) = Ok fixture_records
  /\ Forall (fun r =>
               In (airline r, airline_code r) AIRLINES
               /\ In (origin_airport r) AIRPORTS
               /\ In (destination_airport r) AIRPORTS
               /\ (exists letter number,
                      gate r = Some (letter ++ str_of_int number)
                      /\ In letter (map (fun c => [c]) (lit "ABCDEF"))
                      /\ 1 <= number <= 40)
               /\ (exists t, terminal r = Some t /\ In t TERMINALS)
               /\ (exists a, aircraft_type r = Some a
                             /\ In a AIRCRAFT_TYPES))
            fixture_records.
Proof.
  split; [vm_compute; reflexivity|].
  apply (generated_from_pools fixture_generator 5 fixture_records).
  vm_compute. reflexivity.
Defined.

Lemma generated_flight_id_witness :
  records_of (generate fixture_generator 5) = Ok fixture_records
  /\ Forall (fun r =>
               flight_id r
               = airline_code r ++ lit "-" ++ str_of_int (flight_number r)
               /\ 100 <= flight_number r <= 9999) fixture_records.
Proof.
  split; [vm_compute; reflexivity|].
  apply (generated_flight_id fixture_generator 5 fixture_records).
  vm_compute. reflexivity.
Defined.

Lemma generated_schedule_witness :
  records_of (generate fixture_generator 5) = Ok fixture_records
  /\ Forall (fun r =>
               (exists off,
                   -720 <= off <= 720
                   /\ scheduled_time r
                      = mk_datetime
                          (ticks (base_time fixture_generator)
                           + off * US_PER_MINUTE)
                          (tzinfo (base_time fixture_generator)))
               /\ 0 <= ticks (scheduled_time r) < MAX_TICKS
               /\ (forall e, estimated_time r = Some e ->
                     e = mk_datetime
                           (ticks (scheduled_time r)
                            + delay_minutes r * US_PER_MINUTE)
                           (tzinfo (scheduled_time r))
                     /\ 0 <= ticks e < MAX_TICKS)
               /\ (forall a, actual_time r = Some a ->
                     a = match estimated_time r with
                         | Some e => e
                         | None => scheduled_time r
                         end)) fixture_records.
Proof.
  split; [vm_compute; reflexivity|].
  apply (generated_schedule fixture_generator 5 fixture_records).
  vm_compute. reflexivity.
Defined.

Lemma generated_delay_by_status_witness :
  records_of (generate fixture_generator 5) = Ok fixture_records
  /\ Forall (fun r =>
               delay_minutes r <= 300
               /\ (status r = DELAYED -> 15 <= delay_minutes r)
               /\ (status r = ARRIVED \/ status r = LANDED ->
                   In (delay_minutes r) [0; 5; 10; 15; 30])
               /\ (status r <> DELAYED -> status r <> ARRIVED ->
                   status r <> LANDED -> delay_minutes r = 0))
            fixture_records.
Proof.
  split; [vm_compute; reflexivity|].
  apply (generated_delay_by_status fixture_generator 5 fixture_records).
  vm_compute. reflexivity.
Defined.

Lemma generate_keeps_configuration_witness :
  exists rs g1,
    generate fixture_generator 5 = Ok (rs, g1)
    /\ seed g1 = seed fixture_generator
    /\ base_time g1 = base_time fixture_generator
    /\ (5 <= 0 -> rs = [] /\ g1 = fixture_generator).
Proof.
  destruct (generate fixture_generator 5) as [[rs g1]|e] eqn:E.
  - exists rs, g1. split; [reflexivity|].
    apply (generate_keeps_configuration fixture_generator g1 5 rs E).
  - exfalso. pose proof fixture_run as H. rewrite E in H. discriminate.
Defined.

Lemma generate_raises_only_overflow_witness :
  records_of (generate (__init__ (R := MersenneTwister) 42
                          (Some datetime_min) datetime_min) 1)
  = Err OverflowError
  /\ OverflowError = OverflowError.
Proof.
  split; [vm_compute; reflexivity|].
  apply (generate_raises_only_overflow
           (__init__ (R := MersenneTwister) 42 (Some datetime_min)
              datetime_min) 1 OverflowError).
  vm_compute. reflexivity.
Defined.

(** Keyword arguments with their codes in lower case. *)
Definition lower_case_arguments : FlightRecord :=
  {| flight_id := lit "UA-1234"; flight_type := DEPARTURE;
     airline := lit "United Airlines"; airline_code := lit "ua";
     flight_number := 1234; origin_airport := lit "jfk";
     destination_airport := lit "lax";
     scheduled_time := fixture_base_time;
     estimated_time := None; actual_time := None;
     status := SCHEDULED; gate := None; terminal := None;
     aircraft_type := None; delay_minutes := 0 |}.

Lemma revalidation_idempotent_witness :
  Forall (fun c => (c < 128)%N)
         (airline_code lower_case_arguments
          ++ origin_airport lower_case_arguments
          ++ destination_airport lower_case_arguments)
  /\ FlightRecord_new lower_case_arguments
     = Ok (normalized lower_case_arguments)
  /\ map (fun f => f (normalized lower_case_arguments))
         [airline_code; origin_airport; destination_airport]
     = map lit ["UA"; "JFK"; "LAX"]%string
  /\ FlightRecord_new (normalized lower_case_arguments)
     = Ok (normalized lower_case_arguments).
Proof.
  assert (Hascii : Forall (fun c => (c < 128)%N)
                     (airline_code lower_case_arguments
                      ++ origin_airport lower_case_arguments
                      ++ destination_airport lower_case_arguments))
    by (repeat (constructor; [reflexivity|]); constructor).
  split; [exact Hascii|]. split; [reflexivity|]. split; [reflexivity|].
  apply (revalidation_idempotent Latin1 lower_case_arguments
           (normalized lower_case_arguments) Hascii).
  reflexivity.
Defined.

(** A base time without time zone, some days after the fixtures'. *)
Definition naive_base_time : datetime :=
  mk_datetime (739800 * US_PER_DAY) None.

(** The records of seed 42 at that base time. *)
Definition rebased_records :=
  Eval vm_compute in
    match records_of (generate (__init__ (R := MersenneTwister) 42
                                  (Some naive_base_time) datetime_min) 5) with
    | Ok rs => rs
    | Err _ => []
    end.

Lemma generate_rebased_witness :
  records_of (generate (__init__ (R := MersenneTwister) 42
                          (Some fixture_base_time) datetime_min) 5)
  = Ok fixture_records
  /\ records_of (generate (__init__ (R := MersenneTwister) 42
                             (Some naive_base_time) datetime_min) 5)
     = Ok rebased_records
  /\ rebased_records
     = map (retime (rebase fixture_base_time naive_base_time))
         fixture_records.
Proof.
  split; [vm_compute; reflexivity|]. split; [vm_compute; reflexivity|].
  apply (generate_rebased 42 5 fixture_base_time naive_base_time datetime_min
           datetime_min fixture_records rebased_records).
  - vm_compute. reflexivity.
  - vm_compute. reflexivity.
Defined.

(** A file of two JSON lines, a blank line between them and spaces after
    them. *)
Definition mixed_file : fs :=
  write_text (fun _ => None) (lit "mixed.ndjson")
    (lit "{}" ++ [NL] ++ [NL] ++ lit "[1, 2]" ++ [NL] ++ lit "  ").

Lemma count_lines_matches_read_witness :
  read_ndjson_file (lit "mixed.ndjson") mixed_file
  = Ok [JDict []; JList [JInt 1; JInt 2]]
  /\ count_lines (lit "mixed.ndjson") mixed_file = Ok 2.
Proof.
  split; [vm_compute; reflexivity|].
  apply (count_lines_matches_read (lit "mixed.ndjson") mixed_file
           [JDict []; JList [JInt 1; JInt 2]]).
  vm_compute. reflexivity.
Defined.


Lemma stream_to_buffer_bytes_witness :
  forallb encodable (records_to_ndjson fixture_records) = true
  /\ exists bs,
       Utf8.encode (records_to_ndjson fixture_records) = Ok bs
       /\ stream_to_buffer fixture_records = Ok (BytesIO.mk bs 0)
       /\ fst (BytesIO.read (BytesIO.mk bs 0)) = bs
       /\ count_occ N.eq_dec bs 10%N = length fixture_records.
Proof.
  split; [vm_compute; reflexivity|].
  apply (stream_to_buffer_bytes fixture_records).
  vm_compute. reflexivity.
Defined.

(** Arrays of integers and strings, with the casts that widen an integer
    and narrow the offsets of a string. *)
Inductive scalar : Type :=
| IntCell (i : Z)
| StrCell (s : str).

Definition plain_cast (from to : Arrow.DataType)
  (cells : list (option scalar)) : result (list (option scalar)) :=
  match from, to with
  | Arrow.int32, Arrow.int64 | Arrow.large_string, Arrow.string => Ok cells
  | _, _ => Err ValueError
  end.

Lemma plain_cast_length (from to : Arrow.DataType)
  (cells cells' : list (option scalar)) :
  plain_cast from to cells = Ok cells' -> length cells' = length cells.
Proof.
  unfold plain_cast. destruct from, to; try discriminate; congruence.
Qed.

#[export] Instance PlainArrays : ArrowArrays :=
  {| cell := scalar; cast := plain_cast; cast_length := plain_cast_length |}.

(** A table as JSON reading leaves it: 32-bit flight numbers, large
    strings, an [estimated_time] of nulls only, and a column the schema
    does not know. *)
Definition raw_table : Table :=
  [ (lit "flight_number",
     mk_column Arrow.int32 [Some (IntCell 1924); Some (IntCell 620)]);
    (lit "airline",
     mk_column Arrow.large_string
       [Some (StrCell (lit "Air France")); Some (StrCell (lit "Spirit Airlines"))]);
    (lit "estimated_time", mk_column Arrow.null [None; None]);
    (lit "loaded_at",
     mk_column (Arrow.other (lit "double")) [None; None]) ].

Definition coerced_table : Table :=
  [ (lit "flight_number",
     mk_column Arrow.int64 [Some (IntCell 1924); Some (IntCell 620)]);
    (lit "airline",
     mk_column Arrow.string
       [Some (StrCell (lit "Air France")); Some (StrCell (lit "Spirit Airlines"))]);
    (lit "estimated_time", mk_column Arrow.string [None; None]);
    (lit "loaded_at",
     mk_column (Arrow.other (lit "double")) [None; None]) ].

Lemma raw_table_coerced : _coerce_arrow_schema raw_table = Ok coerced_table.
Proof. vm_compute. reflexivity. Qed.

Lemma raw_table_names : NoDup (map fst raw_table).
Proof.
  repeat (constructor; [cbn; intuition discriminate|]). constructor.
Qed.

Lemma coerce_conforms_witness :
  _coerce_arrow_schema raw_table = Ok coerced_table
  /\ NoDup (map fst coerced_table)
  /\ Forall (fun nc =>
               forall f, In f Iceberg.FLIGHT_ICEBERG_SCHEMA ->
                         Iceberg.name f = fst nc ->
                         type (snd nc)
                         = match Iceberg.field_type f with
                           | Iceberg.LongType => Arrow.int64
                           | Iceberg.StringType => Arrow.string
                           end) coerced_table.
Proof.
  split; [exact raw_table_coerced|].
  apply (coerce_conforms raw_table coerced_table raw_table_coerced).
Defined.

Lemma coerce_keeps_shape_witness :
  NoDup (map fst raw_table)
  /\ _coerce_arrow_schema raw_table = Ok coerced_table
  /\ map fst coerced_table = map fst raw_table
  /\ Forall2 (fun a b =>
                length (cells (snd b)) = length (cells (snd a))
                /\ ((forall f, In f Iceberg.FLIGHT_ICEBERG_SCHEMA ->
                               Iceberg.name f <> fst a) -> b = a)
                /\ ((forall f, In f Iceberg.FLIGHT_ICEBERG_SCHEMA ->
                               Iceberg.name f = fst a ->
                               type (snd a) = target f) -> b = a))
             raw_table coerced_table.
Proof.
  split; [exact raw_table_names|]. split; [exact raw_table_coerced|].
  apply (coerce_keeps_shape raw_table coerced_table raw_table_names
           raw_table_coerced).
Defined.

Lemma coerce_idempotent_witness :
  _coerce_arrow_schema raw_table = Ok coerced_table
  /\ _coerce_arrow_schema coerced_table = Ok coerced_table.
Proof.
  split; [exact raw_table_coerced|].
  apply (coerce_idempotent raw_table coerced_table raw_table_coerced).
Defined.

(** A table that needs no cast: 64-bit flight numbers and an
    [estimated_time] of nulls only. *)
Definition null_table : Table :=
  [ (lit "flight_number",
     mk_column Arrow.int64 [Some (IntCell 1924); Some (IntCell 620)]);
    (lit "estimated_time", mk_column Arrow.null [None; None]) ].

Lemma null_table_names : NoDup (map fst null_table).
Proof.
  repeat (constructor; [cbn; intuition discriminate|]). constructor.
Qed.

Lemma null_table_types :
  Forall (fun nc =>
            forall f, In f Iceberg.FLIGHT_ICEBERG_SCHEMA ->
                      Iceberg.name f = fst nc ->
                      type (snd nc) = target f
                      \/ type (snd nc) = Arrow.null) null_table.
Proof.
  repeat (constructor;
          [intros f Hf Hn;
           unfold Iceberg.FLIGHT_ICEBERG_SCHEMA in Hf; cbn [In] in Hf;
           repeat (destruct Hf as [<-|Hf];
                   [first [left; reflexivity | right; reflexivity
                          | vm_compute in Hn; discriminate Hn]|]);
           contradiction|]).
  constructor.
Qed.

Lemma coerce_null_columns_witness :
  NoDup (map fst null_table)
  /\ Forall (fun nc =>
               forall f, In f Iceberg.FLIGHT_ICEBERG_SCHEMA ->
                         Iceberg.name f = fst nc ->
                         type (snd nc) = target f
                         \/ type (snd nc) = Arrow.null) null_table
  /\ exists t',
       _coerce_arrow_schema null_table = Ok t'
       /\ Forall2 (fun a b =>
                     fst b = fst a
                     /\ forall f, In f Iceberg.FLIGHT_ICEBERG_SCHEMA ->
                                  Iceberg.name f = fst a ->
                                  type (snd a) = Arrow.null ->
                                  snd b = mk_column (target f)
                                            (repeat None
                                               (length (cells (snd a)))))
                  null_table t'.
Proof.
  split; [exact null_table_names|]. split; [exact null_table_types|].
  apply (coerce_null_columns null_table null_table_names null_table_types).
Defined.
